(** * Signature and blob-transaction core of the ethereumjs monorepo

    A shallow embedding of [packages/util/src/signature.ts] and of the
    class [BlobEIP4844Transaction] of
    [packages/tx/src/eip4844Transaction.ts], with the properties the
    specification states about them.

    Conventions:
    - a JavaScript [bigint] is a [Z]; [%] on bigints is the truncated
      remainder [Z.rem];
    - a [Buffer] is a [list byte]; reading past the end yields nothing and
      a write past the end is dropped, as Node does;
    - a function that may [throw] returns a [Result]; [Throw e] carries
      which [throw] statement fired;
    - an optional property or parameter is an [option]; [None] is
      [undefined]. *)

From Stdlib Require Import String Ascii.
From Stdlib Require Import Strings.Byte.
From Stdlib Require Import ZArith List Bool Lia.
Import ListNotations.
Local Open Scope Z_scope.

(** ** Exceptions *)

(** One constructor per [throw new Error(...)] of the two files and of the
    helpers they call; the comment gives the message. *)
Inductive Error : Type :=
| InvalidSignatureV        (* 'Invalid signature v value' *)
| InvalidSignatureLength   (* 'Invalid signature length' *)
| NotHexString             (* toBuffer: 'Cannot convert string to buffer ...' *)
| NegativeBigInt           (* toBuffer: 'Cannot convert negative bigint to buffer' *)
| NumberExceeds53Bits      (* bufferToInt: 'Number exceeds 53 bits' *)
| CryptoError              (* whatever recoverPublicKey throws *)
| InvalidAddress           (* Address: 'Invalid address length' *)
| ExceedsMaxInteger        (* '... cannot exceed MAX_INTEGER ...' *)
| ChainIdMismatch          (* _getCommon: 'The chain ID does not match ...' *)
| EIP1559NotEnabled        (* 'EIP-1559 not enabled on Common' *)
| AccessListAddressLength  (* '... address length should be 20 bytes' *)
| AccessListSlotLength     (* '... storage slot length should be 32 bytes' *)
| GasLimitTimesFeeExceedsMax (* 'gasLimit * maxFeePerGas cannot exceed MAX_INTEGER (2^256-1)' *)
| MaxFeeLessThanPriorityFee  (* 'maxFeePerGas cannot be less than maxPriorityFeePerGas ...' *)
| InvalidYParity           (* 'The y-parity of the transaction should either be 0 or 1' *)
| HighS                    (* 'Invalid Signature: s-values greater than secp256k1n/2 ...' *)
| InitCodeTooLarge         (* checkMaxInitCodeSize *)
| VersionedHashLength      (* 'versioned hash is invalid length' *)
| VersionedHashVersion     (* 'versioned hash does not start with KZG commitment version' *)
| TooManyBlobs             (* 'tx can contain at most LIMIT_BLOBS_PER_TX blobs' *)
| SszError                 (* whatever the SSZ codec throws *)
| NotSigned                (* 'Cannot call this method if transaction is not signed' *)
| InvalidSignature         (* getSenderPublicKey: 'Invalid Signature' *)
| NotImplemented           (* 'Method not implemented.' *)
| TypeError.            (* a TypeError of the runtime, as on a write to a frozen object *)

(** The error kinds of section 7 of the specification; the code itself
    throws plain [Error]s that differ in their message only. *)
Inductive ErrorKind : Type :=
| InvalidSignatureError
| InvalidSignatureLengthError
| NotSignedError
| FieldBoundsError
| FeeOrderingError
| AccessListShapeError
| BlobCountExceededError
| VersionedHashFormatError
| OtherError.

Definition kindOf (e : Error) : ErrorKind :=
  match e with
  | InvalidSignatureV | InvalidYParity | HighS | InvalidSignature => InvalidSignatureError
  | InvalidSignatureLength => InvalidSignatureLengthError
  | NotSigned => NotSignedError
  | ExceedsMaxInteger | GasLimitTimesFeeExceedsMax => FieldBoundsError
  | MaxFeeLessThanPriorityFee => FeeOrderingError
  | AccessListAddressLength | AccessListSlotLength => AccessListShapeError
  | TooManyBlobs => BlobCountExceededError
  | VersionedHashLength | VersionedHashVersion => VersionedHashFormatError
  | _ => OtherError
  end.

Inductive Result (A : Type) : Type :=
| Ok (a : A)
| Throw (e : Error).
Arguments Ok {A} a.
Arguments Throw {A} e.

Definition bind {A B : Type} (m : Result A) (k : A -> Result B) : Result B :=
  match m with
  | Ok a => k a
  | Throw e => Throw e
  end.

Notation "'let*' x ':=' m 'in' k" := (bind m (fun x => k))
  (at level 10, x name, m at level 100, k at level 200).
Notation "'let*' ' p ':=' m 'in' k" :=
  (bind m (fun x => match x with p => k end))
  (at level 10, p pattern, m at level 100, k at level 200).

Definition isOk {A : Type} (m : Result A) : bool :=
  match m with Ok _ => true | Throw _ => false end.

(** [failsWith m k]: the call threw, and the error is of kind [k]. *)
Definition failsWith {A : Type} (m : Result A) (k : ErrorKind) : Prop :=
  exists e, m = Throw e /\ kindOf e = k.

(** ** Buffers *)

Definition Buffer : Type := list byte.

Definition byteToZ (b : byte) : Z := Z.of_N (Byte.to_N b).

(** Storing a number into a [Uint8Array] slot keeps its low eight bits. *)
Definition byteOfZ (z : Z) : byte :=
  match Byte.of_N (Z.to_N (z mod 256)) with
  | Some b => b
  | None => x00
  end.

(** [buf.slice(start, end)] for indices that are not negative. *)
Definition slice (buf : Buffer) (from to : nat) : Buffer :=
  firstn (to - from) (skipn from buf).

(** [buf[0] |= m] and [buf[0] &= m]: in place on the first byte, nothing
    on an empty buffer. *)
Definition orFirst (m : Z) (buf : Buffer) : Buffer :=
  match buf with
  | [] => []
  | b :: t => byteOfZ (Z.lor (byteToZ b) m) :: t
  end.

Definition andFirst (m : Z) (buf : Buffer) : Buffer :=
  match buf with
  | [] => []
  | b :: t => byteOfZ (Z.land (byteToZ b) m) :: t
  end.

(** [Buffer.concat(list, totalLength)]: the concatenation cut or
    zero-filled to [totalLength]. *)
Definition concatTo (bufs : list Buffer) (totalLength : nat) : Buffer :=
  let all := List.concat bufs in
  firstn totalLength all ++ repeat x00 (totalLength - length all).

Fixpoint bufferEqb (a b : Buffer) : bool :=
  match a, b with
  | [], [] => true
  | x :: a', y :: b' => Byte.eqb x y && bufferEqb a' b'
  | _, _ => false
  end.

(** *** The helpers of [./bytes] *)

(** Modelled from the spec: [bufferToBigInt] of [./bytes] is not among the
    sources; it is the "integer value" of a buffer, read big-endian, the
    empty buffer being 0. *)
Definition bufferToBigInt (buf : Buffer) : Z :=
  fold_left (fun acc b => acc * 256 + byteToZ b) buf 0.

(** Modelled from the spec: [bufferToInt] of [./bytes] is not among the
    sources; the same integer as a JavaScript number, refused when it is
    not a safe integer. *)
Definition bufferToInt (buf : Buffer) : Result Z :=
  let n := bufferToBigInt buf in
  if n <=? 2 ^ 53 - 1 then Ok n else Throw NumberExceeds53Bits.

(** Modelled from the spec: [setLengthLeft] of [./bytes] is not among the
    sources; "left-zero-padded" to [len] bytes, and a longer buffer keeps
    its last [len] bytes. *)
Definition setLengthLeft (msg : Buffer) (len : nat) : Buffer :=
  if (length msg <? len)%nat
  then repeat x00 (len - length msg) ++ msg
  else skipn (length msg - len) msg.

(** The [len] low-order bytes of [v], big-endian. *)
Definition bigEndian (len : nat) (v : Z) : Buffer :=
  map (fun i => byteOfZ (Z.shiftr v (8 * Z.of_nat (len - 1 - i)))) (seq 0 len).

(** Number of bytes of the even-length hexadecimal rendering of [v >= 0]
    ([v.toString(16)], one [0] put in front when the length is odd). *)
Definition hexByteLength (v : Z) : nat := Z.to_nat (Z.log2 v / 8 + 1).

(** Modelled from the spec: [toBuffer] of [./bytes] is not among the
    sources. On a bigint it gives the "raw v byte(s)": the bytes of the
    even-length hexadecimal rendering, so 0 becomes the single byte 00; a
    negative bigint is refused. *)
Definition toBuffer_bigint (v : Z) : Result Buffer :=
  if v <? 0 then Throw NegativeBigInt
  else Ok (bigEndian (hexByteLength v) v).

(** Modelled from the spec: [bigIntToUnpaddedBuffer] of [./bytes] is not
    among the sources; the bytes of a bigint without leading zero bytes, so
    0 becomes the empty buffer. The hexadecimal rendering of a negative
    bigint is no hex string and is refused. *)
Definition bigIntToUnpaddedBuffer (v : Z) : Result Buffer :=
  if v <? 0 then Throw NotHexString
  else if v =? 0 then Ok []
  else Ok (bigEndian (hexByteLength v) v).

(** [bufferToBigInt(toBuffer(x))] for an optional bigint [x], the idiom the
    constructors read every numeric field with: [toBuffer(undefined)] is the
    empty buffer. *)
Definition toBigInt (x : option Z) : Result Z :=
  match x with
  | None => Ok (bufferToBigInt [])
  | Some z => let* b := toBuffer_bigint z in Ok (bufferToBigInt b)
  end.

(** *** Hex strings *)

Definition hexDigit (n : N) : ascii :=
  if (n <? 10)%N then ascii_of_N (48 + n) else ascii_of_N (87 + n).

Definition hexValue (c : ascii) : option N :=
  let n := N_of_ascii c in
  if ((48 <=? n) && (n <=? 57))%N then Some (n - 48)%N
  else if ((97 <=? n) && (n <=? 102))%N then Some (n - 87)%N
  else if ((65 <=? n) && (n <=? 70))%N then Some (n - 55)%N
  else None.

Definition isHexChar (c : ascii) : bool :=
  match hexValue c with Some _ => true | None => false end.

Fixpoint allHex (s : string) : bool :=
  match s with
  | EmptyString => true
  | String c rest => isHexChar c && allHex rest
  end.

(** [buf.toString('hex')] *)
Fixpoint hexOfBuffer (buf : Buffer) : string :=
  match buf with
  | [] => EmptyString
  | b :: t =>
      String (hexDigit (Byte.to_N b / 16))
        (String (hexDigit (Byte.to_N b mod 16)) (hexOfBuffer t))
  end.

(** [Buffer.from(s, 'hex')]: pairs of digits, up to the first pair that
    is not one. *)
Fixpoint bufferFromHex (s : string) : Buffer :=
  match s with
  | String a (String b rest) =>
      match hexValue a, hexValue b with
      | Some x, Some y => byteOfZ (Z.of_N (16 * x + y)) :: bufferFromHex rest
      | _, _ => []
      end
  | _ => []
  end.

(** Modelled from the spec: [bufferToHex] of [./bytes] is not among the
    sources; the spec's "65-byte string" is the 0x-prefixed hexadecimal
    rendering of the bytes. *)
Definition bufferToHex (buf : Buffer) : string :=
  String "0" (String "x" (hexOfBuffer buf)).

Definition padToEven (s : string) : string :=
  if Nat.odd (String.length s) then String "0" s else s.

(** Modelled from the spec: [toBuffer] of [./bytes] is not among the
    sources. On a string it accepts a 0x-prefixed hex string (the match of
    [^0x[0-9A-Fa-f]*$]) and gives the bytes it denotes. *)
Definition toBuffer_string (str : string) : Result Buffer :=
  match str with
  | String "0" (String "x" digits) =>
      if allHex digits then Ok (bufferFromHex (padToEven digits))
      else Throw NotHexString
  | _ => Throw NotHexString
  end.

(** ** [packages/util/src/signature.ts] *)

(** Modelled from the spec: [./constants] is not among the sources;
    [SECP256K1_ORDER] is the order of the secp256k1 group and
    [SECP256K1_ORDER_DIV_2] its half as bigint division gives it. *)
Definition SECP256K1_ORDER : Z :=
  0xFFFFFFFFFFFFFFFFFFFFFFFFFFFFFFFEBAAEDCE6AF48A03BBFD25E8CD0364141.

Definition SECP256K1_ORDER_DIV_2 : Z := SECP256K1_ORDER / 2.

Module Signature.

(** [ECDSASignature], lines 7-24. *)
Record ECDSASignature : Type := {
  sig_v : Z;
  sig_r : Buffer;
  sig_s : Buffer;
  sig_recovery : Z
}.

(** [calculateSigRecovery], lines 49-66. *)
Definition calculateSigRecovery (v : Z) : Z :=
  if (28 <? v) && (v <? 35) then v
  else if (v <? 27) && (1 <? v) then v
  else if (v =? 27) || (v =? 28) then v - 27
  else if (v =? 0) || (v =? 1) then v
  else if Z.rem (0 - 35 - v) 2 =? 0 then 0
  else 1.

(** [isValidSigRecovery], lines 68-70. *)
Definition isValidSigRecovery (recovery : Z) : bool :=
  (recovery =? 0) || (recovery =? 1).

(** [ecrecover], lines 77-85. [recoverPublicKey] is the curve operation of
    ethereum-cryptography, a parameter here. *)
Definition ecrecover (recoverPublicKey : Buffer -> Buffer -> Z -> Result Buffer)
    (msgHash : Buffer) (v : Z) (r s : Buffer) : Result Buffer :=
  let signature := concatTo [setLengthLeft r 32; setLengthLeft s 32] 64 in
  let recovery := calculateSigRecovery v in
  if negb (isValidSigRecovery recovery) then Throw InvalidSignatureV
  else
    let* senderPubKey := recoverPublicKey msgHash signature recovery in
    Ok (skipn 1 senderPubKey).

(** [toRpcSig], lines 92-100. *)
Definition toRpcSig (v : Z) (r s : Buffer) : Result string :=
  let recovery := calculateSigRecovery v in
  if negb (isValidSigRecovery recovery) then Throw InvalidSignatureV
  else
    let* vBuf := toBuffer_bigint v in
    Ok (bufferToHex (List.concat [setLengthLeft r 32; setLengthLeft s 32; vBuf])).

(** [toCompactSig], lines 107-120. [Buffer.from(s)] copies, so the
    caller's [s] is left as it was. *)
Definition toCompactSig (v : Z) (r s : Buffer) : Result string :=
  let recovery := calculateSigRecovery v in
  if negb (isValidSigRecovery recovery) then Throw InvalidSignatureV
  else
    let ss :=
      if ((28 <? v) && (Z.rem v 2 =? 1)) || (v =? 1) || (v =? 28)
      then orFirst 0x80 s
      else s in
    Ok (bufferToHex (List.concat [setLengthLeft r 32; setLengthLeft ss 32])).

(** [fromRpcSig], lines 130-163. In the compact branch [v] is read before
    [s[0] &= 0x7f]; [r] and [s] are views of disjoint ranges of [buf]. *)
Definition fromRpcSig (sig : string) : Result ECDSASignature :=
  let* buf := toBuffer_string sig in
  let* '(r, s, v) :=
    if (65 <=? length buf)%nat then
      Ok (slice buf 0 32, slice buf 32 64, bufferToBigInt (skipn 64 buf))
    else if (length buf =? 64)%nat then
      let* n := bufferToInt (slice buf 32 33) in
      Ok (slice buf 0 32, andFirst 0x7f (slice buf 32 64), Z.shiftr n 7)
    else Throw InvalidSignatureLength in
  let recovery := calculateSigRecovery v in
  let v := if v <? 27 then v + 27 else v in
  Ok {| sig_v := v; sig_r := r; sig_s := s; sig_recovery := recovery |}.

(** [isValidSignature], lines 170-201; [homesteadOrLater] defaults to
    [true]. *)
Definition isValidSignature (v : Z) (r s : Buffer)
    (homesteadOrLater : option bool) : bool :=
  let homesteadOrLater :=
    match homesteadOrLater with Some b => b | None => true end in
  if negb (length r =? 32)%nat || negb (length s =? 32)%nat then false
  else if negb (isValidSigRecovery (calculateSigRecovery v)) then false
  else
    let rBigInt := bufferToBigInt r in
    let sBigInt := bufferToBigInt s in
    if (rBigInt =? 0) || (SECP256K1_ORDER <=? rBigInt)
       || (sBigInt =? 0) || (SECP256K1_ORDER <=? sBigInt) then false
    else if homesteadOrLater && (SECP256K1_ORDER_DIV_2 <=? sBigInt) then false
    else true.

(** The parity [toCompactSig] folds into the first byte of [s], by the
    test of line 114. *)
Definition compactParity (v : Z) : Z :=
  if ((28 <? v) && (Z.rem v 2 =? 1)) || (v =? 1) || (v =? 28) then 1 else 0.

End Signature.

(** ** [packages/tx/src/eip4844Transaction.ts] *)

(** Modelled from the spec: [MAX_INTEGER] of [@ethereumjs/util] is not among
    the sources; "the protocol's maximum integer bound (2^256-1)", as the
    message at line 97 also spells it. *)
Definition MAX_INTEGER : Z := 2 ^ 256 - 1.

(** [TRANSACTION_TYPE] and [TRANSACTION_TYPE_BUFFER], lines 32-33. *)
Definition TRANSACTION_TYPE : Z := 0x05.
Definition TRANSACTION_TYPE_BUFFER : Buffer :=
  bufferFromHex (String (hexDigit (Z.to_N TRANSACTION_TYPE / 16))
                   (String (hexDigit (Z.to_N TRANSACTION_TYPE mod 16)) EmptyString)).

(** An access list in its buffer form: pairs of an address and its storage
    keys. *)
Definition AccessListBufferItem : Type := (Buffer * list Buffer)%type.
Definition AccessListBuffer : Type := list AccessListBufferItem.

(** *** The values the SSZ codec reads and writes

    The field names are the keys of the object literal [serialize] hands to
    [SignedBlobTransactionType.serialize] (lines 242-264); [deserialize]
    returns an object with the same keys. *)

Record AddressOrNull : Type := {
  selector : Z;
  to_value : option Buffer
}.

Record AccessTuple : Type := {
  address : Buffer;
  storageKeys : list Buffer
}.

Record BlobTransactionMessage : Type := {
  m_chainId : Z;
  m_nonce : Z;
  m_priorityFeePerGas : Z;
  m_maxFeePerGas : Z;
  m_gas : Z;
  m_to : AddressOrNull;
  m_value : Z;
  m_data : Buffer;
  m_accessList : list AccessTuple;
  m_blobVersionedHashes : list Buffer;
  m_maxFeePerDataGas : Z
}.

Record ECDSASignatureSsz : Type := {
  ssz_r : Z;
  ssz_s : Z;
  yParity : bool
}.

Record SignedBlobTransaction : Type := {
  message : BlobTransactionMessage;
  signature : ECDSASignatureSsz
}.

(** [TxOptions]: the two options the class reads. *)
Record TxOptions (Common : Type) : Type := {
  opt_common : option Common;
  opt_freeze : option bool
}.

(** An instance of the class. [tx_frozen] is what [Object.isFrozen(this)] answers;
    [AccessListJSON], a rendering of [accessList], is left out. *)
Record BlobEIP4844Transaction (Common : Type) : Type := {
  tx_nonce : Z;
  tx_gasLimit : Z;
  tx_to : option Buffer;
  tx_value : Z;
  tx_data : Buffer;
  tx_v : option Z;
  tx_r : option Z;
  tx_s : option Z;
  tx_common : Common;
  tx_chainId : Z;
  tx_accessList : AccessListBuffer;
  tx_maxPriorityFeePerGas : Z;
  tx_maxFeePerGas : Z;
  tx_maxFeePerDataGas : Z;
  tx_versionedHashes : list Buffer;
  tx_activeCapabilities : list Z;
  tx_frozen : bool
}.

Arguments opt_common {Common}.
Arguments opt_freeze {Common}.
Arguments tx_nonce {Common}.
Arguments tx_gasLimit {Common}.
Arguments tx_to {Common}.
Arguments tx_value {Common}.
Arguments tx_data {Common}.
Arguments tx_v {Common}.
Arguments tx_r {Common}.
Arguments tx_s {Common}.
Arguments tx_common {Common}.
Arguments tx_chainId {Common}.
Arguments tx_accessList {Common}.
Arguments tx_maxPriorityFeePerGas {Common}.
Arguments tx_maxFeePerGas {Common}.
Arguments tx_maxFeePerDataGas {Common}.
Arguments tx_versionedHashes {Common}.
Arguments tx_activeCapabilities {Common}.
Arguments tx_frozen {Common}.

(** The fields [BaseTransaction] holds. *)
Record BaseFields : Type := {
  b_nonce : Z;
  b_gasLimit : Z;
  b_to : option Buffer;
  b_value : Z;
  b_data : Buffer;
  b_v : option Z;
  b_r : option Z;
  b_s : option Z
}.

(** What lines 66-94 have established when the fee checks start. *)
Record Parsed (Common : Type) : Type := {
  p_base : BaseFields;
  p_common : Common;
  p_accessList : AccessListBuffer;
  p_maxFeePerGas : Z;
  p_maxPriorityFeePerGas : Z
}.

Arguments p_base {Common}.
Arguments p_common {Common}.
Arguments p_accessList {Common}.
Arguments p_maxFeePerGas {Common}.
Arguments p_maxPriorityFeePerGas {Common}.

(** *** What the class takes from outside

    [Common] is the fork-activation oracle of [@ethereumjs/common];
    [_getCommon] and [_validateHighS] are methods of [BaseTransaction] and
    [checkMaxInitCodeSize] a function of [./util], none of them among the
    sources; the two constants and the SSZ type come from [./types];
    [keccak256] and [recoverPublicKey] from ethereum-cryptography. *)
Class Externals : Type := {
  Common : Type;
  Common_chainId : Common -> Z;
  isActivatedEIP : Common -> Z -> bool;
  _getCommon : option Common -> option Z -> Result Common;
  _validateHighS : Common -> option Z -> Result unit;
  checkMaxInitCodeSize : Common -> nat -> Result unit;
  BLOB_COMMITMENT_VERSION_KZG : Z;
  LIMIT_BLOBS_PER_TX : Z;
  SignedBlobTransactionType_serialize : SignedBlobTransaction -> Result Buffer;
  SignedBlobTransactionType_deserialize : Buffer -> Result SignedBlobTransaction;
  keccak256 : Buffer -> Buffer;
  recoverPublicKey : Buffer -> Buffer -> Z -> Result Buffer
}.

Section BlobTransaction.
Context {E : Externals}.

(** [BlobEIP4844TxData] as the constructors read it. A [BigIntLike] field
    is taken in its bigint form; [None] is a property the object does not
    have. [_validateNotArray] (line 94) has nothing to refuse on a record
    of this type. *)
Record BlobEIP4844TxData : Type := {
  td_chainId : option Z;
  td_nonce : option Z;
  td_gasLimit : option Z;
  td_to : option Buffer;
  td_value : option Z;
  td_data : option Buffer;
  td_accessList : option AccessListBuffer;
  td_maxFeePerGas : option Z;
  td_maxPriorityFeePerGas : option Z;
  td_maxFeePerDataGas : Z;
  td_versionedHashes : list Buffer;
  td_v : option Z;
  td_r : option Z;
  td_s : option Z
}.

(** *** [BaseTransaction] *)

(** Modelled from the spec: [_validateCannotExceedMaxInteger] of
    [./baseTransaction] is not among the sources; "no field exceeds the
    maximum integer bound". *)
Fixpoint _validateCannotExceedMaxInteger (values : list (option Z)) : Result unit :=
  match values with
  | [] => Ok tt
  | Some x :: rest =>
      if x >? MAX_INTEGER then Throw ExceedsMaxInteger
      else _validateCannotExceedMaxInteger rest
  | None :: rest => _validateCannotExceedMaxInteger rest
  end.

(** [vB.length > 0 ? bufferToBigInt(vB) : undefined] with
    [vB = toBuffer(v)]. *)
Definition toOptionalBigInt (x : option Z) : Result (option Z) :=
  match x with
  | None => Ok None
  | Some z =>
      let* b := toBuffer_bigint z in
      Ok (if (0 <? length b)%nat then Some (bufferToBigInt b) else None)
  end.

(** Modelled from the spec: the constructor of [BaseTransaction]
    ([./baseTransaction]) is not among the sources. It stores the common
    fields [nonce], [gasLimit], [to], [value], [data] and the signature
    triple, each numeric field read with the idiom of lines 84-87; "[to] is
    either absent or a well-formed address" of 20 bytes; all numeric fields
    fit within the maximum integer bound. *)
Definition BaseTransaction_constructor (txData : BlobEIP4844TxData) : Result BaseFields :=
  let toB := match td_to txData with Some a => a | None => [] end in
  let* v := toOptionalBigInt (td_v txData) in
  let* r := toOptionalBigInt (td_r txData) in
  let* s := toOptionalBigInt (td_s txData) in
  let* nonce := toBigInt (td_nonce txData) in
  let* gasLimit := toBigInt (td_gasLimit txData) in
  let* to :=
    if (0 <? length toB)%nat then
      if (length toB =? 20)%nat then Ok (Some toB) else Throw InvalidAddress
    else Ok None in
  let* value := toBigInt (td_value txData) in
  let data := match td_data txData with Some d => d | None => [] end in
  let* _ := _validateCannotExceedMaxInteger
              [Some value; r; s; Some gasLimit; Some nonce] in
  Ok {| b_nonce := nonce; b_gasLimit := gasLimit; b_to := to; b_value := value;
        b_data := data; b_v := v; b_r := r; b_s := s |}.

(** Modelled from the spec: [_validateYParity] of [./baseTransaction] is
    not among the sources; a parity that is present is 0 or 1. *)
Definition _validateYParity (v : option Z) : Result unit :=
  match v with
  | Some x => if negb (x =? 0) && negb (x =? 1) then Throw InvalidYParity else Ok tt
  | None => Ok tt
  end.

(** Modelled from the spec: [AccessLists.verifyAccessList] of [./util] is
    not among the sources; "every entry's address must be exactly 20 bytes
    and every storage key exactly 32 bytes". On an access list in buffer
    form [AccessLists.getAccessListData] returns the list as it is. *)
Fixpoint verifyAccessList (accessList : AccessListBuffer) : Result unit :=
  match accessList with
  | [] => Ok tt
  | (addr, slots) :: rest =>
      if negb (length addr =? 20)%nat then Throw AccessListAddressLength
      else if negb (forallb (fun k => (length k =? 32)%nat) slots)
      then Throw AccessListSlotLength
      else verifyAccessList rest
  end.

(** *** The constructor, lines 65-138 *)

(** Lines 66-94. *)
Definition parseFields (txData : BlobEIP4844TxData) (opts : TxOptions Common)
    : Result (Parsed Common) :=
  let* base := BaseTransaction_constructor txData in
  let* common := _getCommon (opt_common opts) (td_chainId txData) in
  if negb (isActivatedEIP common 1559) then Throw EIP1559NotEnabled
  else
    let accessList := match td_accessList txData with Some l => l | None => [] end in
    let* _ := verifyAccessList accessList in
    let* maxFeePerGas := toBigInt (td_maxFeePerGas txData) in
    let* maxPriorityFeePerGas := toBigInt (td_maxPriorityFeePerGas txData) in
    let* _ := _validateCannotExceedMaxInteger
                [Some maxFeePerGas; Some maxPriorityFeePerGas] in
    Ok {| p_base := base; p_common := common; p_accessList := accessList;
          p_maxFeePerGas := maxFeePerGas;
          p_maxPriorityFeePerGas := maxPriorityFeePerGas |}.

(** Lines 96-106. *)
Definition checkFees (p : Parsed Common) : Result unit :=
  if b_gasLimit (p_base p) * p_maxFeePerGas p >? MAX_INTEGER
  then Throw GasLimitTimesFeeExceedsMax
  else if p_maxFeePerGas p <? p_maxPriorityFeePerGas p
  then Throw MaxFeeLessThanPriorityFee
  else Ok tt.

(** Lines 110-115. *)
Definition checkSignatureAndInitCode (p : Parsed Common) : Result unit :=
  let* _ := _validateYParity (b_v (p_base p)) in
  let* _ := _validateHighS (p_common p) (b_s (p_base p)) in
  if isActivatedEIP (p_common p) 3860
  then checkMaxInitCodeSize (p_common p) (length (b_data (p_base p)))
  else Ok tt.

(** The loop of lines 117-126. *)
Fixpoint checkEachVersionedHash (hashes : list Buffer) : Result unit :=
  match hashes with
  | [] => Ok tt
  | hash :: rest =>
      if negb (length hash =? 32)%nat then Throw VersionedHashLength
      else if negb (match hash with
                    | b :: _ => byteToZ b =? BLOB_COMMITMENT_VERSION_KZG
                    | [] => false
                    end)
      then Throw VersionedHashVersion
      else checkEachVersionedHash rest
  end.

(** Lines 117-130. *)
Definition checkVersionedHashes (hashes : list Buffer) : Result unit :=
  let* _ := checkEachVersionedHash hashes in
  if Z.of_nat (length hashes) >? LIMIT_BLOBS_PER_TX then Throw TooManyBlobs
  else Ok tt.

(** The spec's words for a well-formed versioned hash: "exactly 32 bytes
    and its first byte must equal the reserved KZG-commitment version
    marker". *)
Definition isVersionedHash (hash : Buffer) : Prop :=
  length hash = 32%nat
  /\ option_map byteToZ (hd_error hash) = Some BLOB_COMMITMENT_VERSION_KZG.

(** [new BlobEIP4844Transaction(txData, opts)]. *)
Definition constructor (txData : BlobEIP4844TxData) (opts : TxOptions Common)
    : Result (BlobEIP4844Transaction Common) :=
  let* p := parseFields txData opts in
  let* _ := checkFees p in
  let* _ := checkSignatureAndInitCode p in
  let* _ := checkVersionedHashes (td_versionedHashes txData) in
  let freeze := match opt_freeze opts with Some b => b | None => true end in
  Ok {| tx_nonce := b_nonce (p_base p);
        tx_gasLimit := b_gasLimit (p_base p);
        tx_to := b_to (p_base p);
        tx_value := b_value (p_base p);
        tx_data := b_data (p_base p);
        tx_v := b_v (p_base p);
        tx_r := b_r (p_base p);
        tx_s := b_s (p_base p);
        tx_common := p_common p;
        tx_chainId := Common_chainId (p_common p);
        tx_accessList := p_accessList p;
        tx_maxPriorityFeePerGas := p_maxPriorityFeePerGas p;
        tx_maxFeePerGas := p_maxFeePerGas p;
        tx_maxFeePerDataGas := td_maxFeePerDataGas txData;
        tx_versionedHashes := td_versionedHashes txData;
        tx_activeCapabilities := [1559; 2718; 2930; 4844];
        tx_frozen := freeze |}.

(** The default [opts: TxOptions = {}] of the constructor, for a caller
    that passes none. *)
Definition noOptions : TxOptions Common :=
  {| opt_common := None; opt_freeze := None |}.

Definition optionsOrDefault (opts : option (TxOptions Common)) : TxOptions Common :=
  match opts with Some o => o | None => noOptions end.

(** [fromTxData], lines 140-142. *)
Definition fromTxData (txData : BlobEIP4844TxData) (opts : option (TxOptions Common))
    : Result (BlobEIP4844Transaction Common) :=
  constructor txData (optionsOrDefault opts).

(** Modelled from the spec: [isSigned] of [./baseTransaction] is not among
    the sources; "a transaction is signed iff its Signature is present". *)
Definition isSigned (tx : BlobEIP4844Transaction Common) : bool :=
  match tx_v tx, tx_r tx, tx_s tx with
  | Some _, Some _, Some _ => true
  | _, _, _ => false
  end.

(** The object literal of lines 238-264, the argument of
    [SignedBlobTransactionType.serialize]. *)
Definition sszValue (tx : BlobEIP4844Transaction Common) : SignedBlobTransaction :=
  let to :=
    {| selector := match tx_to tx with Some _ => 1 | None => 0 end;
       to_value := tx_to tx |} in
  {| message :=
       {| m_chainId := Common_chainId (tx_common tx);
          m_nonce := tx_nonce tx;
          m_priorityFeePerGas := tx_maxPriorityFeePerGas tx;
          m_maxFeePerGas := tx_maxFeePerGas tx;
          m_gas := tx_gasLimit tx;
          m_to := to;
          m_value := tx_value tx;
          m_data := tx_data tx;
          m_accessList :=
            map (fun listItem =>
                   {| address := fst listItem; storageKeys := snd listItem |})
                (tx_accessList tx);
          m_blobVersionedHashes := tx_versionedHashes tx;
          m_maxFeePerDataGas := tx_maxFeePerDataGas tx |};
     signature :=
       {| ssz_r := match tx_r tx with Some r => r | None => 0 end;
          ssz_s := match tx_s tx with Some s => s | None => 0 end;
          yParity := match tx_v tx with Some v => v =? 1 | None => false end |} |}.

(** [serialize], lines 237-266. *)
Definition serialize (tx : BlobEIP4844Transaction Common) : Result Buffer :=
  let* sszEncodedTx := SignedBlobTransactionType_serialize (sszValue tx) in
  Ok (List.concat [TRANSACTION_TYPE_BUFFER; sszEncodedTx]).

(** [getMessageToSign] and [getMessageToVerifySignature], lines 268-279. *)
Definition getMessageToSign (tx : BlobEIP4844Transaction Common) : Result Buffer :=
  Throw NotImplemented.

Definition getMessageToVerifySignature (tx : BlobEIP4844Transaction Common) : Result Buffer :=
  Throw NotImplemented.

(** [hash], lines 274-276. *)
Definition hash (tx : BlobEIP4844Transaction Common) : Result Buffer :=
  let* serialized := serialize tx in
  Ok (keccak256 serialized).

(** The [txData] object of lines 202-221. The spread [...tx] copies the
    keys of the decoded message; the constructors read [maxFeePerGas],
    [chainId], [nonce], [value], [data] and [maxFeePerDataGas] from it, and
    find no [gasLimit] and no [maxPriorityFeePerGas]: the message has them
    under the keys [gas] and [priorityFeePerGas]. [Address.fromString]
    refuses what is not 20 bytes long. *)
Definition decodedTxData (decoded : SignedBlobTransaction) : Result BlobEIP4844TxData :=
  let tx := message decoded in
  let accessList :=
    map (fun listItem => (address listItem, storageKeys listItem)) (m_accessList tx) in
  let* to :=
    match to_value (m_to tx) with
    | None => Ok None
    | Some value =>
        if (length value =? 20)%nat then Ok (Some value) else Throw InvalidAddress
    end in
  let versionedHashes := map (fun el => el) (m_blobVersionedHashes tx) in
  Ok {| td_chainId := Some (m_chainId tx);
        td_nonce := Some (m_nonce tx);
        td_gasLimit := None;
        td_to := to;
        td_value := Some (m_value tx);
        td_data := Some (m_data tx);
        td_accessList := Some accessList;
        td_maxFeePerGas := Some (m_maxFeePerGas tx);
        td_maxPriorityFeePerGas := None;
        td_maxFeePerDataGas := m_maxFeePerDataGas tx;
        td_versionedHashes := versionedHashes;
        td_v := Some (if yParity (signature decoded) then 1 else 0);
        td_r := Some (ssz_r (signature decoded));
        td_s := Some (ssz_s (signature decoded)) |}.

(** [fromSerializedTx], lines 199-223. *)
Definition fromSerializedTx (serialized : Buffer) (opts : option (TxOptions Common))
    : Result (BlobEIP4844Transaction Common) :=
  let* decoded := SignedBlobTransactionType_deserialize (skipn 1 serialized) in
  let* txData := decodedTxData decoded in
  constructor txData (optionsOrDefault opts).

(** [getSenderPublicKey], lines 284-306. The arguments of [ecrecover] are
    evaluated inside the [try]: what [bigIntToUnpaddedBuffer] throws, or
    adding 27 to an absent [v], is caught as well. *)
Definition getSenderPublicKey (tx : BlobEIP4844Transaction Common) : Result Buffer :=
  if negb (isSigned tx) then Throw NotSigned
  else
    let* msgHash := hash tx in
    let* _ := _validateHighS (tx_common tx) (tx_s tx) in
    match
      match tx_v tx, tx_r tx, tx_s tx with
      | Some v, Some r, Some s =>
          let* rBuf := bigIntToUnpaddedBuffer r in
          let* sBuf := bigIntToUnpaddedBuffer s in
          Signature.ecrecover recoverPublicKey msgHash (v + 27) rBuf sBuf
      | _, _, _ => Throw TypeError
      end
    with
    | Ok senderPubKey => Ok senderPubKey
    | Throw _ => Throw InvalidSignature
    end.

(** *** Writing to a property of an instance *)

Inductive Assignment : Type :=
| SetNonce (x : Z)
| SetGasLimit (x : Z)
| SetTo (x : option Buffer)
| SetValue (x : Z)
| SetData (x : Buffer)
| SetV (x : option Z)
| SetR (x : option Z)
| SetS (x : option Z)
| SetChainId (x : Z)
| SetAccessList (x : AccessListBuffer)
| SetMaxPriorityFeePerGas (x : Z)
| SetMaxFeePerGas (x : Z)
| SetMaxFeePerDataGas (x : Z)
| SetVersionedHashes (x : list Buffer).

Definition written (a : Assignment) (tx : BlobEIP4844Transaction Common)
    : BlobEIP4844Transaction Common :=
  let mk nonce gasLimit to value data v r s chainId accessList prio fee dataFee hashes :=
    {| tx_nonce := nonce; tx_gasLimit := gasLimit; tx_to := to; tx_value := value;
       tx_data := data; tx_v := v; tx_r := r; tx_s := s;
       tx_common := tx_common tx; tx_chainId := chainId;
       tx_accessList := accessList; tx_maxPriorityFeePerGas := prio;
       tx_maxFeePerGas := fee; tx_maxFeePerDataGas := dataFee;
       tx_versionedHashes := hashes;
       tx_activeCapabilities := tx_activeCapabilities tx;
       tx_frozen := tx_frozen tx |} in
  let '(nonce, gasLimit, to, value, data) :=
    (tx_nonce tx, tx_gasLimit tx, tx_to tx, tx_value tx, tx_data tx) in
  let '(v, r, s, chainId, accessList) :=
    (tx_v tx, tx_r tx, tx_s tx, tx_chainId tx, tx_accessList tx) in
  let '(prio, fee, dataFee, hashes) :=
    (tx_maxPriorityFeePerGas tx, tx_maxFeePerGas tx, tx_maxFeePerDataGas tx,
     tx_versionedHashes tx) in
  match a with
  | SetNonce x => mk x gasLimit to value data v r s chainId accessList prio fee dataFee hashes
  | SetGasLimit x => mk nonce x to value data v r s chainId accessList prio fee dataFee hashes
  | SetTo x => mk nonce gasLimit x value data v r s chainId accessList prio fee dataFee hashes
  | SetValue x => mk nonce gasLimit to x data v r s chainId accessList prio fee dataFee hashes
  | SetData x => mk nonce gasLimit to value x v r s chainId accessList prio fee dataFee hashes
  | SetV x => mk nonce gasLimit to value data x r s chainId accessList prio fee dataFee hashes
  | SetR x => mk nonce gasLimit to value data v x s chainId accessList prio fee dataFee hashes
  | SetS x => mk nonce gasLimit to value data v r x chainId accessList prio fee dataFee hashes
  | SetChainId x => mk nonce gasLimit to value data v r s x accessList prio fee dataFee hashes
  | SetAccessList x => mk nonce gasLimit to value data v r s chainId x prio fee dataFee hashes
  | SetMaxPriorityFeePerGas x =>
      mk nonce gasLimit to value data v r s chainId accessList x fee dataFee hashes
  | SetMaxFeePerGas x =>
      mk nonce gasLimit to value data v r s chainId accessList prio x dataFee hashes
  | SetMaxFeePerDataGas x =>
      mk nonce gasLimit to value data v r s chainId accessList prio fee x hashes
  | SetVersionedHashes x =>
      mk nonce gasLimit to value data v r s chainId accessList prio fee dataFee x
  end.

(** [tx.field = x] in strict-mode code, which all modules of the
    repository are: a [TypeError] on an instance [Object.freeze] was called
    on (line 136), the write otherwise. *)
Definition assign (a : Assignment) (tx : BlobEIP4844Transaction Common)
    : Result (BlobEIP4844Transaction Common) :=
  if tx_frozen tx then Throw TypeError else Ok (written a tx).

End BlobTransaction.

(** ** An instance to evaluate with

    Stand-ins for the collaborators, for the concrete evaluations below:
    a [Common] that is a chain id and the list of its active EIPs, the
    version byte 01 and a limit of two blobs, a fixed-width layout in place
    of SSZ whose decoder knows one value, and the identity in place of the
    hash. *)

Record ExampleCommon : Type := {
  ec_chainId : Z;
  ec_eips : list Z
}.

Definition exampleLayout (x : SignedBlobTransaction) : Buffer :=
  let m := message x in
  List.concat
    [ [if yParity (signature x) then x01 else x00];
      bigEndian 32 (ssz_r (signature x));
      bigEndian 32 (ssz_s (signature x));
      bigEndian 32 (m_chainId m);
      bigEndian 32 (m_nonce m);
      bigEndian 32 (m_priorityFeePerGas m);
      bigEndian 32 (m_maxFeePerGas m);
      bigEndian 32 (m_gas m);
      bigEndian 32 (m_value m);
      bigEndian 32 (m_maxFeePerDataGas m);
      match to_value (m_to m) with Some a => a | None => [] end;
      m_data m;
      List.concat (m_blobVersionedHashes m) ].

Definition exampleExternals (known : SignedBlobTransaction) : Externals := {|
  Common := ExampleCommon;
  Common_chainId := ec_chainId;
  isActivatedEIP := fun c eip => existsb (Z.eqb eip) (ec_eips c);
  _getCommon := fun common chainId =>
    match chainId, common with
    | Some id, Some c => if ec_chainId c =? id then Ok c else Throw ChainIdMismatch
    | Some id, None => Ok {| ec_chainId := id; ec_eips := [1559; 2718; 2930; 4844] |}
    | None, Some c => Ok c
    | None, None => Ok {| ec_chainId := 1; ec_eips := [1559; 2718; 2930; 4844] |}
    end;
  _validateHighS := fun _ s =>
    match s with
    | Some x => if x >? SECP256K1_ORDER_DIV_2 then Throw HighS else Ok tt
    | None => Ok tt
    end;
  checkMaxInitCodeSize := fun _ len =>
    if 49152 <? Z.of_nat len then Throw InitCodeTooLarge else Ok tt;
  BLOB_COMMITMENT_VERSION_KZG := 0x01;
  LIMIT_BLOBS_PER_TX := 2;
  SignedBlobTransactionType_serialize := fun x => Ok (exampleLayout x);
  SignedBlobTransactionType_deserialize := fun b =>
    if bufferEqb b (exampleLayout known) then Ok known else Throw SszError;
  keccak256 := fun b => b;
  recoverPublicKey := fun msgHash sig recovery =>
    Ok (byteOfZ (4 + recovery) :: sig)
|}.

(** A value for the decoder of [exampleExternals] that no example
    transaction encodes to. *)
Definition noSigned : SignedBlobTransaction :=
  {| message :=
       {| m_chainId := 0; m_nonce := 0; m_priorityFeePerGas := 0;
          m_maxFeePerGas := 0; m_gas := 0;
          m_to := {| selector := 0; to_value := None |};
          m_value := 0; m_data := []; m_accessList := [];
          m_blobVersionedHashes := []; m_maxFeePerDataGas := 0 |};
     signature := {| ssz_r := 0; ssz_s := 0; yParity := false |} |}.

(** A versioned hash of a KZG commitment: the version byte and 31 more. *)
Definition exampleHash (fill : byte) : Buffer := x01 :: repeat fill 31.

Definition exampleAddress : Buffer := repeat x11 20.

(** A blob transaction's data; [sig] is the signature triple or nothing. *)
Definition exampleTxData (gasLimit maxFee maxPriorityFee : Z)
    (hashes : list Buffer) (sig : option (Z * Z * Z)) : BlobEIP4844TxData :=
  {| td_chainId := Some 1;
     td_nonce := Some 7;
     td_gasLimit := Some gasLimit;
     td_to := Some exampleAddress;
     td_value := Some 1000;
     td_data := Some [x0a; x0b];
     td_accessList := Some [(exampleAddress, [repeat x22 32])];
     td_maxFeePerGas := Some maxFee;
     td_maxPriorityFeePerGas := Some maxPriorityFee;
     td_maxFeePerDataGas := 5;
     td_versionedHashes := hashes;
     td_v := option_map (fun t => fst (fst t)) sig;
     td_r := option_map (fun t => snd (fst t)) sig;
     td_s := option_map snd sig |}.

(** What [serialize] hands to the codec for a transaction built from
    [exampleTxData 21000 100 10 [exampleHash x0a] sig]. *)
Definition exampleSszValue (sig : option (Z * Z * Z)) : SignedBlobTransaction :=
  {| message :=
       {| m_chainId := 1; m_nonce := 7; m_priorityFeePerGas := 10;
          m_maxFeePerGas := 100; m_gas := 21000;
          m_to := {| selector := 1; to_value := Some exampleAddress |};
          m_value := 1000; m_data := [x0a; x0b];
          m_accessList :=
            [{| address := exampleAddress; storageKeys := [repeat x22 32] |}];
          m_blobVersionedHashes := [exampleHash x0a]; m_maxFeePerDataGas := 5 |};
     signature :=
       match sig with
       | Some (v, r, s) => {| ssz_r := r; ssz_s := s; yParity := (v =? 1) |}
       | None => {| ssz_r := 0; ssz_s := 0; yParity := false |}
       end |}.

(** ** The rest of [packages/util/src/signature.ts] *)

Module Signing.
Import Signature.

(** [ecsign], lines 32-40. [signSync] of ethereum-cryptography is a
    parameter: called with [recovered: true, der: false] it returns the
    signature bytes and the recovery bit, or throws. *)
Definition ecsign (signSync : Buffer -> Buffer -> Result (Buffer * Z))
    (msgHash privateKey : Buffer) (chainId : option Z) : Result ECDSASignature :=
  let* '(signature, rec) := signSync msgHash privateKey in
  let r := slice signature 0 32 in
  let s := slice signature 32 64 in
  let v :=
    match chainId with
    | None => rec + 27
    | Some chainId => (rec + 35) + chainId * 2
    end in
  let recovery := rec in
  Ok {| sig_v := v; sig_r := r; sig_s := s; sig_recovery := recovery |}.

(** The digits of [n.toString()], lowest first; [fuel] bounds their
    number. *)
Fixpoint decimalDigits (fuel n : nat) : list ascii :=
  match fuel with
  | O => []
  | S fuel' =>
      ascii_of_nat (48 + n mod 10)%nat
        :: (if (n <? 10)%nat then [] else decimalDigits fuel' (n / 10)%nat)
  end.

(** [`${n}`] for a length [n]: decimal, no leading zero. *)
Definition decimal (n : nat) : string :=
  string_of_list_ascii (rev (decimalDigits (S n) n)).

(** The bytes line 212 hashes: the prefix of line 211, which is the
    character U+0019, the words [Ethereum Signed Message:], a line feed and
    the length of the message in decimal, followed by the message. All
    characters of the prefix are ASCII, one byte each in UTF-8. *)
Definition personalMessage (message : Buffer) : Buffer :=
  let prefix :=
    list_byte_of_string
      (String (ascii_of_nat 25) "Ethereum Signed Message:"
       ++ String (ascii_of_nat 10) (decimal (length message)))%string in
  List.concat [prefix; message].

(** [hashPersonalMessage], lines 209-213; [assertIsBuffer] has nothing to
    refuse on a [Buffer]. *)
Definition hashPersonalMessage (keccak256 : Buffer -> Buffer) (message : Buffer)
    : Buffer :=
  keccak256 (personalMessage message).

End Signing.

(** ** The rest of [BlobEIP4844Transaction] *)

(** How a call ends where it may throw an error [Error] has no constructor
    for. *)
Inductive Outcome (X A : Type) : Type :=
| Returned (a : A)
| Raised (x : X).
Arguments Returned {X A} a.
Arguments Raised {X A} x.

Definition andThen {X A B : Type} (m : Outcome X A) (k : A -> Outcome X B)
    : Outcome X B :=
  match m with
  | Returned a => k a
  | Raised x => Raised x
  end.

Inductive WrapperError : Type :=
| NotAllEqual   (* 'Number of versionedHashes, blobs, and commitments not all equal' *)
| Inherited (e : Error).  (* thrown by the codec or by the constructor *)

Definition inherit {A : Type} (m : Result A) : Outcome WrapperError A :=
  match m with
  | Ok a => Returned a
  | Throw e => Raised (Inherited e)
  end.

(** The value [BlobNetworkTransactionWrapper.deserialize] returns, by the
    properties lines 156-187 read of it. *)
Record BlobNetworkTransactionWrapperValue : Type := {
  w_tx : SignedBlobTransaction;
  w_blobs : list (list Z);
  w_blobKzgs : list Buffer;
  w_kzgAggregatedProof : Buffer
}.

(** [validateBlobTransactionNetworkWrapper], lines 35-52. *)
Definition validateBlobTransactionNetworkWrapper (versionedHashes : list Buffer)
    (blobs : list (list Z)) (commitments : list Buffer) (_kzgProof : Buffer)
    : Outcome WrapperError unit :=
  if negb ((length versionedHashes =? length blobs)%nat
           && (length blobs =? length commitments)%nat)
  then Raised NotAllEqual
  else Returned tt.

Section BlobNetworkWrapper.
Context {E : Externals}.

(** The decoder of [BlobNetworkTransactionWrapper], an SSZ type of
    [./types]. *)
Variable BlobNetworkTransactionWrapper_deserialize :
  Buffer -> Result BlobNetworkTransactionWrapperValue.

(** [fromSerializedBlobTxNetworkWrapper], lines 150-191. The [txData] of
    lines 176-189 is that of [fromSerializedTx] with the keys [blobs],
    [kzgCommitments] and [kzgProof] added, which no constructor reads. *)
Definition fromSerializedBlobTxNetworkWrapper (serialized : Buffer)
    (opts : option (TxOptions Common))
    : Outcome WrapperError (BlobEIP4844Transaction Common) :=
  andThen (inherit (BlobNetworkTransactionWrapper_deserialize (skipn 1 serialized)))
    (fun wrapper =>
       let decodedTx := message (w_tx wrapper) in
       andThen (validateBlobTransactionNetworkWrapper
                  (m_blobVersionedHashes decodedTx) (w_blobs wrapper)
                  (w_blobKzgs wrapper) (w_kzgAggregatedProof wrapper))
         (fun _ =>
            inherit (let* txData := decodedTxData (w_tx wrapper) in
                     constructor txData (optionsOrDefault opts)))).

(** [getUpfrontCost], [raw], [toJSON] and [_processSignature],
    lines 225-231 and 308-313. *)
Definition getUpfrontCost (tx : BlobEIP4844Transaction Common) : Result Z :=
  Throw NotImplemented.

Definition raw (tx : BlobEIP4844Transaction Common) : Result (list Buffer) :=
  Throw NotImplemented.

Definition toJSON (tx : BlobEIP4844Transaction Common) : Result string :=
  Throw NotImplemented.

Definition _processSignature (tx : BlobEIP4844Transaction Common)
    (_v : Z) (_r _s : Buffer) : Result (BlobEIP4844Transaction Common) :=
  Throw NotImplemented.

End BlobNetworkWrapper.

(** *** Writing into what an instance holds

    [Object.freeze(this)] (line 136) freezes the instance and nothing
    else: the arrays and buffers its properties refer to stay writable.
    The array of versioned hashes is the caller's own (line 132 stores
    [txData.versionedHashes] as it is), so a [push] on the array the
    caller still holds is a [push] on [tx.versionedHashes]. *)

(** [buf[i] = x] on a buffer and [arr[i] = x] on an array within its
    length; on a buffer a write past the end is dropped. *)
Fixpoint writeAt {A : Type} (l : list A) (i : nat) (x : A) : list A :=
  match l, i with
  | [], _ => []
  | _ :: t, O => x :: t
  | h :: t, S i' => h :: writeAt t i' x
  end.

Section Mutations.
Context {E : Externals}.

Inductive InPlaceWrite : Type :=
| PushVersionedHash (hash : Buffer)             (* tx.versionedHashes.push(hash) *)
| PopVersionedHash                              (* tx.versionedHashes.pop() *)
| WriteVersionedHash (i j : nat) (b : byte)     (* tx.versionedHashes[i][j] = b *)
| WriteData (i : nat) (b : byte)                (* tx.data[i] = b *)
| PushAccessListItem (item : AccessListBufferItem).  (* tx.accessList.push(item) *)

(** None of these looks at whether the instance is frozen. Reading
    [tx.versionedHashes[i]] past the end gives [undefined], and the write
    into it is a TypeError. *)
Definition writeInPlace (w : InPlaceWrite) (tx : BlobEIP4844Transaction Common)
    : Result (BlobEIP4844Transaction Common) :=
  match w with
  | PushVersionedHash hash =>
      Ok (written (SetVersionedHashes (tx_versionedHashes tx ++ [hash])) tx)
  | PopVersionedHash =>
      Ok (written (SetVersionedHashes (removelast (tx_versionedHashes tx))) tx)
  | WriteVersionedHash i j b =>
      match nth_error (tx_versionedHashes tx) i with
      | Some hash =>
          Ok (written (SetVersionedHashes
                         (writeAt (tx_versionedHashes tx) i (writeAt hash j b))) tx)
      | None => Throw TypeError
      end
  | WriteData i b => Ok (written (SetData (writeAt (tx_data tx) i b)) tx)
  | PushAccessListItem item =>
      Ok (written (SetAccessList (tx_accessList tx ++ [item])) tx)
  end.

(** A statement that changes a transaction, or tries to. *)
Inductive Mutation : Type :=
| Assigning (a : Assignment)     (* tx.field = x *)
| InPlace (w : InPlaceWrite).

Definition mutate (m : Mutation) (tx : BlobEIP4844Transaction Common)
    : Result (BlobEIP4844Transaction Common) :=
  match m with
  | Assigning a => assign a tx
  | InPlace w => writeInPlace w tx
  end.

(** A caller that makes the statements one after the other and goes on
    when one throws: a statement that throws leaves the instance as it
    was. *)
Definition attempt (m : Mutation) (tx : BlobEIP4844Transaction Common)
    : BlobEIP4844Transaction Common :=
  match mutate m tx with
  | Ok tx' => tx'
  | Throw _ => tx
  end.

Definition attemptAll (ms : list Mutation) (tx : BlobEIP4844Transaction Common)
    : BlobEIP4844Transaction Common :=
  fold_left (fun tx m => attempt m tx) ms tx.

End Mutations.

(** ** [StatelessVerkleStateManager]

    The class that follows [BlobEIP4844Transaction] in
    [packages/tx/src/eip4844Transaction.ts], lines 372-601. A method is a
    function from the instance to the instance it leaves behind and the
    error its promise is rejected with, if any: what a method assigned
    before it threw stays assigned. The [console.log] lines are left
    out. *)

Module Verkle.

Inductive VerkleError : Type :=
| PedersenInputTooLong  (* 'Input buffer for perdersonHash calculation in verkle state manager too long.' *)
| NoCheckpointsSet      (* 'StatelessVerkleStateManager state cannot be reverted, no checkpoints set' *)
| OutOfRange            (* the RangeError of writeInt32LE *)
| ForeignError.         (* whatever the base class, the wasm module or toBuffer throws *)

(** An entry of [ints: Array<number | ArrayBufferLike>], line 425. *)
Inductive NumberOrBuffer : Type :=
| Number (n : Z)
| Bytes (b : Buffer).

(** [BALANCE_LEAF_KEY], line 360. *)
Definition BALANCE_LEAF_KEY : Z := 1.

(** [array.pop()]: the last element, if there is one, and what stays. *)
Definition pop {A : Type} (l : list A) : option A * list A :=
  match rev l with
  | [] => (None, [])
  | x :: r => (Some x, rev r)
  end.

(** The [len] low-order bytes of [v], little-endian. *)
Definition littleEndian (len : nat) (v : Z) : Buffer := rev (bigEndian len v).

(** [buf.writeInt32LE(value)] of Node: four bytes at offset 0, two's
    complement, and a RangeError outside of the 32-bit signed range. *)
Definition writeInt32LE (buf : Buffer) (value : Z) : Outcome VerkleError Buffer :=
  if (value <? - 2 ^ 31) || (2 ^ 31 - 1 <? value) then Raised OutOfRange
  else Returned (littleEndian 4 value ++ skipn 4 buf).

Section StatelessVerkleStateManager.

(** [VerkleState] is the type of the objects held as states; the class
    stores and compares none of their keys, and writes to none of them.
    [Base] is what [BaseStateManager] holds, [super_checkpoint],
    [super_commit] and [super_revert] its three methods; [setLengthRight]
    and [toBuffer] on a number come from [@ethereumjs/util] and
    [pedersen_hash] from the wasm module, none of them among the
    sources. *)
Variable VerkleState : Type.
Variable Base : Type.
Variables super_checkpoint super_commit super_revert : Base -> Base * option VerkleError.
Variable setLengthRight : Buffer -> nat -> Buffer.
Variable pedersen_hash : list NumberOrBuffer -> Outcome VerkleError Buffer.
Variable toBuffer_number : Z -> Outcome VerkleError Buffer.

(** The fields of lines 373-382 and the part of the base class. *)
Record Manager : Type := {
  _proof : string;
  _preState : VerkleState;
  _state : VerkleState;
  _checkpoints : list VerkleState;
  base : Base
}.

(** [initPreState], lines 406-412. *)
Definition initPreState (proof : string) (preState : VerkleState) (m : Manager)
    : Manager * option VerkleError :=
  ({| _proof := proof; _preState := preState; _state := preState;
      _checkpoints := _checkpoints m; base := base m |}, None).

(** The array [ints] of lines 421-432. *)
Definition pedersenInts (input : Buffer) : list NumberOrBuffer :=
  let extInput := setLengthRight input 4080 in
  Number (2 + 256 * Z.of_nat (length input))
    :: map (fun i => Bytes (slice extInput (16 * i) (16 * (i + 1)))) (seq 0 255).

(** [pedersenHash], lines 414-443; [arrToBufArr] leaves the bytes. *)
Definition pedersenHash (input : Buffer) : Outcome VerkleError Buffer :=
  if (4080 <? length input)%nat then Raised PedersenInputTooLong
  else pedersen_hash (pedersenInts input).

(** [getTreeKey], lines 445-458; [address] stands for
    [address.toBuffer()]. *)
Definition getTreeKey (address : Buffer) (treeIndex subIndex : Z)
    : Outcome VerkleError Buffer :=
  andThen (writeInt32LE (repeat x00 32) treeIndex) (fun treeIndexB =>
    let input := List.concat [address; treeIndexB] in
    andThen (pedersenHash input) (fun hashed =>
      andThen (toBuffer_number subIndex) (fun sub =>
        Returned (List.concat [slice hashed 0 31; sub])))).

(** [getTreeKeyForBalance], lines 460-462. *)
Definition getTreeKeyForBalance (address : Buffer) : Outcome VerkleError Buffer :=
  getTreeKey address 0 BALANCE_LEAF_KEY.

(** [checkpoint], lines 524-527. *)
Definition checkpoint (m : Manager) : Manager * option VerkleError :=
  let checkpoints := _checkpoints m ++ [_state m] in
  let '(b, e) := super_checkpoint (base m) in
  ({| _proof := _proof m; _preState := _preState m; _state := _state m;
      _checkpoints := checkpoints; base := b |}, e).

(** [commit], lines 533-536: what [pop] returns is dropped, and on an empty
    array it removes nothing. *)
Definition commit (m : Manager) : Manager * option VerkleError :=
  let '(_, checkpoints) := pop (_checkpoints m) in
  let '(b, e) := super_commit (base m) in
  ({| _proof := _proof m; _preState := _preState m; _state := _state m;
      _checkpoints := checkpoints; base := b |}, e).

(** [revert], lines 547-553. The test of line 548 holds exactly when
    [pop] finds nothing to return. *)
Definition revert (m : Manager) : Manager * option VerkleError :=
  match pop (_checkpoints m) with
  | (None, _) => (m, Some NoCheckpointsSet)
  | (Some state, checkpoints) =>
      let '(b, e) := super_revert (base m) in
      ({| _proof := _proof m; _preState := _preState m; _state := state;
          _checkpoints := checkpoints; base := b |}, e)
  end.

(** The methods that answer with a constant, lines 487-502 and 539-600. *)
Definition getContractCode (address : Buffer) : Buffer := [].
Definition getContractStorage (address key : Buffer) : Buffer := [].
Definition hasStateRoot (root : Buffer) : bool := true.
Definition getStateRoot : Buffer := [].
Definition hasGenesisState : bool := false.
Definition accountExists (address : Buffer) : bool := false.

(** A call of one of the methods that change the instance. *)
Inductive Call : Type :=
| CallInitPreState (proof : string) (preState : VerkleState)
| CallCheckpoint
| CallCommit
| CallRevert.

Definition call (c : Call) (m : Manager) : Manager * option VerkleError :=
  match c with
  | CallInitPreState proof preState => initPreState proof preState m
  | CallCheckpoint => checkpoint m
  | CallCommit => commit m
  | CallRevert => revert m
  end.

(** A caller that makes the calls one after the other and goes on when one
    is rejected. *)
Definition callAll (calls : list Call) (m : Manager) : Manager :=
  fold_left (fun m c => fst (call c m)) calls m.

End StatelessVerkleStateManager.

Arguments _proof {VerkleState Base}.
Arguments _preState {VerkleState Base}.
Arguments _state {VerkleState Base}.
Arguments _checkpoints {VerkleState Base}.
Arguments base {VerkleState Base}.
Arguments initPreState {VerkleState Base}.
Arguments checkpoint {VerkleState Base}.
Arguments commit {VerkleState Base}.
Arguments revert {VerkleState Base}.
Arguments CallInitPreState {VerkleState}.
Arguments CallCheckpoint {VerkleState}.
Arguments CallCommit {VerkleState}.
Arguments CallRevert {VerkleState}.
Arguments call {VerkleState Base}.
Arguments callAll {VerkleState Base}.

End Verkle.

(** ** More stand-ins to evaluate with

    A signer that answers with the padded hash and key and the recovery
    bit 1; a network wrapper around a signed transaction, with one blob,
    and a decoder that knows it; right-padding with zero bytes, a constant
    in place of the Pedersen hash, the bytes of a number, and a base class
    without state. *)

Definition exampleSignSync (msgHash privateKey : Buffer) : Result (Buffer * Z) :=
  Ok (setLengthLeft msgHash 32 ++ setLengthLeft privateKey 32, 1).

Definition exampleWrapper (tx : SignedBlobTransaction) (blobs : list (list Z))
    : BlobNetworkTransactionWrapperValue :=
  {| w_tx := tx;
     w_blobs := blobs;
     w_blobKzgs := [repeat x33 48];
     w_kzgAggregatedProof := repeat x44 48 |}.

Definition exampleWrapperLayout (w : BlobNetworkTransactionWrapperValue) : Buffer :=
  exampleLayout (w_tx w)
  ++ List.concat (map (map byteOfZ) (w_blobs w))
  ++ List.concat (w_blobKzgs w)
  ++ w_kzgAggregatedProof w.

Definition exampleWrapperDeserialize (known : BlobNetworkTransactionWrapperValue)
    (bytes : Buffer) : Result BlobNetworkTransactionWrapperValue :=
  if bufferEqb bytes (exampleWrapperLayout known) then Ok known else Throw SszError.

Definition examplePad (msg : Buffer) (len : nat) : Buffer :=
  firstn len msg ++ repeat x00 (len - length msg).

Definition examplePedersen (ints : list Verkle.NumberOrBuffer)
    : Outcome Verkle.VerkleError Buffer :=
  Returned (repeat x07 32).

Definition exampleToBuffer (n : Z) : Outcome Verkle.VerkleError Buffer :=
  match toBuffer_bigint n with
  | Ok b => Returned b
  | Throw _ => Raised Verkle.ForeignError
  end.

Definition exampleSuper (b : unit) : unit * option Verkle.VerkleError := (b, None).

(** * Properties *)

(** ** Bytes and buffers *)

Lemma byteToZ_range (b : byte) : 0 <= byteToZ b < 256.
Proof.
  unfold byteToZ. pose proof (Byte.to_N_bounded b). lia.
Qed.

Lemma byteOfZ_byteToZ (b : byte) : byteOfZ (byteToZ b) = b.
Proof.
  unfold byteOfZ. pose proof (byteToZ_range b) as Hr.
  rewrite Z.mod_small by exact Hr.
  unfold byteToZ. rewrite N2Z.id, Byte.of_to_N. reflexivity.
Qed.

Lemma byteToZ_byteOfZ (z : Z) : byteToZ (byteOfZ z) = z mod 256.
Proof.
  unfold byteOfZ, byteToZ.
  pose proof (Z.mod_pos_bound z 256 ltac:(lia)) as Hr.
  destruct (Byte.of_N (Z.to_N (z mod 256))) as [b|] eqn:Hb.
  - apply Byte.to_of_N in Hb. rewrite Hb. lia.
  - apply Byte.of_N_None_iff in Hb. lia.
Qed.

Lemma bufferToBigInt_fold (buf : Buffer) (acc : Z) :
  fold_left (fun a b => a * 256 + byteToZ b) buf acc
  = acc * 256 ^ Z.of_nat (length buf) + bufferToBigInt buf.
Proof.
  unfold bufferToBigInt. revert acc.
  induction buf as [|b t IH]; intro acc; cbn [fold_left length].
  - cbn. lia.
  - rewrite IH, (IH (0 * 256 + byteToZ b)).
    rewrite Nat2Z.inj_succ, Z.pow_succ_r by lia. ring.
Qed.

Lemma bufferToBigInt_cons (b : byte) (t : Buffer) :
  bufferToBigInt (b :: t) = byteToZ b * 256 ^ Z.of_nat (length t) + bufferToBigInt t.
Proof.
  unfold bufferToBigInt at 1. cbn [fold_left]. rewrite bufferToBigInt_fold. ring.
Qed.

Lemma bufferToBigInt_bounds (buf : Buffer) :
  0 <= bufferToBigInt buf < 256 ^ Z.of_nat (length buf).
Proof.
  induction buf as [|b t IH].
  - cbn. lia.
  - rewrite bufferToBigInt_cons. cbn [length].
    rewrite Nat2Z.inj_succ, Z.pow_succ_r by lia.
    pose proof (byteToZ_range b). nia.
Qed.

Lemma bigEndian_succ (n : nat) (v : Z) :
  bigEndian (S n) v = byteOfZ (Z.shiftr v (8 * Z.of_nat n)) :: bigEndian n v.
Proof.
  unfold bigEndian. cbn [seq map]. f_equal.
  - f_equal. f_equal. f_equal. lia.
  - rewrite <- seq_shift, map_map. apply map_ext_in.
    intros i Hi. apply in_seq in Hi. do 3 f_equal. lia.
Qed.

Lemma bigEndian_length (n : nat) (v : Z) : length (bigEndian n v) = n.
Proof. unfold bigEndian. now rewrite length_map, length_seq. Qed.

Lemma bufferToBigInt_bigEndian (n : nat) (v : Z) :
  bufferToBigInt (bigEndian n v) = v mod 256 ^ Z.of_nat n.
Proof.
  induction n as [|n IH].
  - cbn. now rewrite Z.mod_1_r.
  - rewrite bigEndian_succ, bufferToBigInt_cons, bigEndian_length, IH.
    rewrite byteToZ_byteOfZ, Z.shiftr_div_pow2 by lia.
    rewrite Nat2Z.inj_succ, Z.pow_succ_r by lia.
    replace (2 ^ (8 * Z.of_nat n)) with (256 ^ Z.of_nat n)
      by (rewrite Z.pow_mul_r by lia; reflexivity).
    assert (0 < 256 ^ Z.of_nat n) by (apply Z.pow_pos_nonneg; lia).
    rewrite (Z.mul_comm 256), Z.rem_mul_r by lia. ring.
Qed.

Lemma hexByteLength_bound (v : Z) :
  0 <= v -> v < 256 ^ Z.of_nat (hexByteLength v).
Proof.
  intro Hv. unfold hexByteLength.
  pose proof (Z.log2_nonneg v) as Hl.
  assert (0 <= Z.log2 v / 8) by (apply Z.div_pos; lia).
  rewrite Z2Nat.id by lia.
  replace (256 ^ (Z.log2 v / 8 + 1)) with (2 ^ (8 * (Z.log2 v / 8 + 1)))
    by (rewrite Z.pow_mul_r by lia; reflexivity).
  assert (Z.log2 v + 1 <= 8 * (Z.log2 v / 8 + 1)).
  { pose proof (Z.div_mod (Z.log2 v) 8 ltac:(lia)).
    pose proof (Z.mod_pos_bound (Z.log2 v) 8 ltac:(lia)). lia. }
  assert (v < 2 ^ (Z.log2 v + 1)).
  { destruct (Z.eq_dec v 0) as [->|]; [cbn; lia|].
    pose proof (Z.log2_spec v ltac:(lia)). unfold Z.succ in *. lia. }
  assert (2 ^ (Z.log2 v + 1) <= 2 ^ (8 * (Z.log2 v / 8 + 1)))
    by (apply Z.pow_le_mono_r; lia).
  lia.
Qed.

Lemma toBuffer_bigint_ok (v : Z) :
  0 <= v ->
  exists b, toBuffer_bigint v = Ok b /\ bufferToBigInt b = v /\ (1 <= length b)%nat.
Proof.
  intro Hv. unfold toBuffer_bigint.
  destruct (v <? 0) eqn:Hneg; [apply Z.ltb_lt in Hneg; lia|].
  eexists. split; [reflexivity|]. split.
  - rewrite bufferToBigInt_bigEndian. apply Z.mod_small.
    split; [lia | now apply hexByteLength_bound].
  - rewrite bigEndian_length. unfold hexByteLength.
    pose proof (Z.log2_nonneg v).
    assert (0 <= Z.log2 v / 8) by (apply Z.div_pos; lia). lia.
Qed.

Lemma toBigInt_some (z : Z) : 0 <= z -> toBigInt (Some z) = Ok z.
Proof.
  intro Hz. destruct (toBuffer_bigint_ok z Hz) as (b & Hb & Hv & _).
  unfold toBigInt. rewrite Hb. cbn. now rewrite Hv.
Qed.

Lemma toBigInt_inv (x : option Z) (z : Z) :
  toBigInt x = Ok z -> 0 <= z /\ (x = Some z \/ (x = None /\ z = 0)).
Proof.
  destruct x as [y|]; cbn.
  - unfold toBuffer_bigint. destruct (y <? 0) eqn:Hneg; [discriminate|].
    apply Z.ltb_ge in Hneg. cbn. intro H. injection H as <-.
    rewrite bufferToBigInt_bigEndian, Z.mod_small
      by (split; [lia | now apply hexByteLength_bound]).
    split; [lia | now left].
  - intro H. injection H as <-. split; [cbn; lia | now right].
Qed.

Lemma toOptionalBigInt_some (z : Z) : 0 <= z -> toOptionalBigInt (Some z) = Ok (Some z).
Proof.
  intro Hz. destruct (toBuffer_bigint_ok z Hz) as (b & Hb & Hv & Hl).
  unfold toOptionalBigInt. rewrite Hb. cbn [bind].
  destruct (0 <? length b)%nat eqn:Hlen.
  - now rewrite Hv.
  - apply Nat.ltb_ge in Hlen. lia.
Qed.

Lemma toOptionalBigInt_inv (x y : option Z) :
  toOptionalBigInt x = Ok y -> x = y /\ match y with Some z => 0 <= z | None => True end.
Proof.
  destruct x as [z|]; cbn [toOptionalBigInt].
  - destruct (Z.ltb_spec z 0) as [Hneg|Hpos].
    + unfold toBuffer_bigint. rewrite (proj2 (Z.ltb_lt z 0) Hneg). discriminate.
    + destruct (toBuffer_bigint_ok z Hpos) as (b & Hb & Hv & Hl).
      rewrite Hb. cbn [bind].
      destruct (0 <? length b)%nat eqn:Hlen; [|apply Nat.ltb_ge in Hlen; lia].
      intro H. injection H as <-. rewrite Hv. split; [reflexivity | lia].
  - intro H. injection H as <-. split; [reflexivity | exact I].
Qed.

Lemma bufferFromHex_hexOfBuffer_cons (b : byte) (rest : string) :
  bufferFromHex
    (String (hexDigit (Byte.to_N b / 16)) (String (hexDigit (Byte.to_N b mod 16)) rest))
  = b :: bufferFromHex rest.
Proof. destruct b; reflexivity. Qed.

Lemma isHexChar_hexDigit (b : byte) :
  isHexChar (hexDigit (Byte.to_N b / 16)) = true
  /\ isHexChar (hexDigit (Byte.to_N b mod 16)) = true.
Proof. destruct b; split; reflexivity. Qed.

Lemma bufferFromHex_hexOfBuffer (buf : Buffer) :
  bufferFromHex (hexOfBuffer buf) = buf.
Proof.
  induction buf as [|b t IH]; [reflexivity|].
  cbn [hexOfBuffer]. rewrite bufferFromHex_hexOfBuffer_cons. now rewrite IH.
Qed.

Lemma allHex_hexOfBuffer (buf : Buffer) : allHex (hexOfBuffer buf) = true.
Proof.
  induction buf as [|b t IH]; [reflexivity|].
  cbn [hexOfBuffer allHex].
  destruct (isHexChar_hexDigit b) as [-> ->]. exact IH.
Qed.

Lemma odd_length_hexOfBuffer (buf : Buffer) :
  Nat.odd (String.length (hexOfBuffer buf)) = false.
Proof.
  induction buf as [|b t IH]; [reflexivity|].
  cbn [hexOfBuffer String.length]. now rewrite Nat.odd_succ_succ.
Qed.

(** The RPC string of a buffer denotes that buffer. *)
Lemma toBuffer_bufferToHex (buf : Buffer) :
  toBuffer_string (bufferToHex buf) = Ok buf.
Proof.
  unfold toBuffer_string, bufferToHex.
  rewrite allHex_hexOfBuffer. unfold padToEven.
  now rewrite odd_length_hexOfBuffer, bufferFromHex_hexOfBuffer.
Qed.

Lemma setLengthLeft_exact (msg : Buffer) (len : nat) :
  length msg = len -> setLengthLeft msg len = msg.
Proof.
  intro H. unfold setLengthLeft. rewrite H, Nat.ltb_irrefl, Nat.sub_diag.
  reflexivity.
Qed.

Lemma setLengthLeft_length (msg : Buffer) (len : nat) :
  length (setLengthLeft msg len) = len.
Proof.
  unfold setLengthLeft. destruct (Nat.ltb_spec (length msg) len).
  - rewrite length_app, repeat_length. lia.
  - rewrite length_skipn. lia.
Qed.

Lemma slice_head (a rest : Buffer) :
  slice (a ++ rest) 0 (length a) = a.
Proof.
  unfold slice. cbn [skipn]. rewrite Nat.sub_0_r.
  rewrite firstn_app, Nat.sub_diag, firstn_all. cbn. now rewrite app_nil_r.
Qed.

Lemma slice_second (a b rest : Buffer) :
  slice (a ++ b ++ rest) (length a) (length a + length b) = b.
Proof.
  unfold slice. rewrite skipn_app, skipn_all, Nat.sub_diag. cbn [skipn app].
  replace (length a + length b - length a)%nat with (length b) by lia.
  rewrite firstn_app, Nat.sub_diag, firstn_all. cbn. now rewrite app_nil_r.
Qed.

Lemma skipn_two (a b rest : Buffer) :
  skipn (length a + length b) (a ++ b ++ rest) = rest.
Proof.
  rewrite skipn_app, skipn_all2 by lia.
  replace (length a + length b - length a)%nat with (length b) by lia.
  cbn [app]. rewrite skipn_app, skipn_all, Nat.sub_diag. reflexivity.
Qed.

(** ** The signature subsystem *)

Import Signature.

Example calculateSigRecovery_values :
  map calculateSigRecovery [0; 1; 2; 26; 27; 28; 29; 34; 35; 36; 37; 38]
  = [0; 1; 2; 26; 0; 1; 29; 34; 0; 1; 0; 1].
Proof. reflexivity. Qed.

Example toBuffer_bigint_values :
  toBuffer_bigint 0 = Ok [x00]
  /\ toBuffer_bigint 255 = Ok [xff]
  /\ toBuffer_bigint 256 = Ok [x01; x00]
  /\ toBuffer_bigint (-1) = Throw NegativeBigInt
  /\ bigIntToUnpaddedBuffer 0 = Ok [].
Proof. repeat split. Qed.

Example toBuffer_string_values :
  toBuffer_string "0xABc" = Ok [x0a; xbc]
  /\ toBuffer_string "0x" = Ok []
  /\ toBuffer_string "ABCD" = Throw NotHexString
  /\ toBuffer_string "0xzz" = Throw NotHexString.
Proof. repeat split. Qed.

Example toRpcSig_value :
  toRpcSig 27 (bigEndian 32 1) (bigEndian 32 2)
  = Ok ("0x0000000000000000000000000000000000000000000000000000000000000001"
        ++ "0000000000000000000000000000000000000000000000000000000000000002"
        ++ "1b")%string.
Proof. vm_compute. reflexivity. Qed.

Example toCompactSig_value :
  toCompactSig 28 (bigEndian 32 1) (bigEndian 32 2)
  = Ok ("0x0000000000000000000000000000000000000000000000000000000000000001"
        ++ "8000000000000000000000000000000000000000000000000000000000000002")%string.
Proof. vm_compute. reflexivity. Qed.

Lemma rem2_zero_iff_mod2_zero (x : Z) : (Z.rem x 2 =? 0) = (x mod 2 =? 0).
Proof.
  destruct (Z.eqb_spec (Z.rem x 2) 0) as [H|H];
    destruct (Z.eqb_spec (x mod 2) 0) as [H'|H']; try reflexivity.
  - apply Z.rem_mod_eq_0 in H; [contradiction | lia].
  - apply Z.rem_mod_eq_0 in H'; [contradiction | lia].
Qed.

(** The values [calculateSigRecovery] accepts as a recovery identifier are
    0, 1, 27, 28, every [v >= 35] and every negative [v]. *)
Lemma isValidSigRecovery_calculate (v : Z) :
  isValidSigRecovery (calculateSigRecovery v) = true
  <-> v < 0 \/ v = 0 \/ v = 1 \/ v = 27 \/ v = 28 \/ 35 <= v.
Proof.
  unfold isValidSigRecovery, calculateSigRecovery.
  destruct (Z.ltb_spec 28 v), (Z.ltb_spec v 35), (Z.ltb_spec v 27),
    (Z.ltb_spec 1 v), (Z.eqb_spec v 27), (Z.eqb_spec v 28),
    (Z.eqb_spec v 0), (Z.eqb_spec v 1);
    cbn [andb orb]; try lia;
    try (destruct (Z.rem (0 - 35 - v) 2 =? 0); cbn; split; intros; try lia; reflexivity);
    subst; cbn; split; intros; try lia; try reflexivity;
    repeat match goal with
           | |- context [?a =? ?b] => destruct (Z.eqb_spec a b)
           end; cbn in *; try lia; try discriminate.
Qed.

(** C1: [calculateSigRecovery] follows the stated precedence for every
    integer [v], unsigned ones among them: [v] itself when [28 < v < 35];
    else [v] itself when [1 < v < 27]; else [v - 27] when [v] is 27 or 28;
    else [v] itself when [v] is 0 or 1; otherwise 0 when
    [(0 - 35 - v) mod 2] is 0 and 1 when it is not. So 27 gives 0, 28 gives
    1, 37 gives 0 and 38 gives 1. *)
Theorem calculateSigRecovery_precedence (v : Z) :
  (28 < v < 35 -> calculateSigRecovery v = v)
  /\ (~ 28 < v < 35 -> 1 < v < 27 -> calculateSigRecovery v = v)
  /\ (~ 28 < v < 35 -> ~ 1 < v < 27 -> v = 27 \/ v = 28 ->
      calculateSigRecovery v = v - 27)
  /\ (~ 28 < v < 35 -> ~ 1 < v < 27 -> ~ (v = 27 \/ v = 28) -> v = 0 \/ v = 1 ->
      calculateSigRecovery v = v)
  /\ (~ 28 < v < 35 -> ~ 1 < v < 27 -> ~ (v = 27 \/ v = 28) -> ~ (v = 0 \/ v = 1) ->
      calculateSigRecovery v = if (0 - 35 - v) mod 2 =? 0 then 0 else 1)
  /\ calculateSigRecovery 27 = 0
  /\ calculateSigRecovery 28 = 1
  /\ calculateSigRecovery 37 = 0
  /\ calculateSigRecovery 38 = 1.
Proof.
  unfold calculateSigRecovery at 1 2 3 4 5.
  rewrite rem2_zero_iff_mod2_zero.
  repeat split; try reflexivity; intros;
    destruct (Z.ltb_spec 28 v), (Z.ltb_spec v 35), (Z.ltb_spec v 27),
      (Z.ltb_spec 1 v), (Z.eqb_spec v 27), (Z.eqb_spec v 28),
      (Z.eqb_spec v 0), (Z.eqb_spec v 1);
    cbn [andb orb]; try reflexivity; lia.
Qed.

Lemma calculateSigRecovery_precedence_witness :
  calculateSigRecovery 30 = 30
  /\ calculateSigRecovery 5 = 5
  /\ calculateSigRecovery 28 = 28 - 27
  /\ calculateSigRecovery 1 = 1
  /\ calculateSigRecovery 1000 = 1.
Proof.
  split; [| split; [| split; [| split]]].
  - apply (proj1 (calculateSigRecovery_precedence 30)). lia.
  - apply (proj1 (proj2 (calculateSigRecovery_precedence 5))); lia.
  - apply (proj1 (proj2 (proj2 (calculateSigRecovery_precedence 28)))); lia.
  - apply (proj1 (proj2 (proj2 (proj2 (calculateSigRecovery_precedence 1))))); lia.
  - apply (proj1 (proj2 (proj2 (proj2 (proj2 (calculateSigRecovery_precedence 1000)))))); lia.
Defined.

(** C2: [isValidSignature(v, r, s, homesteadOrLater)] is true exactly when
    [r] and [s] are 32 bytes long, [v] normalizes to 0 or 1, the integers
    of [r] and [s] are nonzero and below the curve order and, unless
    [homesteadOrLater] is [false], the integer of [s] is below half the
    curve order. With everything else valid and [s] at or above half the
    order it is false by default and with [true], and true with [false]. *)
Theorem isValidSignature_iff (v : Z) (r s : Buffer) (homesteadOrLater : option bool) :
  (isValidSignature v r s homesteadOrLater = true
   <-> length r = 32%nat /\ length s = 32%nat
       /\ (calculateSigRecovery v = 0 \/ calculateSigRecovery v = 1)
       /\ bufferToBigInt r <> 0 /\ bufferToBigInt r < SECP256K1_ORDER
       /\ bufferToBigInt s <> 0 /\ bufferToBigInt s < SECP256K1_ORDER
       /\ (homesteadOrLater <> Some false -> bufferToBigInt s < SECP256K1_ORDER_DIV_2))
  /\ (length r = 32%nat -> length s = 32%nat ->
      calculateSigRecovery v = 0 \/ calculateSigRecovery v = 1 ->
      bufferToBigInt r <> 0 -> bufferToBigInt r < SECP256K1_ORDER ->
      bufferToBigInt s < SECP256K1_ORDER ->
      SECP256K1_ORDER_DIV_2 <= bufferToBigInt s ->
      isValidSignature v r s None = false
      /\ isValidSignature v r s (Some true) = false
      /\ isValidSignature v r s (Some false) = true)
  /\ SECP256K1_ORDER_DIV_2 = SECP256K1_ORDER / 2.
Proof.
  assert (Hiff : forall h,
    isValidSignature v r s h = true
    <-> length r = 32%nat /\ length s = 32%nat
        /\ (calculateSigRecovery v = 0 \/ calculateSigRecovery v = 1)
        /\ bufferToBigInt r <> 0 /\ bufferToBigInt r < SECP256K1_ORDER
        /\ bufferToBigInt s <> 0 /\ bufferToBigInt s < SECP256K1_ORDER
        /\ (h <> Some false -> bufferToBigInt s < SECP256K1_ORDER_DIV_2)).
  { intro h. unfold isValidSignature, isValidSigRecovery.
    destruct (Nat.eqb_spec (length r) 32), (Nat.eqb_spec (length s) 32),
      (Z.eqb_spec (calculateSigRecovery v) 0),
      (Z.eqb_spec (calculateSigRecovery v) 1),
      (Z.eqb_spec (bufferToBigInt r) 0),
      (Z.leb_spec SECP256K1_ORDER (bufferToBigInt r)),
      (Z.eqb_spec (bufferToBigInt s) 0),
      (Z.leb_spec SECP256K1_ORDER (bufferToBigInt s)),
      (Z.leb_spec SECP256K1_ORDER_DIV_2 (bufferToBigInt s));
      cbn [negb orb andb];
      (split; [try discriminate | intros (? & ? & ? & ? & ? & ? & ? & Hs)]);
      try lia;
      destruct h as [[|]|]; cbn [andb];
      try discriminate; try reflexivity; intros;
      repeat split; try lia; try tauto; try congruence;
      try (assert (bufferToBigInt s < SECP256K1_ORDER_DIV_2)
             by (apply Hs; congruence); lia). }
  split; [apply Hiff|]. split; [|reflexivity].
  intros Hr Hs Hv Hr0 Hr1 Hs1 Hhigh.
  assert (Hpos : 0 < SECP256K1_ORDER_DIV_2) by reflexivity.
  repeat split.
  - destruct (isValidSignature v r s None) eqn:Hd; [|reflexivity].
    apply Hiff in Hd. destruct Hd as (_ & _ & _ & _ & _ & _ & _ & Hlow).
    assert (bufferToBigInt s < SECP256K1_ORDER_DIV_2) by (apply Hlow; discriminate).
    lia.
  - destruct (isValidSignature v r s (Some true)) eqn:Hd; [|reflexivity].
    apply Hiff in Hd. destruct Hd as (_ & _ & _ & _ & _ & _ & _ & Hlow).
    assert (bufferToBigInt s < SECP256K1_ORDER_DIV_2) by (apply Hlow; discriminate).
    lia.
  - apply Hiff. repeat split; try assumption; try lia. intro Hc. now elim Hc.
Qed.

Lemma isValidSignature_iff_witness :
  isValidSignature 27 (bigEndian 32 1) (bigEndian 32 SECP256K1_ORDER_DIV_2) None = false
  /\ isValidSignature 27 (bigEndian 32 1) (bigEndian 32 SECP256K1_ORDER_DIV_2) (Some true)
     = false
  /\ isValidSignature 27 (bigEndian 32 1) (bigEndian 32 SECP256K1_ORDER_DIV_2) (Some false)
     = true.
Proof.
  apply (proj1 (proj2 (isValidSignature_iff 27 (bigEndian 32 1)
                         (bigEndian 32 SECP256K1_ORDER_DIV_2) None))).
  - reflexivity.
  - reflexivity.
  - left. reflexivity.
  - vm_compute. discriminate.
  - vm_compute. reflexivity.
  - vm_compute. reflexivity.
  - vm_compute. discriminate.
Defined.

(** *** Decoding an RPC signature *)

Lemma bufferToInt_single (b : byte) : bufferToInt [b] = Ok (byteToZ b).
Proof.
  unfold bufferToInt. rewrite bufferToBigInt_cons.
  change (bufferToBigInt []) with 0. cbn [length Z.of_nat].
  rewrite Z.pow_0_r, Z.mul_1_r, Z.add_0_r.
  pose proof (byteToZ_range b) as Hb.
  destruct (Z.leb_spec (byteToZ b) (2 ^ 53 - 1)) as [_|Hbig]; [reflexivity|].
  change (2 ^ 53 - 1) with 9007199254740991 in Hbig. lia.
Qed.

Lemma parity_of_byte (b : byte) :
  Z.shiftr (byteToZ b) 7 = 0 \/ Z.shiftr (byteToZ b) 7 = 1.
Proof. destruct b; vm_compute; auto. Qed.

Lemma parity_clear (b : byte) :
  (byteToZ b <? 128) = true ->
  Z.shiftr (byteToZ b) 7 = 0 /\ byteOfZ (Z.land (byteToZ b) 0x7f) = b.
Proof. destruct b; intro H; try (split; reflexivity); vm_compute in H; discriminate H. Qed.

Lemma parity_set (b : byte) :
  (byteToZ b <? 128) = true ->
  Z.shiftr (byteToZ (byteOfZ (Z.lor (byteToZ b) 0x80))) 7 = 1
  /\ byteOfZ (Z.land (byteToZ (byteOfZ (Z.lor (byteToZ b) 0x80))) 0x7f) = b.
Proof. destruct b; intro H; try (split; reflexivity); vm_compute in H; discriminate H. Qed.

Lemma calculateSigRecovery_parity (n : Z) :
  n = 0 \/ n = 1 -> calculateSigRecovery n = n /\ (n <? 27) = true.
Proof. intros [-> | ->]; split; reflexivity. Qed.

(** An input that is no hex string is refused before its length is
    looked at. *)
Lemma fromRpcSig_not_hex (sig : string) (e : Error) :
  toBuffer_string sig = Throw e -> fromRpcSig sig = Throw e.
Proof. intro H. unfold fromRpcSig. now rewrite H. Qed.

Lemma fromRpcSig_short (sig : string) (buf : Buffer) :
  toBuffer_string sig = Ok buf -> (length buf < 64)%nat ->
  fromRpcSig sig = Throw InvalidSignatureLength.
Proof.
  intros Hsig Hlen. unfold fromRpcSig. rewrite Hsig. cbn [bind].
  destruct (Nat.leb_spec 65 (length buf)); [lia|].
  destruct (Nat.eqb_spec (length buf) 64); [lia|]. reflexivity.
Qed.

Lemma fromRpcSig_legacy (sig : string) (buf : Buffer) :
  toBuffer_string sig = Ok buf -> (65 <= length buf)%nat ->
  fromRpcSig sig =
    Ok {| sig_v := (let v := bufferToBigInt (skipn 64 buf) in
                    if v <? 27 then v + 27 else v);
          sig_r := slice buf 0 32;
          sig_s := slice buf 32 64;
          sig_recovery := calculateSigRecovery (bufferToBigInt (skipn 64 buf)) |}.
Proof.
  intros Hsig Hlen. unfold fromRpcSig. rewrite Hsig. cbn [bind].
  destruct (Nat.leb_spec 65 (length buf)); [|lia]. reflexivity.
Qed.

Lemma fromRpcSig_compact (sig : string) (buf : Buffer) :
  toBuffer_string sig = Ok buf -> length buf = 64%nat ->
  exists parity,
    (parity = 0 \/ parity = 1)
    /\ Z.shiftr (bufferToBigInt (slice buf 32 33)) 7 = parity
    /\ fromRpcSig sig =
         Ok {| sig_v := parity + 27;
               sig_r := slice buf 0 32;
               sig_s := andFirst 0x7f (slice buf 32 64);
               sig_recovery := parity |}.
Proof.
  intros Hsig Hlen. unfold fromRpcSig. rewrite Hsig. cbn [bind].
  destruct (Nat.leb_spec 65 (length buf)); [lia|].
  destruct (Nat.eqb_spec (length buf) 64); [|lia].
  assert (Hone : exists b, slice buf 32 33 = [b]).
  { unfold slice. change (33 - 32)%nat with 1%nat.
    destruct (skipn 32 buf) as [|b t] eqn:Hs.
    - assert (length (skipn 32 buf) = 32%nat) by (rewrite length_skipn; lia).
      rewrite Hs in *. cbn in *. lia.
    - exists b. reflexivity. }
  destruct Hone as (b & Hb). rewrite Hb, bufferToInt_single. cbn [bind].
  exists (Z.shiftr (byteToZ b) 7). split; [apply parity_of_byte|]. split.
  - rewrite bufferToBigInt_cons. change (bufferToBigInt []) with 0.
    cbn [length Z.of_nat]. now rewrite Z.pow_0_r, Z.mul_1_r, Z.add_0_r.
  - destruct (calculateSigRecovery_parity _ (parity_of_byte b)) as [-> ->].
    reflexivity.
Qed.

(** What the two encoders write. *)
Lemma toRpcSig_valid (v : Z) (r s : Buffer) :
  0 <= v -> isValidSigRecovery (calculateSigRecovery v) = true ->
  exists vBuf,
    toBuffer_bigint v = Ok vBuf /\ bufferToBigInt vBuf = v /\ (1 <= length vBuf)%nat
    /\ toRpcSig v r s
       = Ok (bufferToHex (setLengthLeft r 32 ++ setLengthLeft s 32 ++ vBuf)).
Proof.
  intros Hv Hvalid. destruct (toBuffer_bigint_ok v Hv) as (vBuf & Hb & Hval & Hlen).
  exists vBuf. repeat split; try assumption.
  unfold toRpcSig. rewrite Hvalid, Hb. cbn [negb bind List.concat].
  now rewrite app_nil_r.
Qed.

Lemma toCompactSig_valid (v : Z) (r s : Buffer) :
  isValidSigRecovery (calculateSigRecovery v) = true ->
  toCompactSig v r s
  = Ok (bufferToHex
          (setLengthLeft r 32
           ++ setLengthLeft
                (if ((28 <? v) && (Z.rem v 2 =? 1)) || (v =? 1) || (v =? 28)
                 then orFirst 0x80 s else s) 32)).
Proof.
  intro Hvalid. unfold toCompactSig. rewrite Hvalid. cbn [negb List.concat].
  now rewrite app_nil_r.
Qed.

Lemma orFirst_length (m : Z) (buf : Buffer) : length (orFirst m buf) = length buf.
Proof. destruct buf; reflexivity. Qed.

Lemma slice_byte_of_second (a b : Buffer) (x : byte) (t : Buffer) :
  b = x :: t -> slice (a ++ b) (length a) (length a + 1) = [x].
Proof.
  intros ->. unfold slice.
  rewrite skipn_app, skipn_all, Nat.sub_diag. cbn [skipn app].
  replace (length a + 1 - length a)%nat with 1%nat by lia. reflexivity.
Qed.

(** What the two round trips return on a canonical signature. *)
Lemma compact_and_legacy_decodings (v : Z) (r s : Buffer) :
  0 <= v ->
  isValidSigRecovery (calculateSigRecovery v) = true ->
  length r = 32%nat -> length s = 32%nat ->
  byteToZ (hd x00 s) < 128 ->
  (let* sig := toCompactSig v r s in fromRpcSig sig)
  = Ok {| sig_v := compactParity v + 27; sig_r := r; sig_s := s;
          sig_recovery := compactParity v |}
  /\ (let* sig := toRpcSig v r s in fromRpcSig sig)
     = Ok {| sig_v := (if v <? 27 then v + 27 else v); sig_r := r; sig_s := s;
             sig_recovery := calculateSigRecovery v |}.
Proof.
  intros Hv Hvalid Hr Hs Htop.
  (* the legacy path *)
  destruct (toRpcSig_valid v r s Hv Hvalid) as (vBuf & _ & Hval & Hlen & Hrpc).
  rewrite !setLengthLeft_exact in Hrpc by assumption.
  assert (Hlegacy := fromRpcSig_legacy _ _ (toBuffer_bufferToHex (r ++ s ++ vBuf))).
  rewrite !length_app, Hr, Hs in Hlegacy. specialize (Hlegacy ltac:(lia)).
  pose proof (slice_head r (s ++ vBuf)) as Hsr. rewrite Hr in Hsr.
  pose proof (slice_second r s vBuf) as Hss. rewrite Hr, Hs in Hss.
  pose proof (skipn_two r s vBuf) as Hsv. rewrite Hr, Hs in Hsv.
  cbn [Nat.add] in Hss, Hsv. rewrite Hsr, Hss, Hsv, Hval in Hlegacy.
  cbv zeta in Hlegacy.
  (* the compact path *)
  pose proof (toCompactSig_valid v r s Hvalid) as Hcompact.
  unfold compactParity.
  set (flag := ((28 <? v) && (Z.rem v 2 =? 1)) || (v =? 1) || (v =? 28)) in *.
  set (ss := if flag then orFirst 0x80 s else s) in *.
  assert (Hssl : length ss = 32%nat)
    by (subst ss; destruct flag; [rewrite orFirst_length|]; assumption).
  rewrite !setLengthLeft_exact in Hcompact by assumption.
  destruct (fromRpcSig_compact _ _ (toBuffer_bufferToHex (r ++ ss)))
    as (parity & _ & Hparity & Hdec).
  { rewrite length_app. lia. }
  pose proof (slice_head r ss) as Hcr. rewrite Hr in Hcr.
  pose proof (slice_second r ss []) as Hcs.
  rewrite Hr, Hssl, app_nil_r in Hcs. cbn [Nat.add] in Hcs.
  rewrite Hcr, Hcs in Hdec.
  destruct s as [|b t]; [discriminate Hs|]. cbn [hd] in Htop.
  assert (Hclear : (byteToZ b <? 128) = true) by (apply Z.ltb_lt; exact Htop).
  assert (Hbyte : exists x, ss = x :: t
                    /\ Z.shiftr (byteToZ x) 7 = (if flag then 1 else 0)
                    /\ byteOfZ (Z.land (byteToZ x) 0x7f) = b).
  { subst ss. destruct flag; cbn [orFirst].
    - eexists. split; [reflexivity|]. apply parity_set, Hclear.
    - eexists. split; [reflexivity|]. apply parity_clear, Hclear. }
  destruct Hbyte as (x & Hx & Hshift & Hland).
  pose proof (slice_byte_of_second r ss x t Hx) as Hone.
  rewrite Hr in Hone. cbn [Nat.add] in Hone.
  rewrite Hone, bufferToBigInt_cons in Hparity.
  change (bufferToBigInt []) with 0 in Hparity. cbn [length Z.of_nat] in Hparity.
  rewrite Z.pow_0_r, Z.mul_1_r, Z.add_0_r, Hshift in Hparity.
  rewrite Hcompact, Hrpc. cbn [bind]. split; [|exact Hlegacy].
  rewrite Hx in Hdec |- *. cbn [andFirst] in Hdec. rewrite Hland in Hdec.
  rewrite <- Hparity in Hdec. exact Hdec.
Qed.

(** On an EIP-155 [v] the parity [toCompactSig] folds into [s] is the
    opposite of the recovery identifier [calculateSigRecovery] gives. *)
Lemma compactParity_eip155 (v : Z) :
  35 <= v -> compactParity v = 1 - calculateSigRecovery v.
Proof.
  intro Hv. unfold compactParity, calculateSigRecovery.
  destruct (Z.ltb_spec 28 v); [|lia]. destruct (Z.ltb_spec v 35); [lia|].
  destruct (Z.ltb_spec v 27); [lia|].
  destruct (Z.eqb_spec v 27); [lia|]. destruct (Z.eqb_spec v 28); [lia|].
  destruct (Z.eqb_spec v 0); [lia|]. destruct (Z.eqb_spec v 1); [lia|].
  cbn [andb orb].
  assert (Hrem : Z.rem (0 - 35 - v) 2 = - Z.rem (v + 35) 2)
    by (replace (0 - 35 - v) with (- (v + 35)) by lia; apply Z.rem_opp_l; lia).
  rewrite Hrem, !Z.rem_mod_nonneg by lia.
  replace ((v + 35) mod 2) with ((v + 1) mod 2)
    by (replace (v + 35) with (v + 1 + 17 * 2) by lia; now rewrite Z.mod_add by lia).
  pose proof (Z.mod_pos_bound v 2 ltac:(lia)) as Hb.
  assert (Hcases : v mod 2 = 0 \/ v mod 2 = 1) by lia.
  rewrite Z.add_mod by lia.
  destruct Hcases as [-> | ->]; reflexivity.
Qed.

(** C3, as the code has it: for every [v >= 0] that normalizes to 0 or 1
    and all 32-byte [r] and [s] with the top bit of [s] clear, decoding the
    compact encoding and decoding the legacy RPC encoding both succeed and
    give back [r] and [s]; for [v] among 0, 1, 27 and 28 they also give the
    same recovery identifier, that of [v]. *)
Theorem compact_and_legacy_decodings_agree (v : Z) (r s : Buffer) :
  0 <= v ->
  isValidSigRecovery (calculateSigRecovery v) = true ->
  length r = 32%nat -> length s = 32%nat ->
  byteToZ (hd x00 s) < 128 ->
  exists c l,
    (let* sig := toCompactSig v r s in fromRpcSig sig) = Ok c
    /\ (let* sig := toRpcSig v r s in fromRpcSig sig) = Ok l
    /\ sig_r c = r /\ sig_r l = r
    /\ sig_s c = s /\ sig_s l = s
    /\ (v = 0 \/ v = 1 \/ v = 27 \/ v = 28 ->
        sig_recovery c = sig_recovery l
        /\ sig_recovery l = calculateSigRecovery v).
Proof.
  intros Hv Hvalid Hr Hs Htop.
  destruct (compact_and_legacy_decodings v r s Hv Hvalid Hr Hs Htop)
    as (Hcompact & Hlegacy).
  eexists. eexists.
  split; [exact Hcompact|]. split; [exact Hlegacy|].
  cbn [sig_r sig_s sig_recovery]. do 4 (split; [reflexivity|]).
  intros [-> | [-> | [-> | ->]]]; split; reflexivity.
Qed.

Lemma compact_and_legacy_decodings_agree_witness :
  exists c l,
    (let* sig := toCompactSig 28 (repeat x11 32) (repeat x22 32) in fromRpcSig sig) = Ok c
    /\ (let* sig := toRpcSig 28 (repeat x11 32) (repeat x22 32) in fromRpcSig sig) = Ok l
    /\ sig_r c = repeat x11 32 /\ sig_r l = repeat x11 32
    /\ sig_s c = repeat x22 32 /\ sig_s l = repeat x22 32
    /\ (28 = 0 \/ 28 = 1 \/ 28 = 27 \/ 28 = 28 ->
        sig_recovery c = sig_recovery l
        /\ sig_recovery l = calculateSigRecovery 28).
Proof.
  apply (compact_and_legacy_decodings_agree 28 (repeat x11 32) (repeat x22 32)).
  - lia.
  - reflexivity.
  - reflexivity.
  - reflexivity.
  - vm_compute. reflexivity.
Defined.

(** C3 as stated fails: with [v = 27] and a 32-byte [s] whose top bit is
    set, the compact decoding returns [s] with that bit cleared and the
    recovery identifier 1, the legacy decoding [s] itself and 0. *)
Lemma compact_and_legacy_differ_on_high_s :
  isValidSigRecovery (calculateSigRecovery 27) = true
  /\ length (x80 :: repeat x00 31) = 32%nat
  /\ (let* sig := toCompactSig 27 (repeat x00 32) (x80 :: repeat x00 31) in
      fromRpcSig sig)
     = Ok {| sig_v := 28; sig_r := repeat x00 32;
             sig_s := x00 :: repeat x00 31; sig_recovery := 1 |}
  /\ (let* sig := toRpcSig 27 (repeat x00 32) (x80 :: repeat x00 31) in
      fromRpcSig sig)
     = Ok {| sig_v := 27; sig_r := repeat x00 32;
             sig_s := x80 :: repeat x00 31; sig_recovery := 0 |}.
Proof. repeat split; vm_compute; reflexivity. Qed.

(** Beside it: on an EIP-155 [v] the parity [toCompactSig] folds into [s]
    is the opposite of what [calculateSigRecovery] gives for that [v]. *)
Lemma compact_parity_of_eip155_v :
  calculateSigRecovery 37 = 0
  /\ (let* sig := toCompactSig 37 (repeat x00 32) (repeat x00 32) in
      fromRpcSig sig)
     = Ok {| sig_v := 28; sig_r := repeat x00 32;
             sig_s := repeat x00 32; sig_recovery := 1 |}
  /\ (let* sig := toRpcSig 37 (repeat x00 32) (repeat x00 32) in
      fromRpcSig sig)
     = Ok {| sig_v := 37; sig_r := repeat x00 32;
             sig_s := repeat x00 32; sig_recovery := 0 |}.
Proof. repeat split; vm_compute; reflexivity. Qed.

(** C4, as the code has it: on the bytes [buf] its argument denotes,
    [fromRpcSig] fails with the length error exactly when [buf] has fewer
    than 64 bytes. 64 bytes are read as the compact layout; 65 bytes or
    more as the legacy layout, [v] being the integer of all the bytes from
    the 65th on. *)
Theorem fromRpcSig_accepted_lengths (sig : string) (buf : Buffer) :
  toBuffer_string sig = Ok buf ->
  ((length buf < 64)%nat <-> failsWith (fromRpcSig sig) InvalidSignatureLengthError)
  /\ ((length buf < 64)%nat -> fromRpcSig sig = Throw InvalidSignatureLength)
  /\ (length buf = 64%nat ->
      exists parity,
        (parity = 0 \/ parity = 1)
        /\ Z.shiftr (bufferToBigInt (slice buf 32 33)) 7 = parity
        /\ fromRpcSig sig =
             Ok {| sig_v := parity + 27;
                   sig_r := slice buf 0 32;
                   sig_s := andFirst 0x7f (slice buf 32 64);
                   sig_recovery := parity |})
  /\ ((65 <= length buf)%nat ->
      fromRpcSig sig =
        Ok {| sig_v := (let v := bufferToBigInt (skipn 64 buf) in
                        if v <? 27 then v + 27 else v);
              sig_r := slice buf 0 32;
              sig_s := slice buf 32 64;
              sig_recovery := calculateSigRecovery (bufferToBigInt (skipn 64 buf)) |}).
Proof.
  intro Hsig. split; [|split; [|split]].
  - split.
    + intro Hlen. exists InvalidSignatureLength.
      split; [now apply (fromRpcSig_short sig buf) | reflexivity].
    + intros (e & Hthrow & _).
      destruct (Nat.lt_ge_cases (length buf) 64) as [Hlt|Hge]; [exact Hlt|].
      destruct (Nat.eq_dec (length buf) 64) as [Heq|Hne].
      * destruct (fromRpcSig_compact sig buf Hsig Heq) as (p & _ & _ & Hok).
        rewrite Hok in Hthrow. discriminate.
      * rewrite (fromRpcSig_legacy sig buf Hsig) in Hthrow by lia. discriminate.
  - now apply fromRpcSig_short.
  - now apply fromRpcSig_compact.
  - now apply fromRpcSig_legacy.
Qed.

Lemma fromRpcSig_accepted_lengths_witness :
  fromRpcSig (bufferToHex (repeat x00 63)) = Throw InvalidSignatureLength.
Proof.
  apply (proj1 (proj2 (fromRpcSig_accepted_lengths
                         (bufferToHex (repeat x00 63)) (repeat x00 63)
                         (toBuffer_bufferToHex (repeat x00 63))))).
  vm_compute. reflexivity.
Defined.

(** C4 as stated fails: an input of 66 bytes is not refused; its last two
    bytes are read as [v = 256]. *)
Lemma fromRpcSig_accepts_66_bytes :
  toBuffer_string (bufferToHex (repeat x00 64 ++ [x01; x00]))
  = Ok (repeat x00 64 ++ [x01; x00])
  /\ length (repeat x00 64 ++ [x01; x00]) = 66%nat
  /\ fromRpcSig (bufferToHex (repeat x00 64 ++ [x01; x00]))
     = Ok {| sig_v := 256; sig_r := repeat x00 32;
             sig_s := repeat x00 32; sig_recovery := 1 |}.
Proof. repeat split; vm_compute; reflexivity. Qed.

(** What the operations do with a [v] that normalizes to neither 0 nor 1,
    which is every [v] from 2 to 26 and from 29 to 34 and no other:
    [ecrecover], [toRpcSig] and [toCompactSig] fail with the invalid
    signature error and [isValidSignature] answers [false]; [fromRpcSig]
    makes no such check, a legacy input whose trailing bytes are that [v]
    is decoded, and [calculateSigRecovery v] is returned as its recovery
    field. *)
Theorem invalid_recovery_rejected (v : Z) :
  (isValidSigRecovery (calculateSigRecovery v) = false
   <-> 2 <= v <= 26 \/ 29 <= v <= 34)
  /\ (isValidSigRecovery (calculateSigRecovery v) = false ->
      (forall recover msgHash r s,
          ecrecover recover msgHash v r s = Throw InvalidSignatureV)
      /\ (forall r s, toRpcSig v r s = Throw InvalidSignatureV)
      /\ (forall r s, toCompactSig v r s = Throw InvalidSignatureV)
      /\ (forall r s homesteadOrLater,
             isValidSignature v r s homesteadOrLater = false)
      /\ kindOf InvalidSignatureV = InvalidSignatureError)
  /\ (forall sig buf,
         toBuffer_string sig = Ok buf -> (65 <= length buf)%nat ->
         bufferToBigInt (skipn 64 buf) = v ->
         exists e, fromRpcSig sig = Ok e
                   /\ sig_recovery e = calculateSigRecovery v).
Proof.
  split; [|split].
  - pose proof (isValidSigRecovery_calculate v) as Hiff.
    destruct (isValidSigRecovery (calculateSigRecovery v)).
    + split; [discriminate|]. intro Hband.
      assert (true = true) as Ht by reflexivity. apply Hiff in Ht. lia.
    + split; [|reflexivity]. intros _.
      destruct (Z.lt_ge_cases v 0); [exfalso; apply Bool.diff_false_true, Hiff; lia|].
      destruct (Z.eq_dec v 0); [exfalso; apply Bool.diff_false_true, Hiff; lia|].
      destruct (Z.eq_dec v 1); [exfalso; apply Bool.diff_false_true, Hiff; lia|].
      destruct (Z.eq_dec v 27); [exfalso; apply Bool.diff_false_true, Hiff; lia|].
      destruct (Z.eq_dec v 28); [exfalso; apply Bool.diff_false_true, Hiff; lia|].
      destruct (Z.lt_ge_cases v 35); [lia|].
      exfalso; apply Bool.diff_false_true, Hiff; lia.
  - intro Hinvalid. repeat split; intros.
    + unfold ecrecover. now rewrite Hinvalid.
    + unfold toRpcSig. now rewrite Hinvalid.
    + unfold toCompactSig. now rewrite Hinvalid.
    + unfold isValidSignature. rewrite Hinvalid. cbn [negb].
      now destruct (negb (length r =? 32)%nat || negb (length s =? 32)%nat).
  - intros sig buf Hsig Hlen Hv.
    rewrite (fromRpcSig_legacy sig buf Hsig Hlen), Hv.
    eexists. split; reflexivity.
Qed.

Lemma invalid_recovery_rejected_witness :
  (forall recover msgHash r s, ecrecover recover msgHash 2 r s = Throw InvalidSignatureV)
  /\ (forall r s, toRpcSig 2 r s = Throw InvalidSignatureV)
  /\ (forall r s, toCompactSig 2 r s = Throw InvalidSignatureV)
  /\ (forall r s homesteadOrLater, isValidSignature 2 r s homesteadOrLater = false)
  /\ kindOf InvalidSignatureV = InvalidSignatureError.
Proof.
  apply (proj1 (proj2 (invalid_recovery_rejected 2))).
  reflexivity.
Defined.

(** C5: the code at the input it fails on. [fromRpcSig] decodes the 65
    bytes that end in 2 and hands out 2 as the recovery identifier, where
    the claim has it fail; the field [recovery] is documented as either 0
    or 1 (lines 20-23), and the three other operations refuse this [v]
    and the [v] that [fromRpcSig] returns for it. *)
Lemma fromRpcSig_keeps_invalid_recovery :
  isValidSigRecovery (calculateSigRecovery 2) = false
  /\ fromRpcSig (bufferToHex (repeat x00 64 ++ [x02]))
     = Ok {| sig_v := 29; sig_r := repeat x00 32;
             sig_s := repeat x00 32; sig_recovery := 2 |}
  /\ toRpcSig 2 (repeat x00 32) (repeat x00 32) = Throw InvalidSignatureV
  /\ toCompactSig 2 (repeat x00 32) (repeat x00 32) = Throw InvalidSignatureV
  /\ toRpcSig 29 (repeat x00 32) (repeat x00 32) = Throw InvalidSignatureV
  /\ toCompactSig 29 (repeat x00 32) (repeat x00 32) = Throw InvalidSignatureV
  /\ kindOf InvalidSignatureV = InvalidSignatureError.
Proof.
  split; [vm_compute; reflexivity|]. split; [vm_compute; reflexivity|].
  split; [vm_compute; reflexivity|]. split; [vm_compute; reflexivity|].
  split; [vm_compute; reflexivity|]. split; [vm_compute; reflexivity | reflexivity].
Qed.

(** ** The blob transaction *)

Lemma bind_ok_inv {A B : Type} (m : Result A) (k : A -> Result B) (b : B) :
  bind m k = Ok b -> exists a, m = Ok a /\ k a = Ok b.
Proof. destruct m as [a|e]; cbn; [eauto | discriminate]. Qed.

Lemma bind_throw {A B : Type} (m : Result A) (k : A -> Result B) (e : Error) :
  m = Throw e -> bind m k = Throw e.
Proof. now intros ->. Qed.

Lemma isOk_false_iff {A : Type} (m : Result A) :
  isOk m = false <-> exists e, m = Throw e.
Proof.
  destruct m; cbn; split; try discriminate; eauto.
  intros (e' & H). discriminate.
Qed.

Lemma validateCannotExceedMaxInteger_ok (values : list (option Z)) :
  _validateCannotExceedMaxInteger values = Ok tt
  <-> Forall (fun x => match x with Some z => z <= MAX_INTEGER | None => True end) values.
Proof.
  induction values as [|[z|] rest IH]; cbn [_validateCannotExceedMaxInteger].
  - split; [constructor | reflexivity].
  - destruct (Z.gtb_spec z MAX_INTEGER).
    + split; [discriminate|]. intro H'. inversion H'; subst. lia.
    + rewrite IH. split; [constructor; [lia | assumption]|].
      intro H'. now inversion H'.
  - rewrite IH. split; [now constructor|]. intro H'. now inversion H'.
Qed.

Ltac fields :=
  cbn [b_nonce b_gasLimit b_to b_value b_data b_v b_r b_s
       p_base p_common p_accessList p_maxFeePerGas p_maxPriorityFeePerGas
       tx_nonce tx_gasLimit tx_to tx_value tx_data tx_v tx_r tx_s tx_common
       tx_chainId tx_accessList tx_maxPriorityFeePerGas tx_maxFeePerGas
       tx_maxFeePerDataGas tx_versionedHashes tx_activeCapabilities tx_frozen
       td_chainId td_nonce td_gasLimit td_to td_value td_data td_accessList
       td_maxFeePerGas td_maxPriorityFeePerGas td_maxFeePerDataGas
       td_versionedHashes td_v td_r td_s
       message signature ssz_r ssz_s yParity selector to_value
       m_chainId m_nonce m_priorityFeePerGas m_maxFeePerGas m_gas m_to m_value
       m_data m_accessList m_blobVersionedHashes m_maxFeePerDataGas
       address storageKeys opt_common opt_freeze] in *.

Section BlobTransactionFacts.
Context {E : Externals}.

(** What a successful construction went through. *)
Lemma constructor_inv (txData : BlobEIP4844TxData) (opts : TxOptions Common)
    (tx : BlobEIP4844Transaction Common) :
  constructor txData opts = Ok tx ->
  exists p,
    parseFields txData opts = Ok p
    /\ checkFees p = Ok tt
    /\ checkSignatureAndInitCode p = Ok tt
    /\ checkVersionedHashes (td_versionedHashes txData) = Ok tt
    /\ tx = {| tx_nonce := b_nonce (p_base p);
               tx_gasLimit := b_gasLimit (p_base p);
               tx_to := b_to (p_base p);
               tx_value := b_value (p_base p);
               tx_data := b_data (p_base p);
               tx_v := b_v (p_base p);
               tx_r := b_r (p_base p);
               tx_s := b_s (p_base p);
               tx_common := p_common p;
               tx_chainId := Common_chainId (p_common p);
               tx_accessList := p_accessList p;
               tx_maxPriorityFeePerGas := p_maxPriorityFeePerGas p;
               tx_maxFeePerGas := p_maxFeePerGas p;
               tx_maxFeePerDataGas := td_maxFeePerDataGas txData;
               tx_versionedHashes := td_versionedHashes txData;
               tx_activeCapabilities := [1559; 2718; 2930; 4844];
               tx_frozen := match opt_freeze opts with Some b => b | None => true end |}.
Proof.
  unfold constructor. intro H.
  apply bind_ok_inv in H. destruct H as (p & Hp & H).
  apply bind_ok_inv in H. destruct H as ([] & Hfees & H).
  apply bind_ok_inv in H. destruct H as ([] & Hsig & H).
  apply bind_ok_inv in H. destruct H as ([] & Hhashes & H).
  injection H as <-. exists p. repeat split; assumption.
Qed.

Lemma constructor_run (txData : BlobEIP4844TxData) (opts : TxOptions Common)
    (p : Parsed Common) :
  parseFields txData opts = Ok p ->
  constructor txData opts =
    (let* _ := checkFees p in
     let* _ := checkSignatureAndInitCode p in
     let* _ := checkVersionedHashes (td_versionedHashes txData) in
     Ok {| tx_nonce := b_nonce (p_base p);
           tx_gasLimit := b_gasLimit (p_base p);
           tx_to := b_to (p_base p);
           tx_value := b_value (p_base p);
           tx_data := b_data (p_base p);
           tx_v := b_v (p_base p);
           tx_r := b_r (p_base p);
           tx_s := b_s (p_base p);
           tx_common := p_common p;
           tx_chainId := Common_chainId (p_common p);
           tx_accessList := p_accessList p;
           tx_maxPriorityFeePerGas := p_maxPriorityFeePerGas p;
           tx_maxFeePerGas := p_maxFeePerGas p;
           tx_maxFeePerDataGas := td_maxFeePerDataGas txData;
           tx_versionedHashes := td_versionedHashes txData;
           tx_activeCapabilities := [1559; 2718; 2930; 4844];
           tx_frozen := match opt_freeze opts with Some b => b | None => true end |}).
Proof. intro Hp. unfold constructor. now rewrite Hp. Qed.

(** The fields the fee checks compare are the caller's, read as bigints. *)
Lemma parseFields_inv (txData : BlobEIP4844TxData) (opts : TxOptions Common)
    (p : Parsed Common) :
  parseFields txData opts = Ok p ->
  BaseTransaction_constructor txData = Ok (p_base p)
  /\ _getCommon (opt_common opts) (td_chainId txData) = Ok (p_common p)
  /\ isActivatedEIP (p_common p) 1559 = true
  /\ p_accessList p = match td_accessList txData with Some l => l | None => [] end
  /\ verifyAccessList (p_accessList p) = Ok tt
  /\ toBigInt (td_maxFeePerGas txData) = Ok (p_maxFeePerGas p)
  /\ toBigInt (td_maxPriorityFeePerGas txData) = Ok (p_maxPriorityFeePerGas p)
  /\ p_maxFeePerGas p <= MAX_INTEGER
  /\ p_maxPriorityFeePerGas p <= MAX_INTEGER.
Proof.
  unfold parseFields. intro H.
  apply bind_ok_inv in H. destruct H as (base & Hbase & H).
  apply bind_ok_inv in H. destruct H as (common & Hcommon & H).
  destruct (isActivatedEIP common 1559) eqn:H1559; cbn [negb] in H; [|discriminate].
  apply bind_ok_inv in H. destruct H as ([] & Hal & H).
  apply bind_ok_inv in H. destruct H as (fee & Hfee & H).
  apply bind_ok_inv in H. destruct H as (prio & Hprio & H).
  apply bind_ok_inv in H. destruct H as ([] & Hmax & H).
  injection H as <-. fields.
  apply validateCannotExceedMaxInteger_ok in Hmax.
  inversion Hmax as [|? ? Hm1 Hrest]; subst.
  inversion Hrest as [|? ? Hm2 _]; subst.
  repeat split; assumption.
Qed.

Lemma BaseTransaction_constructor_inv (txData : BlobEIP4844TxData) (b : BaseFields) :
  BaseTransaction_constructor txData = Ok b ->
  toBigInt (td_nonce txData) = Ok (b_nonce b)
  /\ toBigInt (td_gasLimit txData) = Ok (b_gasLimit b)
  /\ toBigInt (td_value txData) = Ok (b_value b)
  /\ b_data b = match td_data txData with Some d => d | None => [] end
  /\ b_v b = td_v txData /\ b_r b = td_r txData /\ b_s b = td_s txData
  /\ match b_to b with
     | Some a => td_to txData = Some a /\ length a = 20%nat
     | None => td_to txData = None \/ td_to txData = Some []
     end
  /\ 0 <= b_nonce b <= MAX_INTEGER
  /\ 0 <= b_gasLimit b <= MAX_INTEGER
  /\ 0 <= b_value b <= MAX_INTEGER
  /\ match b_v b with Some z => 0 <= z | None => True end
  /\ match b_r b with Some z => 0 <= z <= MAX_INTEGER | None => True end
  /\ match b_s b with Some z => 0 <= z <= MAX_INTEGER | None => True end.
Proof.
  unfold BaseTransaction_constructor. intro H.
  apply bind_ok_inv in H. destruct H as (v & Hv & H).
  apply bind_ok_inv in H. destruct H as (r & Hr & H).
  apply bind_ok_inv in H. destruct H as (s & Hs & H).
  apply bind_ok_inv in H. destruct H as (nonce & Hnonce & H).
  apply bind_ok_inv in H. destruct H as (gasLimit & Hgas & H).
  apply bind_ok_inv in H. destruct H as (to & Hto & H).
  apply bind_ok_inv in H. destruct H as (value & Hvalue & H).
  apply bind_ok_inv in H. destruct H as ([] & Hmax & H).
  injection H as <-. fields.
  apply validateCannotExceedMaxInteger_ok in Hmax.
  inversion Hmax as [|? ? Hm1 Hm]; subst. inversion Hm as [|? ? Hm2 Hm']; subst.
  inversion Hm' as [|? ? Hm3 Hm'']; subst. inversion Hm'' as [|? ? Hm4 Hm''']; subst.
  inversion Hm''' as [|? ? Hm5 _]; subst.
  destruct (toOptionalBigInt_inv _ _ Hv) as [Hv1 Hv2].
  destruct (toOptionalBigInt_inv _ _ Hr) as [Hr1 Hr2].
  destruct (toOptionalBigInt_inv _ _ Hs) as [Hs1 Hs2].
  destruct (toBigInt_inv _ _ Hnonce) as [Hn0 _].
  destruct (toBigInt_inv _ _ Hgas) as [Hg0 _].
  destruct (toBigInt_inv _ _ Hvalue) as [Hval0 _].
  repeat split; try assumption; try congruence; try lia.
  - destruct (td_to txData) as [a|] eqn:Ha.
    + destruct (Nat.ltb_spec 0 (length a)) as [Hpos|Hzero].
      * destruct (Nat.eqb_spec (length a) 20); [|discriminate].
        injection Hto as <-. now split.
      * injection Hto as <-. right. destruct a; [reflexivity | cbn in Hzero; lia].
    + cbn in Hto. injection Hto as <-. now left.
  - destruct r; [lia | exact I].
  - destruct s; [lia | exact I].
Qed.

End BlobTransactionFacts.

Section BlobTransactionChecks.
Context {E : Externals}.

Lemma constructor_parse_throw (txData : BlobEIP4844TxData) (opts : TxOptions Common)
    (e : Error) :
  parseFields txData opts = Throw e -> constructor txData opts = Throw e.
Proof. intro H. unfold constructor. now rewrite H. Qed.

Lemma constructor_fees_throw (txData : BlobEIP4844TxData) (opts : TxOptions Common)
    (p : Parsed Common) (e : Error) :
  parseFields txData opts = Ok p -> checkFees p = Throw e ->
  constructor txData opts = Throw e.
Proof. intros Hp Hf. rewrite (constructor_run _ _ _ Hp), Hf. reflexivity. Qed.

Lemma checkFees_bound (p : Parsed Common) :
  b_gasLimit (p_base p) * p_maxFeePerGas p > MAX_INTEGER ->
  checkFees p = Throw GasLimitTimesFeeExceedsMax.
Proof.
  intro H. unfold checkFees.
  destruct (Z.gtb_spec (b_gasLimit (p_base p) * p_maxFeePerGas p) MAX_INTEGER);
    [reflexivity | lia].
Qed.

Lemma checkFees_order (p : Parsed Common) :
  b_gasLimit (p_base p) * p_maxFeePerGas p <= MAX_INTEGER ->
  p_maxFeePerGas p < p_maxPriorityFeePerGas p ->
  checkFees p = Throw MaxFeeLessThanPriorityFee.
Proof.
  intros Hb Ho. unfold checkFees.
  destruct (Z.gtb_spec (b_gasLimit (p_base p) * p_maxFeePerGas p) MAX_INTEGER); [lia|].
  destruct (Z.ltb_spec (p_maxFeePerGas p) (p_maxPriorityFeePerGas p)); [reflexivity | lia].
Qed.

Lemma checkFees_ok (p : Parsed Common) :
  checkFees p = Ok tt
  <-> b_gasLimit (p_base p) * p_maxFeePerGas p <= MAX_INTEGER
      /\ p_maxPriorityFeePerGas p <= p_maxFeePerGas p.
Proof.
  unfold checkFees.
  destruct (Z.gtb_spec (b_gasLimit (p_base p) * p_maxFeePerGas p) MAX_INTEGER);
    [split; [discriminate | lia]|].
  destruct (Z.ltb_spec (p_maxFeePerGas p) (p_maxPriorityFeePerGas p));
    [split; [discriminate | lia]|].
  split; [lia | reflexivity].
Qed.

(** C7, as the code has it: once the fields are read and the checks of
    lines 66-94 have passed, a product [gasLimit * maxFeePerGas] above
    [2^256 - 1] makes the constructor fail with the bounds error, and, the
    product being within the bound, [maxFeePerGas < maxPriorityFeePerGas]
    makes it fail with the fee-ordering error; the bound is checked first.
    Whatever else holds of the data, a constructor given
    [maxFeePerGas < maxPriorityFeePerGas], or [gasLimit * maxFeePerGas]
    above the bound, throws and returns no transaction: every transaction
    it returns has its product within the bound and its fee at or above
    its priority fee. *)
Theorem constructor_fee_checks (txData : BlobEIP4844TxData) (opts : TxOptions Common) :
  (forall p, parseFields txData opts = Ok p ->
     toBigInt (td_gasLimit txData) = Ok (b_gasLimit (p_base p))
     /\ toBigInt (td_maxFeePerGas txData) = Ok (p_maxFeePerGas p)
     /\ toBigInt (td_maxPriorityFeePerGas txData) = Ok (p_maxPriorityFeePerGas p)
     /\ (b_gasLimit (p_base p) * p_maxFeePerGas p > MAX_INTEGER ->
         constructor txData opts = Throw GasLimitTimesFeeExceedsMax)
     /\ (b_gasLimit (p_base p) * p_maxFeePerGas p <= MAX_INTEGER ->
         p_maxFeePerGas p < p_maxPriorityFeePerGas p ->
         constructor txData opts = Throw MaxFeeLessThanPriorityFee))
  /\ kindOf GasLimitTimesFeeExceedsMax = FieldBoundsError
  /\ kindOf MaxFeeLessThanPriorityFee = FeeOrderingError
  /\ MAX_INTEGER = 2 ^ 256 - 1
  /\ (forall tx,
         constructor txData opts = Ok tx ->
         tx_gasLimit tx * tx_maxFeePerGas tx <= MAX_INTEGER
         /\ tx_maxPriorityFeePerGas tx <= tx_maxFeePerGas tx)
  /\ (forall fee prio,
         td_maxFeePerGas txData = Some fee ->
         td_maxPriorityFeePerGas txData = Some prio ->
         fee < prio ->
         isOk (constructor txData opts) = false)
  /\ (forall gasLimit fee,
         td_gasLimit txData = Some gasLimit ->
         td_maxFeePerGas txData = Some fee ->
         gasLimit * fee > MAX_INTEGER ->
         isOk (constructor txData opts) = false).
Proof.
  assert (Hread : forall p, parseFields txData opts = Ok p ->
            toBigInt (td_gasLimit txData) = Ok (b_gasLimit (p_base p))
            /\ toBigInt (td_maxFeePerGas txData) = Ok (p_maxFeePerGas p)
            /\ toBigInt (td_maxPriorityFeePerGas txData) = Ok (p_maxPriorityFeePerGas p)).
  { intros p Hp.
    destruct (parseFields_inv _ _ _ Hp) as (Hbase & _ & _ & _ & _ & Hfee & Hprio & _).
    destruct (BaseTransaction_constructor_inv _ _ Hbase) as (_ & Hgas & _).
    auto. }
  assert (Hfail : forall p, parseFields txData opts = Ok p ->
            b_gasLimit (p_base p) * p_maxFeePerGas p > MAX_INTEGER
            \/ p_maxFeePerGas p < p_maxPriorityFeePerGas p ->
            isOk (constructor txData opts) = false).
  { intros p Hp Hbad.
    destruct (Z_le_gt_dec (b_gasLimit (p_base p) * p_maxFeePerGas p) MAX_INTEGER)
      as [Hle|Hgt].
    - destruct Hbad as [Hbad|Hbad]; [lia|].
      now rewrite (constructor_fees_throw _ _ _ _ Hp (checkFees_order p Hle Hbad)).
    - now rewrite (constructor_fees_throw _ _ _ _ Hp (checkFees_bound p Hgt)). }
  split; [|split; [reflexivity | split; [reflexivity | split;
                     [reflexivity | split; [|split]]]]].
  - intros p Hp. destruct (Hread p Hp) as (Hg & Hf & Hq).
    repeat split; try assumption.
    + intro Hgt. exact (constructor_fees_throw _ _ _ _ Hp (checkFees_bound p Hgt)).
    + intros Hle Hlt. exact (constructor_fees_throw _ _ _ _ Hp (checkFees_order p Hle Hlt)).
  - intros tx Htx.
    destruct (constructor_inv _ _ _ Htx) as (p & _ & Hfees & _ & _ & ->).
    apply checkFees_ok in Hfees. fields. exact Hfees.
  - intros fee prio Hfee Hprio Hlt.
    destruct (parseFields txData opts) as [p|e] eqn:Hp;
      [|now rewrite (constructor_parse_throw _ _ _ Hp)].
    destruct (Hread p eq_refl) as (_ & Hf & Hq).
    rewrite Hfee in Hf. rewrite Hprio in Hq.
    apply toBigInt_inv in Hf. apply toBigInt_inv in Hq.
    destruct Hf as (_ & [Hf | [Hf _]]); [|discriminate].
    destruct Hq as (_ & [Hq | [Hq _]]); [|discriminate].
    injection Hf as Hf. injection Hq as Hq.
    apply (Hfail p eq_refl). right. lia.
  - intros gasLimit fee Hgas Hfee Hgt.
    destruct (parseFields txData opts) as [p|e] eqn:Hp;
      [|now rewrite (constructor_parse_throw _ _ _ Hp)].
    destruct (Hread p eq_refl) as (Hg & Hf & _).
    rewrite Hgas in Hg. rewrite Hfee in Hf.
    apply toBigInt_inv in Hg. apply toBigInt_inv in Hf.
    destruct Hg as (_ & [Hg | [Hg _]]); [|discriminate].
    destruct Hf as (_ & [Hf | [Hf _]]); [|discriminate].
    injection Hg as Hg. injection Hf as Hf.
    apply (Hfail p eq_refl). left. subst. exact Hgt.
Qed.

End BlobTransactionChecks.

Lemma constructor_fee_checks_witness :
  isOk (constructor (E := exampleExternals noSigned)
          (exampleTxData 21000 10 100 [] None) noOptions) = false.
Proof.
  apply (proj1 (proj2 (proj2 (proj2 (proj2 (proj2
           (constructor_fee_checks (E := exampleExternals noSigned)
              (exampleTxData 21000 10 100 [] None) noOptions))))))
         10 100).
  - reflexivity.
  - reflexivity.
  - lia.
Defined.

(** C7 as stated fails: with [gasLimit = 2], [maxFeePerGas = 2^255] and
    [maxPriorityFeePerGas = 2^255 + 1] the fee is below the priority fee,
    and the constructor fails with the bounds error, not the fee-ordering
    one. *)
Lemma constructor_bound_before_fee_order :
  2 ^ 255 < 2 ^ 255 + 1
  /\ constructor (E := exampleExternals noSigned)
       (exampleTxData 2 (2 ^ 255) (2 ^ 255 + 1) [] None) noOptions
     = Throw GasLimitTimesFeeExceedsMax
  /\ kindOf GasLimitTimesFeeExceedsMax = FieldBoundsError.
Proof. repeat split; vm_compute; reflexivity. Qed.

Section VersionedHashes.
Context {E : Externals}.

(** The two tests of the loop body pass exactly on a well-formed hash. *)
Lemma hash_tests_spec (hash : Buffer) :
  (negb (length hash =? 32)%nat = false
   /\ negb (match hash with
            | b :: _ => byteToZ b =? BLOB_COMMITMENT_VERSION_KZG
            | [] => false
            end) = false)
  <-> isVersionedHash hash.
Proof.
  unfold isVersionedHash.
  destruct (Nat.eqb_spec (length hash) 32) as [Hl|Hl]; cbn [negb].
  - destruct hash as [|b t]; [discriminate Hl|]. cbn [hd_error option_map].
    destruct (Z.eqb_spec (byteToZ b) BLOB_COMMITMENT_VERSION_KZG) as [Hb|Hb]; cbn [negb].
    + split; intros _; repeat split; try assumption. now rewrite Hb.
    + split; [intros [_ H]; discriminate|]. intros [_ H]. congruence.
  - split; [intros [H _]; discriminate|]. intros [H _]. contradiction.
Qed.

Lemma checkEachVersionedHash_ok (hashes : list Buffer) :
  checkEachVersionedHash hashes = Ok tt <-> Forall isVersionedHash hashes.
Proof.
  induction hashes as [|h rest IH]; cbn [checkEachVersionedHash].
  - split; [constructor | reflexivity].
  - pose proof (hash_tests_spec h) as Hh.
    destruct (negb (length h =? 32)%nat).
    + split; [discriminate|]. intro H. inversion H as [|? ? Hgood _]; subst.
      apply Hh in Hgood. destruct Hgood; discriminate.
    + destruct (negb (match h with
                      | b :: _ => byteToZ b =? BLOB_COMMITMENT_VERSION_KZG
                      | [] => false
                      end)).
      * split; [discriminate|]. intro H. inversion H as [|? ? Hgood _]; subst.
        apply Hh in Hgood. destruct Hgood; discriminate.
      * rewrite IH. split.
        -- intro H. constructor; [apply Hh; now split | exact H].
        -- intro H. now inversion H.
Qed.

Lemma checkEachVersionedHash_throws (hashes : list Buffer) (e : Error) :
  checkEachVersionedHash hashes = Throw e ->
  e = VersionedHashLength \/ e = VersionedHashVersion.
Proof.
  induction hashes as [|h rest IH]; cbn [checkEachVersionedHash]; [discriminate|].
  destruct (negb (length h =? 32)%nat); [intro H; injection H as <-; now left|].
  destruct (negb (match h with
                  | b :: _ => byteToZ b =? BLOB_COMMITMENT_VERSION_KZG
                  | [] => false
                  end)); [intro H; injection H as <-; now right|].
  exact IH.
Qed.

Lemma checkVersionedHashes_bad (hashes : list Buffer) :
  Exists (fun h => ~ isVersionedHash h) hashes ->
  failsWith (checkVersionedHashes hashes) VersionedHashFormatError.
Proof.
  intro Hbad. unfold checkVersionedHashes.
  destruct (checkEachVersionedHash hashes) as [[]|e] eqn:Hloop.
  - apply checkEachVersionedHash_ok in Hloop.
    apply Exists_exists in Hbad. destruct Hbad as (h & Hin & Hh).
    rewrite Forall_forall in Hloop. elim Hh. now apply Hloop.
  - exists e. split; [reflexivity|].
    destruct (checkEachVersionedHash_throws _ _ Hloop) as [-> | ->]; reflexivity.
Qed.

Lemma checkVersionedHashes_many (hashes : list Buffer) :
  Forall isVersionedHash hashes ->
  Z.of_nat (length hashes) > LIMIT_BLOBS_PER_TX ->
  checkVersionedHashes hashes = Throw TooManyBlobs.
Proof.
  intros Hgood Hmany. unfold checkVersionedHashes.
  rewrite (proj2 (checkEachVersionedHash_ok hashes) Hgood). cbn [bind].
  destruct (Z.gtb_spec (Z.of_nat (length hashes)) LIMIT_BLOBS_PER_TX);
    [reflexivity | lia].
Qed.

Lemma checkVersionedHashes_ok (hashes : list Buffer) :
  checkVersionedHashes hashes = Ok tt
  <-> Forall isVersionedHash hashes /\ Z.of_nat (length hashes) <= LIMIT_BLOBS_PER_TX.
Proof.
  unfold checkVersionedHashes.
  destruct (checkEachVersionedHash hashes) as [[]|e] eqn:Hloop; cbn [bind].
  - apply checkEachVersionedHash_ok in Hloop.
    destruct (Z.gtb_spec (Z.of_nat (length hashes)) LIMIT_BLOBS_PER_TX).
    + split; [discriminate | lia].
    + split; [intros _; split; [assumption | lia] | reflexivity].
  - split; [discriminate|]. intros [Hgood _].
    apply checkEachVersionedHash_ok in Hgood. congruence.
Qed.

(** C8: once the checks of lines 66-115 have passed, the constructor
    fails with the versioned-hash format error when some
    supplied hash is not 32 bytes long or does not begin with the version
    byte; when all hashes are well formed it fails with the blob-count
    error if they are more than the limit, and otherwise returns a
    transaction that holds the hashes as supplied. A transaction is never
    returned for a malformed hash or for more hashes than the limit. *)
Theorem constructor_versioned_hashes (txData : BlobEIP4844TxData)
    (opts : TxOptions Common) :
  (forall p,
      parseFields txData opts = Ok p ->
      checkFees p = Ok tt ->
      checkSignatureAndInitCode p = Ok tt ->
      (Exists (fun h => ~ isVersionedHash h) (td_versionedHashes txData) ->
       failsWith (constructor txData opts) VersionedHashFormatError)
      /\ (Forall isVersionedHash (td_versionedHashes txData) ->
          Z.of_nat (length (td_versionedHashes txData)) > LIMIT_BLOBS_PER_TX ->
          constructor txData opts = Throw TooManyBlobs)
      /\ (Forall isVersionedHash (td_versionedHashes txData) ->
          Z.of_nat (length (td_versionedHashes txData)) <= LIMIT_BLOBS_PER_TX ->
          exists tx, constructor txData opts = Ok tx
                     /\ tx_versionedHashes tx = td_versionedHashes txData))
  /\ kindOf TooManyBlobs = BlobCountExceededError
  /\ (forall tx,
         constructor txData opts = Ok tx ->
         tx_versionedHashes tx = td_versionedHashes txData
         /\ Forall isVersionedHash (td_versionedHashes txData)
         /\ Z.of_nat (length (td_versionedHashes txData)) <= LIMIT_BLOBS_PER_TX)
  /\ (Exists (fun h => ~ isVersionedHash h) (td_versionedHashes txData)
      \/ Z.of_nat (length (td_versionedHashes txData)) > LIMIT_BLOBS_PER_TX ->
      isOk (constructor txData opts) = false).
Proof.
  assert (Hkept : forall tx,
            constructor txData opts = Ok tx ->
            tx_versionedHashes tx = td_versionedHashes txData
            /\ Forall isVersionedHash (td_versionedHashes txData)
            /\ Z.of_nat (length (td_versionedHashes txData)) <= LIMIT_BLOBS_PER_TX).
  { intros tx Htx. destruct (constructor_inv _ _ _ Htx) as (p & _ & _ & _ & Hh & ->).
    apply checkVersionedHashes_ok in Hh. fields. now split. }
  split; [|split; [reflexivity | split; [exact Hkept|]]].
  - intros p Hp Hfees Hsig.
    rewrite (constructor_run _ _ _ Hp), Hfees, Hsig. cbn [bind].
    split; [|split].
    + intro Hbad. destruct (checkVersionedHashes_bad _ Hbad) as (e & He & Hk).
      exists e. rewrite He. now split.
    + intros Hgood Hmany. now rewrite (checkVersionedHashes_many _ Hgood Hmany).
    + intros Hgood Hfew.
      rewrite (proj2 (checkVersionedHashes_ok _) (conj Hgood Hfew)). cbn [bind].
      eexists. split; reflexivity.
  - intro Hbad. destruct (constructor txData opts) as [tx|e] eqn:Htx; [|reflexivity].
    destruct (Hkept tx eq_refl) as (_ & Hgood & Hfew).
    destruct Hbad as [Hbad|Hmany]; [|lia].
    apply Exists_exists in Hbad. destruct Hbad as (h & Hin & Hh).
    rewrite Forall_forall in Hgood. elim Hh. now apply Hgood.
Qed.

End VersionedHashes.

Lemma constructor_versioned_hashes_witness :
  exists tx,
    constructor (E := exampleExternals noSigned)
      (exampleTxData 21000 100 10 [exampleHash x0a; exampleHash x0b] None) noOptions
    = Ok tx
    /\ tx_versionedHashes tx = [exampleHash x0a; exampleHash x0b].
Proof.
  destruct (parseFields (E := exampleExternals noSigned)
              (exampleTxData 21000 100 10 [exampleHash x0a; exampleHash x0b] None)
              noOptions) as [p|e] eqn:Hp; [|vm_compute in Hp; discriminate Hp].
  apply (proj2 (proj2 (proj1
           (constructor_versioned_hashes (E := exampleExternals noSigned)
              (exampleTxData 21000 100 10 [exampleHash x0a; exampleHash x0b] None)
              noOptions) p Hp
           ltac:(vm_compute in Hp; injection Hp as <-; vm_compute; reflexivity)
           ltac:(vm_compute in Hp; injection Hp as <-; vm_compute; reflexivity)))).
  - constructor; [split; reflexivity|]. constructor; [split; reflexivity|]. constructor.
  - vm_compute. discriminate.
Defined.

(** The order of the checks: of three hashes, more than the limit of two,
    one does not begin with the version byte, and the constructor fails
    with the format error, the first of the two; and a malformed hash in a
    transaction whose fee is below its priority fee is never looked at. *)
Lemma constructor_format_before_count :
  constructor (E := exampleExternals noSigned)
    (exampleTxData 21000 100 10
       [exampleHash x0a; x02 :: repeat x00 31; exampleHash x0b] None) noOptions
  = Throw VersionedHashVersion
  /\ kindOf VersionedHashVersion = VersionedHashFormatError
  /\ Z.of_nat (length [exampleHash x0a; x02 :: repeat x00 31; exampleHash x0b])
     > LIMIT_BLOBS_PER_TX (Externals := exampleExternals noSigned)
  /\ constructor (E := exampleExternals noSigned)
       (exampleTxData 21000 10 100 [x02 :: repeat x00 31] None) noOptions
     = Throw MaxFeeLessThanPriorityFee.
Proof.
  split; [vm_compute; reflexivity|].
  split; [reflexivity|].
  split; [vm_compute; reflexivity|].
  vm_compute; reflexivity.
Qed.

Section Freezing.
Context {E : Externals}.

(** On a frozen instance a run of property assignments changes nothing:
    each one throws. *)
Lemma attemptAll_assignments_frozen (tx : BlobEIP4844Transaction Common)
    (assignments : list Assignment) :
  tx_frozen tx = true -> attemptAll (map Assigning assignments) tx = tx.
Proof.
  intro Hfrozen. induction assignments as [|a rest IH]; [reflexivity|].
  cbn [map]. unfold attemptAll in *. cbn [fold_left].
  unfold attempt at 2. cbn [mutate]. unfold assign. rewrite Hfrozen. exact IH.
Qed.

(** C10, as the code has it: the constructor freezes the instance unless
    the [freeze] option is [false], signed or not. On an instance built
    without the option, or with [freeze: true], every assignment to a
    property throws, and after any run of attempted assignments the
    instance, its serialization and its hash are what they were; on one
    built with [freeze: false] every assignment goes through. *)
Theorem constructor_freezes (txData : BlobEIP4844TxData) (opts : TxOptions Common)
    (tx : BlobEIP4844Transaction Common) :
  constructor txData opts = Ok tx ->
  tx_frozen tx = match opt_freeze opts with Some b => b | None => true end
  /\ (opt_freeze opts <> Some false ->
      (forall a, assign a tx = Throw TypeError)
      /\ (forall a, mutate (Assigning a) tx = Throw TypeError)
      /\ (forall assignments,
             attemptAll (map Assigning assignments) tx = tx
             /\ serialize (attemptAll (map Assigning assignments) tx) = serialize tx
             /\ hash (attemptAll (map Assigning assignments) tx) = hash tx))
  /\ (opt_freeze opts = Some false ->
      forall a, assign a tx = Ok (written a tx)).
Proof.
  intro Htx. destruct (constructor_inv _ _ _ Htx) as (p & _ & _ & _ & _ & Heq).
  assert (Hflag : tx_frozen tx
                  = match opt_freeze opts with Some b => b | None => true end)
    by (rewrite Heq; reflexivity).
  split; [exact Hflag|]. split.
  - intro Hfreeze.
    assert (Hfrozen : tx_frozen tx = true).
    { rewrite Hflag. destruct (opt_freeze opts) as [[|]|]; try reflexivity.
      now elim Hfreeze. }
    assert (Hthrows : forall a, assign a tx = Throw TypeError)
      by (intro a; unfold assign; now rewrite Hfrozen).
    split; [exact Hthrows|]. split; [exact Hthrows|].
    intro assignments.
    rewrite (attemptAll_assignments_frozen tx assignments Hfrozen).
    repeat split.
  - intros Hoff a. unfold assign. rewrite Hflag, Hoff. reflexivity.
Qed.

End Freezing.

Lemma constructor_freezes_witness :
  exists tx,
    constructor (E := exampleExternals noSigned)
      (exampleTxData 21000 100 10 [exampleHash x0a] (Some (1, 5, 6))) noOptions = Ok tx
    /\ isSigned tx = true
    /\ tx_frozen tx = true
    /\ (forall a, assign a tx = Throw TypeError)
    /\ attemptAll (map Assigning [SetNonce 8; SetVersionedHashes []; SetS (Some 9)]) tx = tx
    /\ hash (attemptAll (map Assigning [SetNonce 8; SetVersionedHashes []; SetS (Some 9)]) tx)
       = hash tx.
Proof.
  destruct (constructor (E := exampleExternals noSigned)
              (exampleTxData 21000 100 10 [exampleHash x0a] (Some (1, 5, 6))) noOptions)
    as [tx|e] eqn:Htx; [|vm_compute in Htx; discriminate Htx].
  exists tx. split; [reflexivity|].
  split; [vm_compute in Htx; injection Htx as <-; reflexivity|].
  pose proof (constructor_freezes (E := exampleExternals noSigned) _ _ tx Htx)
    as (Hfrozen & Hthrows & _).
  split; [exact Hfrozen|].
  destruct (Hthrows ltac:(discriminate)) as (Hassign & _ & Hrun).
  split; [exact Hassign|].
  destruct (Hrun [SetNonce 8; SetVersionedHashes []; SetS (Some 9)]) as (Hsame & _ & Hhash).
  split; [exact Hsame | exact Hhash].
Defined.

(** C10 as stated fails, twice. A signed transaction built with
    [freeze: false] is not frozen: assigning its nonce succeeds, and the
    value [serialize] encodes, hence what [hash] hashes, is no longer the
    one it was. And a signed transaction that is frozen still holds the
    array of versioned hashes it was given: a [push] on that array
    succeeds, and the hash of the instance is another one after it. *)
Lemma signed_transaction_not_frozen :
  exists tx tx' frozenTx pushed hashBefore hashAfter,
    constructor (E := exampleExternals noSigned)
      (exampleTxData 21000 100 10 [exampleHash x0a] (Some (1, 5, 6)))
      {| opt_common := None; opt_freeze := Some false |} = Ok tx
    /\ isSigned tx = true
    /\ assign (SetNonce 8) tx = Ok tx'
    /\ tx_nonce tx = 7 /\ tx_nonce tx' = 8
    /\ m_nonce (message (sszValue tx)) = 7
    /\ m_nonce (message (sszValue tx')) = 8
    /\ constructor (E := exampleExternals noSigned)
         (exampleTxData 21000 100 10 [exampleHash x0a] (Some (1, 5, 6))) noOptions
       = Ok frozenTx
    /\ isSigned frozenTx = true
    /\ tx_frozen frozenTx = true
    /\ mutate (InPlace (PushVersionedHash (exampleHash x0b))) frozenTx = Ok pushed
    /\ tx_versionedHashes frozenTx = [exampleHash x0a]
    /\ tx_versionedHashes pushed = [exampleHash x0a; exampleHash x0b]
    /\ hash frozenTx = Ok hashBefore
    /\ hash pushed = Ok hashAfter
    /\ bufferEqb hashBefore hashAfter = false.
Proof.
  eexists. eexists. eexists. eexists. eexists. eexists.
  split; [vm_compute; reflexivity|].
  split; [reflexivity|].
  split; [vm_compute; reflexivity|].
  do 4 (split; [reflexivity|]).
  split; [vm_compute; reflexivity|].
  split; [reflexivity|].
  split; [reflexivity|].
  split; [vm_compute; reflexivity|].
  split; [reflexivity|].
  split; [reflexivity|].
  split; [vm_compute; reflexivity|].
  split; [vm_compute; reflexivity|].
  vm_compute; reflexivity.
Qed.

Section Sender.
Context {E : Externals}.

(** What [getSenderPublicKey] does: on an unsigned transaction it fails
    with the not-signed error. On a signed one
    that passes the high-s check it calls [ecrecover] with [v + 27] and the
    unpadded [r] and [s] against [hash()], the Keccak hash of the type
    byte followed by the SSZ encoding of the whole signed transaction, the
    signature [r], [s] and [yParity] included; an exception of that call
    becomes the invalid-signature error. The class has no message to sign:
    [getMessageToSign] is not implemented. *)
Theorem getSenderPublicKey_recovers (tx : BlobEIP4844Transaction Common) :
  (isSigned tx = false ->
   getSenderPublicKey tx = Throw NotSigned /\ kindOf NotSigned = NotSignedError)
  /\ (forall v r s encoded rBuf sBuf,
         tx_v tx = Some v -> tx_r tx = Some r -> tx_s tx = Some s ->
         SignedBlobTransactionType_serialize (sszValue tx) = Ok encoded ->
         _validateHighS (tx_common tx) (Some s) = Ok tt ->
         bigIntToUnpaddedBuffer r = Ok rBuf ->
         bigIntToUnpaddedBuffer s = Ok sBuf ->
         signature (sszValue tx) = {| ssz_r := r; ssz_s := s; yParity := (v =? 1) |}
         /\ hash tx = Ok (keccak256 (TRANSACTION_TYPE_BUFFER ++ encoded))
         /\ getSenderPublicKey tx =
              match ecrecover recoverPublicKey
                      (keccak256 (TRANSACTION_TYPE_BUFFER ++ encoded))
                      (v + 27) rBuf sBuf with
              | Ok senderPubKey => Ok senderPubKey
              | Throw _ => Throw InvalidSignature
              end)
  /\ getMessageToSign tx = Throw NotImplemented
  /\ getMessageToVerifySignature tx = Throw NotImplemented.
Proof.
  split; [|split; [|split; reflexivity]].
  - intro Hunsigned. unfold getSenderPublicKey. rewrite Hunsigned. now split.
  - intros v r s encoded rBuf sBuf Hv Hr Hs Henc Hhigh Hrb Hsb.
    assert (Hhash : hash tx = Ok (keccak256 (TRANSACTION_TYPE_BUFFER ++ encoded))).
    { unfold hash, serialize. rewrite Henc. cbn [bind List.concat].
      now rewrite app_nil_r. }
    split; [|split; [exact Hhash|]].
    + unfold sszValue. fields. now rewrite Hv, Hr, Hs.
    + unfold getSenderPublicKey, isSigned.
      rewrite Hhash, Hv, Hr, Hs, Hhigh, Hrb, Hsb. reflexivity.
Qed.

End Sender.

Lemma getSenderPublicKey_recovers_witness :
  getSenderPublicKey (E := exampleExternals noSigned)
    {| tx_nonce := 7; tx_gasLimit := 21000; tx_to := None; tx_value := 0;
       tx_data := []; tx_v := None; tx_r := None; tx_s := None;
       tx_common := {| ec_chainId := 1; ec_eips := [1559] |}; tx_chainId := 1;
       tx_accessList := []; tx_maxPriorityFeePerGas := 10; tx_maxFeePerGas := 100;
       tx_maxFeePerDataGas := 5; tx_versionedHashes := [];
       tx_activeCapabilities := [1559; 2718; 2930; 4844]; tx_frozen := true |}
  = Throw NotSigned
  /\ getSenderPublicKey (E := exampleExternals noSigned)
       {| tx_nonce := 7; tx_gasLimit := 21000; tx_to := None; tx_value := 0;
          tx_data := []; tx_v := Some 1; tx_r := Some 5; tx_s := Some 6;
          tx_common := {| ec_chainId := 1; ec_eips := [1559] |}; tx_chainId := 1;
          tx_accessList := []; tx_maxPriorityFeePerGas := 10; tx_maxFeePerGas := 100;
          tx_maxFeePerDataGas := 5; tx_versionedHashes := [];
          tx_activeCapabilities := [1559; 2718; 2930; 4844]; tx_frozen := true |}
     = match
         ecrecover (recoverPublicKey (Externals := exampleExternals noSigned))
           (keccak256 (Externals := exampleExternals noSigned)
              (TRANSACTION_TYPE_BUFFER
               ++ exampleLayout
                    {| message :=
                         {| m_chainId := 1; m_nonce := 7; m_priorityFeePerGas := 10;
                            m_maxFeePerGas := 100; m_gas := 21000;
                            m_to := {| selector := 0; to_value := None |};
                            m_value := 0; m_data := []; m_accessList := [];
                            m_blobVersionedHashes := []; m_maxFeePerDataGas := 5 |};
                       signature := {| ssz_r := 5; ssz_s := 6; yParity := true |} |}))
           (1 + 27) [x05] [x06]
       with
       | Ok senderPubKey => Ok senderPubKey
       | Throw _ => Throw InvalidSignature
       end.
Proof.
  split.
  - apply (proj1 (getSenderPublicKey_recovers (E := exampleExternals noSigned) _)).
    reflexivity.
  - apply (proj1 (proj2 (getSenderPublicKey_recovers
                           (E := exampleExternals noSigned) _))
             1 5 6 _ [x05] [x06]); reflexivity.
Defined.

(** C6: the code at the input it fails on. Two signed transactions with
    the same fields and different [r] have different hashes, and
    [getSenderPublicKey] recovers against these: the digest holds the
    signature it is to verify, where the claim, and the promise of lines
    281-283 to return the sender's public key, need the hash of the fields
    without the signature triple. *)
Lemma getSenderPublicKey_hash_covers_signature :
  exists txA txB hashA hashB,
    constructor (E := exampleExternals noSigned)
      (exampleTxData 21000 100 10 [exampleHash x0a] (Some (1, 5, 6))) noOptions = Ok txA
    /\ constructor (E := exampleExternals noSigned)
         (exampleTxData 21000 100 10 [exampleHash x0a] (Some (1, 9, 6))) noOptions = Ok txB
    /\ message (sszValue txA) = message (sszValue txB)
    /\ ssz_r (signature (sszValue txA)) = 5
    /\ ssz_r (signature (sszValue txB)) = 9
    /\ hash txA = Ok hashA /\ hash txB = Ok hashB
    /\ bufferEqb hashA hashB = false
    /\ getSenderPublicKey txA
       = ecrecover (recoverPublicKey (Externals := exampleExternals noSigned))
           hashA 28 [x05] [x06]
    /\ getSenderPublicKey txB
       = ecrecover (recoverPublicKey (Externals := exampleExternals noSigned))
           hashB 28 [x09] [x06].
Proof.
  eexists. eexists. eexists. eexists.
  split; [vm_compute; reflexivity|].
  split; [vm_compute; reflexivity|].
  split; [reflexivity|].
  split; [reflexivity|].
  split; [reflexivity|].
  split; [vm_compute; reflexivity|].
  split; [vm_compute; reflexivity|].
  split; [vm_compute; reflexivity|].
  split; vm_compute; reflexivity.
Qed.

Section RoundTrip.
Context {E : Externals}.

Lemma validateYParity_ok (v : option Z) :
  _validateYParity v = Ok tt <-> v = None \/ v = Some 0 \/ v = Some 1.
Proof.
  unfold _validateYParity. destruct v as [x|]; [|split; auto].
  destruct (Z.eqb_spec x 0), (Z.eqb_spec x 1); cbn [negb andb]; subst;
    split; auto; try discriminate.
  intros [H | [H | H]]; congruence.
Qed.

Lemma verifyAccessList_tuples (accessList : AccessListBuffer) :
  map (fun listItem : AccessTuple => (address listItem, storageKeys listItem))
    (map (fun listItem : AccessListBufferItem =>
            {| address := fst listItem; storageKeys := snd listItem |}) accessList)
  = accessList.
Proof.
  rewrite map_map. rewrite <- (map_id accessList) at 2.
  apply map_ext. now intros [a k].
Qed.

(** What [BaseTransaction]'s constructor makes of the data
    [fromSerializedTx] builds. *)
Lemma BaseTransaction_constructor_decoded (txData : BlobEIP4844TxData)
    (nonce value v r s : Z) (to : option Buffer) (data : Buffer) :
  td_nonce txData = Some nonce -> td_gasLimit txData = None ->
  td_to txData = to -> td_value txData = Some value -> td_data txData = Some data ->
  td_v txData = Some v -> td_r txData = Some r -> td_s txData = Some s ->
  0 <= nonce <= MAX_INTEGER -> 0 <= value <= MAX_INTEGER ->
  0 <= v -> 0 <= r <= MAX_INTEGER -> 0 <= s <= MAX_INTEGER ->
  match to with Some a => length a = 20%nat | None => True end ->
  BaseTransaction_constructor txData
  = Ok {| b_nonce := nonce; b_gasLimit := 0; b_to := to; b_value := value;
          b_data := data; b_v := Some v; b_r := Some r; b_s := Some s |}.
Proof.
  intros Hn Hg Ht Hval Hd Hv Hr Hs Bn Bval Bv Br Bs Bto.
  unfold BaseTransaction_constructor.
  rewrite Hn, Hg, Ht, Hval, Hd, Hv, Hr, Hs.
  rewrite !toOptionalBigInt_some, !toBigInt_some by lia.
  cbn [bind toBigInt]. change (bufferToBigInt []) with 0.
  assert (Hmax : _validateCannotExceedMaxInteger
                   [Some value; Some r; Some s; Some 0; Some nonce] = Ok tt).
  { apply validateCannotExceedMaxInteger_ok.
    repeat constructor; first [lia | unfold MAX_INTEGER; lia]. }
  destruct to as [a|].
  - rewrite Bto. change (0 <? 20)%nat with true. change (20 =? 20)%nat with true.
    cbn [bind]. rewrite Hmax. reflexivity.
  - change (0 <? length (@nil byte))%nat with false.
    cbn [bind]. rewrite Hmax. reflexivity.
Qed.

(** What [fromSerializedTx(tx.serialize())] returns, field by field. *)
Lemma fromSerializedTx_serialize_result (txData : BlobEIP4844TxData)
    (opts0 : TxOptions Common) (opts : option (TxOptions Common))
    (tx : BlobEIP4844Transaction Common) (serialized : Buffer) (common : Common) :
  constructor txData opts0 = Ok tx ->
  serialize tx = Ok serialized ->
  SignedBlobTransactionType_deserialize (skipn 1 serialized) = Ok (sszValue tx) ->
  _getCommon (opt_common (optionsOrDefault opts)) (Some (tx_chainId tx)) = Ok common ->
  isActivatedEIP common 1559 = true ->
  _validateHighS common (Some (match tx_s tx with Some s => s | None => 0 end)) = Ok tt ->
  (isActivatedEIP common 3860 = true ->
   checkMaxInitCodeSize common (length (tx_data tx)) = Ok tt) ->
  fromSerializedTx serialized opts
  = Ok {| tx_nonce := tx_nonce tx;
          tx_gasLimit := 0;
          tx_to := tx_to tx;
          tx_value := tx_value tx;
          tx_data := tx_data tx;
          tx_v := Some (match tx_v tx with Some v => v | None => 0 end);
          tx_r := Some (match tx_r tx with Some r => r | None => 0 end);
          tx_s := Some (match tx_s tx with Some s => s | None => 0 end);
          tx_common := common;
          tx_chainId := Common_chainId common;
          tx_accessList := tx_accessList tx;
          tx_maxPriorityFeePerGas := 0;
          tx_maxFeePerGas := tx_maxFeePerGas tx;
          tx_maxFeePerDataGas := tx_maxFeePerDataGas tx;
          tx_versionedHashes := tx_versionedHashes tx;
          tx_activeCapabilities := [1559; 2718; 2930; 4844];
          tx_frozen := match opt_freeze (optionsOrDefault opts) with
                       | Some b => b
                       | None => true
                       end |}.
Proof.
  intros Htx Hser Hdes Hcommon H1559 Hhigh Hinit.
  destruct (constructor_inv _ _ _ Htx) as (p & Hp & Hfees & Hsig & Hhashes & Heq).
  destruct (parseFields_inv _ _ _ Hp)
    as (Hbase & _ & _ & Hal & Hverify & Hfee & _ & Hfeemax & _).
  destruct (BaseTransaction_constructor_inv _ _ Hbase)
    as (_ & _ & _ & _ & _ & _ & _ & Hto & Bn & _ & Bval & Bv & Br & Bs).
  apply toBigInt_inv in Hfee. destruct Hfee as [Bfee _].
  unfold checkSignatureAndInitCode in Hsig.
  apply bind_ok_inv in Hsig. destruct Hsig as ([] & Hparity & _).
  apply validateYParity_ok in Hparity.
  set (v' := match b_v (p_base p) with Some v => v | None => 0 end).
  set (r' := match b_r (p_base p) with Some r => r | None => 0 end).
  set (s' := match b_s (p_base p) with Some s => s | None => 0 end).
  assert (Hv' : (if (match b_v (p_base p) with Some v => v =? 1 | None => false end)
                 then 1 else 0) = v').
  { subst v'. destruct Hparity as [-> | [-> | ->]]; reflexivity. }
  assert (Bv' : 0 <= v') by (subst v'; destruct (b_v (p_base p)); lia).
  assert (Br' : 0 <= r' <= MAX_INTEGER)
    by (subst r'; destruct (b_r (p_base p)); [lia | unfold MAX_INTEGER; lia]).
  assert (Bs' : 0 <= s' <= MAX_INTEGER)
    by (subst s'; destruct (b_s (p_base p)); [lia | unfold MAX_INTEGER; lia]).
  assert (Bto : match b_to (p_base p) with
                | Some a => length a = 20%nat | None => True end)
    by (destruct (b_to (p_base p)); [apply Hto | exact I]).
  subst tx. fields.
  (* the data handed to the constructor *)
  unfold fromSerializedTx. rewrite Hdes. cbn [bind].
  unfold decodedTxData, sszValue. fields.
  assert (Hdecto : (match b_to (p_base p) with
                    | None => Ok None
                    | Some value =>
                        if (length value =? 20)%nat then Ok (Some value)
                        else Throw InvalidAddress
                    end) = Ok (b_to (p_base p))).
  { destruct (b_to (p_base p)) as [a|]; [|reflexivity]. now rewrite Bto. }
  rewrite Hdecto. cbn [bind]. rewrite Hv', verifyAccessList_tuples, map_id.
  fold r' s'.
  (* its construction *)
  match goal with
  | |- constructor ?td _ = _ => set (decoded := td)
  end.
  assert (Hbase' : BaseTransaction_constructor decoded
            = Ok {| b_nonce := b_nonce (p_base p); b_gasLimit := 0;
                    b_to := b_to (p_base p); b_value := b_value (p_base p);
                    b_data := b_data (p_base p);
                    b_v := Some v'; b_r := Some r'; b_s := Some s' |}).
  { apply BaseTransaction_constructor_decoded; try reflexivity; assumption. }
  assert (Hparse' : parseFields decoded (optionsOrDefault opts)
            = Ok {| p_base := {| b_nonce := b_nonce (p_base p); b_gasLimit := 0;
                                 b_to := b_to (p_base p);
                                 b_value := b_value (p_base p);
                                 b_data := b_data (p_base p);
                                 b_v := Some v'; b_r := Some r'; b_s := Some s' |};
                    p_common := common;
                    p_accessList := p_accessList p;
                    p_maxFeePerGas := p_maxFeePerGas p;
                    p_maxPriorityFeePerGas := 0 |}).
  { unfold parseFields. rewrite Hbase'. subst decoded. fields. cbn [bind].
    rewrite Hcommon. cbn [bind]. rewrite H1559. cbn [negb].
    rewrite Hverify. cbn [bind].
    rewrite toBigInt_some by exact Bfee. cbn [bind toBigInt].
    change (bufferToBigInt []) with 0.
    rewrite (proj2 (validateCannotExceedMaxInteger_ok
                      [Some (p_maxFeePerGas p); Some 0])).
    - reflexivity.
    - repeat constructor; [exact Hfeemax | unfold MAX_INTEGER; lia]. }
  rewrite (constructor_run _ _ _ Hparse').
  rewrite (proj2 (checkFees_ok _)).
  2:{ fields. split; [unfold MAX_INTEGER; lia | lia]. }
  cbn [bind]. unfold checkSignatureAndInitCode. fields.
  rewrite (proj2 (validateYParity_ok (Some v'))).
  2:{ subst v'. destruct Hparity as [-> | [-> | ->]]; auto. }
  cbn [bind]. change (_validateHighS common (Some s') = Ok tt) in Hhigh.
  rewrite Hhigh. cbn [bind].
  assert (Hcode : (if isActivatedEIP common 3860
                   then checkMaxInitCodeSize common (length (b_data (p_base p)))
                   else Ok tt) = Ok tt).
  { destruct (isActivatedEIP common 3860); [now apply Hinit | reflexivity]. }
  rewrite Hcode. cbn [bind]. subst decoded. fields. rewrite Hhashes. cbn [bind].
  reflexivity.
Qed.

(** What does come back: let [tx] be a transaction the constructor
    returned, of which the SSZ decoder gives back the value [serialize]
    encoded, and let the collaborators accept the decoded data (a [Common]
    of the same chain with EIP-1559 active, a passing high-s check, a
    passing init-code check where EIP-3860 is active). Then
    [fromSerializedTx(tx.serialize())] returns a transaction with the same
    chain id, nonce, [maxFeePerGas], [to], value, data, access list,
    versioned hashes and [maxFeePerDataGas]. Its signature fields are
    always present: those of [tx] when [tx] is signed, and 0 in place of
    each one that [tx] lacks. *)
Theorem fromSerializedTx_serialize (txData : BlobEIP4844TxData)
    (opts0 : TxOptions Common) (opts : option (TxOptions Common))
    (tx : BlobEIP4844Transaction Common) (serialized : Buffer) (common : Common) :
  constructor txData opts0 = Ok tx ->
  serialize tx = Ok serialized ->
  SignedBlobTransactionType_deserialize (skipn 1 serialized) = Ok (sszValue tx) ->
  _getCommon (opt_common (optionsOrDefault opts)) (Some (tx_chainId tx)) = Ok common ->
  Common_chainId common = tx_chainId tx ->
  isActivatedEIP common 1559 = true ->
  _validateHighS common (Some (match tx_s tx with Some s => s | None => 0 end)) = Ok tt ->
  (isActivatedEIP common 3860 = true ->
   checkMaxInitCodeSize common (length (tx_data tx)) = Ok tt) ->
  exists tx',
    fromSerializedTx serialized opts = Ok tx'
    /\ tx_chainId tx' = tx_chainId tx
    /\ tx_nonce tx' = tx_nonce tx
    /\ tx_maxFeePerGas tx' = tx_maxFeePerGas tx
    /\ tx_to tx' = tx_to tx
    /\ tx_value tx' = tx_value tx
    /\ tx_data tx' = tx_data tx
    /\ tx_accessList tx' = tx_accessList tx
    /\ tx_versionedHashes tx' = tx_versionedHashes tx
    /\ tx_maxFeePerDataGas tx' = tx_maxFeePerDataGas tx
    /\ tx_v tx' = Some (match tx_v tx with Some v => v | None => 0 end)
    /\ tx_r tx' = Some (match tx_r tx with Some r => r | None => 0 end)
    /\ tx_s tx' = Some (match tx_s tx with Some s => s | None => 0 end)
    /\ (isSigned tx = true ->
        tx_v tx' = tx_v tx /\ tx_r tx' = tx_r tx /\ tx_s tx' = tx_s tx).
Proof.
  intros Htx Hser Hdes Hcommon Hchain H1559 Hhigh Hinit.
  rewrite (fromSerializedTx_serialize_result _ _ _ _ _ _
             Htx Hser Hdes Hcommon H1559 Hhigh Hinit).
  eexists. split; [reflexivity|]. fields.
  split; [exact Hchain|].
  do 11 (split; [reflexivity|]).
  unfold isSigned.
  destruct (tx_v tx); [|discriminate].
  destruct (tx_r tx); [|discriminate].
  destruct (tx_s tx); [|discriminate].
  intros _. repeat split.
Qed.

(** Beside it: the decoded data carries the gas limit and the priority fee
    under the keys [gas] and [priorityFeePerGas], which no constructor
    reads, so both are 0 in what [fromSerializedTx] returns. *)
Lemma fromSerializedTx_drops_gas_and_priority_fee (txData : BlobEIP4844TxData)
    (opts0 : TxOptions Common) (opts : option (TxOptions Common))
    (tx : BlobEIP4844Transaction Common) (serialized : Buffer) (common : Common) :
  constructor txData opts0 = Ok tx ->
  serialize tx = Ok serialized ->
  SignedBlobTransactionType_deserialize (skipn 1 serialized) = Ok (sszValue tx) ->
  _getCommon (opt_common (optionsOrDefault opts)) (Some (tx_chainId tx)) = Ok common ->
  isActivatedEIP common 1559 = true ->
  _validateHighS common (Some (match tx_s tx with Some s => s | None => 0 end)) = Ok tt ->
  (isActivatedEIP common 3860 = true ->
   checkMaxInitCodeSize common (length (tx_data tx)) = Ok tt) ->
  exists tx',
    fromSerializedTx serialized opts = Ok tx'
    /\ tx_gasLimit tx' = 0
    /\ tx_maxPriorityFeePerGas tx' = 0.
Proof.
  intros Htx Hser Hdes Hcommon H1559 Hhigh Hinit.
  rewrite (fromSerializedTx_serialize_result _ _ _ _ _ _
             Htx Hser Hdes Hcommon H1559 Hhigh Hinit).
  eexists. repeat split.
Qed.

End RoundTrip.

Lemma fromSerializedTx_serialize_witness :
  exists tx serialized tx',
    constructor (E := exampleExternals (exampleSszValue (Some (1, 5, 6))))
      (exampleTxData 21000 100 10 [exampleHash x0a] (Some (1, 5, 6))) noOptions = Ok tx
    /\ serialize tx = Ok serialized
    /\ fromSerializedTx (E := exampleExternals (exampleSszValue (Some (1, 5, 6))))
         serialized None = Ok tx'
    /\ tx_chainId tx' = tx_chainId tx
    /\ tx_nonce tx' = tx_nonce tx
    /\ tx_maxFeePerGas tx' = tx_maxFeePerGas tx
    /\ tx_to tx' = tx_to tx
    /\ tx_value tx' = tx_value tx
    /\ tx_data tx' = tx_data tx
    /\ tx_accessList tx' = tx_accessList tx
    /\ tx_versionedHashes tx' = tx_versionedHashes tx
    /\ tx_maxFeePerDataGas tx' = tx_maxFeePerDataGas tx
    /\ tx_v tx' = tx_v tx /\ tx_r tx' = tx_r tx /\ tx_s tx' = tx_s tx.
Proof.
  destruct (constructor (E := exampleExternals (exampleSszValue (Some (1, 5, 6))))
              (exampleTxData 21000 100 10 [exampleHash x0a] (Some (1, 5, 6))) noOptions)
    as [tx|e] eqn:Htx; [|vm_compute in Htx; discriminate Htx].
  pose proof Htx as Hbuilt.
  vm_compute in Htx. injection Htx as <-.
  match type of Hbuilt with _ = Ok ?t => set (tx := t) in * end.
  destruct (serialize (E := exampleExternals (exampleSszValue (Some (1, 5, 6)))) tx)
    as [serialized|e] eqn:Hser; [|vm_compute in Hser; discriminate Hser].
  pose proof Hser as Hencoded.
  vm_compute in Hser. injection Hser as <-.
  match type of Hencoded with _ = Ok ?b => set (serialized := b) in * end.
  destruct (fromSerializedTx_serialize
              (E := exampleExternals (exampleSszValue (Some (1, 5, 6))))
              _ noOptions None tx serialized
              {| ec_chainId := 1; ec_eips := [1559; 2718; 2930; 4844] |}
              Hbuilt Hencoded)
    as (tx' & Hback & Hc & Hn & Hf & Hto & Hval & Hd & Hal & Hh & Hdf & _ & _ & _ & Hsig).
  - vm_compute. reflexivity.
  - reflexivity.
  - reflexivity.
  - reflexivity.
  - reflexivity.
  - intro H3860. vm_compute in H3860. discriminate H3860.
  - destruct (Hsig eq_refl) as (Hv & Hr & Hs).
    exists tx, serialized, tx'.
    repeat (split; [assumption || reflexivity|]). assumption.
Defined.

(** An unsigned transaction does not come back unsigned: what is decoded
    from its serialization has [v], [r] and [s] equal to 0 and counts as
    signed (line 258 leaves the encoding of an unsigned transaction to be
    decided). *)
Lemma unsigned_transaction_comes_back_signed :
  exists tx serialized tx',
    constructor (E := exampleExternals (exampleSszValue None))
      (exampleTxData 21000 100 10 [exampleHash x0a] None) noOptions = Ok tx
    /\ serialize tx = Ok serialized
    /\ fromSerializedTx (E := exampleExternals (exampleSszValue None))
         serialized None = Ok tx'
    /\ isSigned tx = false
    /\ tx_v tx = None /\ tx_r tx = None /\ tx_s tx = None
    /\ tx_v tx' = Some 0 /\ tx_r tx' = Some 0 /\ tx_s tx' = Some 0
    /\ isSigned tx' = true.
Proof.
  eexists. eexists. eexists.
  split; [vm_compute; reflexivity|].
  split; [vm_compute; reflexivity|].
  split; [vm_compute; reflexivity|].
  repeat split; reflexivity.
Qed.

(** C9: the code at the input it fails on. A signed transaction with a
    gas limit of 21000 and a priority fee of 10 is serialized and
    decoded: both come back as 0, where the claim has every field come
    back as it was. The decoded message holds them under the keys [gas]
    and [priorityFeePerGas] (lines 246-248), which lines 211-221 spread
    into the data of a constructor that reads [gasLimit] and
    [maxPriorityFeePerGas]. *)
Lemma fromSerializedTx_drops_gasLimit :
  exists tx serialized tx',
    constructor (E := exampleExternals (exampleSszValue (Some (1, 5, 6))))
      (exampleTxData 21000 100 10 [exampleHash x0a] (Some (1, 5, 6))) noOptions = Ok tx
    /\ serialize tx = Ok serialized
    /\ fromSerializedTx (E := exampleExternals (exampleSszValue (Some (1, 5, 6))))
         serialized None = Ok tx'
    /\ tx_gasLimit tx = 21000 /\ tx_gasLimit tx' = 0
    /\ tx_maxPriorityFeePerGas tx = 10 /\ tx_maxPriorityFeePerGas tx' = 0.
Proof.
  eexists. eexists. eexists.
  split; [vm_compute; reflexivity|].
  split; [vm_compute; reflexivity|].
  split; [vm_compute; reflexivity|].
  repeat split; reflexivity.
Qed.

(** * More properties of the code *)

Import Signing.

Lemma Ok_inj {A : Type} (a b : A) : Ok a = Ok b -> a = b.
Proof. intro H. now injection H. Qed.

(** ** Signing and recovering *)

Lemma slice_halves (buf : Buffer) :
  length buf = 64%nat -> slice buf 0 32 ++ slice buf 32 64 = buf.
Proof.
  intro Hlen. unfold slice. change (skipn 0 buf) with buf.
  change (64 - 32)%nat with 32%nat. change (32 - 0)%nat with 32%nat.
  rewrite (firstn_all2 (n := 32) (skipn 32 buf)) by (rewrite length_skipn; lia).
  apply firstn_skipn.
Qed.

Lemma slice_length (buf : Buffer) (from to : nat) :
  (to <= length buf)%nat -> length (slice buf from to) = (to - from)%nat.
Proof.
  intro H. unfold slice. rewrite length_firstn, length_skipn. lia.
Qed.

Lemma concatTo_pair (a b : Buffer) :
  length a = 32%nat -> length b = 32%nat -> concatTo [a; b] 64 = a ++ b.
Proof.
  intros Ha Hb. unfold concatTo. cbn [List.concat]. rewrite app_nil_r.
  rewrite firstn_all2 by (rewrite length_app; lia).
  rewrite length_app, Ha, Hb. cbn. now rewrite app_nil_r.
Qed.

(** The [v] of EIP-155 normalizes to the recovery bit it was made from. *)
Lemma calculateSigRecovery_eip155 (rec chainId : Z) :
  rec = 0 \/ rec = 1 -> 0 <= chainId ->
  calculateSigRecovery (rec + 35 + chainId * 2) = rec.
Proof.
  intros Hrec Hc. unfold calculateSigRecovery.
  set (v := rec + 35 + chainId * 2).
  assert (Hv : 35 <= v) by (subst v; lia).
  destruct (Z.ltb_spec 28 v); [|lia]. destruct (Z.ltb_spec v 35); [lia|].
  destruct (Z.ltb_spec v 27); [lia|].
  destruct (Z.eqb_spec v 27); [lia|]. destruct (Z.eqb_spec v 28); [lia|].
  destruct (Z.eqb_spec v 0); [lia|]. destruct (Z.eqb_spec v 1); [lia|].
  cbn [andb orb].
  replace (0 - 35 - v) with (- (v + 35)) by lia.
  rewrite Z.rem_opp_l by lia. rewrite Z.rem_mod_nonneg by lia.
  subst v.
  destruct Hrec as [-> | ->].
  - replace (0 + 35 + chainId * 2 + 35) with (0 + (chainId + 35) * 2) by lia.
    rewrite Z.mod_add by lia. reflexivity.
  - replace (1 + 35 + chainId * 2 + 35) with (1 + (chainId + 35) * 2) by lia.
    rewrite Z.mod_add by lia. reflexivity.
Qed.

Lemma ecsign_inv (signSync : Buffer -> Buffer -> Result (Buffer * Z))
    (msgHash privateKey : Buffer) (chainId : option Z) (sig : ECDSASignature) :
  ecsign signSync msgHash privateKey chainId = Ok sig ->
  exists signature,
    signSync msgHash privateKey = Ok (signature, sig_recovery sig)
    /\ sig_r sig = slice signature 0 32
    /\ sig_s sig = slice signature 32 64
    /\ sig_v sig = match chainId with
                   | None => sig_recovery sig + 27
                   | Some c => sig_recovery sig + 35 + c * 2
                   end.
Proof.
  unfold ecsign. intro H. apply bind_ok_inv in H.
  destruct H as ([signature rec] & Hsign & H). injection H as <-.
  exists signature. cbn. repeat split; try reflexivity. exact Hsign.
Qed.

(** X1: the [v] that [ecsign] returns normalizes back to the recovery bit
    of the signer. Whenever [ecsign] returns, the recovery bit being 0 or 1
    and the chain id, if one is given, not negative,
    [calculateSigRecovery] of the returned [v] is the returned [recovery],
    so [v] passes the test of [ecrecover], [toRpcSig] and [toCompactSig];
    without a chain id [v] is 27 or 28, with chain id [c] it is
    [recovery + 35 + 2c]. *)
Theorem ecsign_v_normalizes_to_recovery
    (signSync : Buffer -> Buffer -> Result (Buffer * Z))
    (msgHash privateKey : Buffer) (chainId : option Z) (sig : ECDSASignature) :
  ecsign signSync msgHash privateKey chainId = Ok sig ->
  sig_recovery sig = 0 \/ sig_recovery sig = 1 ->
  match chainId with Some c => 0 <= c | None => True end ->
  calculateSigRecovery (sig_v sig) = sig_recovery sig
  /\ isValidSigRecovery (calculateSigRecovery (sig_v sig)) = true
  /\ match chainId with
     | None => sig_v sig = 27 \/ sig_v sig = 28
     | Some c => sig_v sig = sig_recovery sig + 35 + 2 * c
     end.
Proof.
  intros Hsig Hrec Hchain.
  destruct (ecsign_inv _ _ _ _ _ Hsig) as (signature & _ & _ & _ & Hv).
  assert (Hcalc : calculateSigRecovery (sig_v sig) = sig_recovery sig).
  { rewrite Hv. destruct chainId as [c|].
    - now apply calculateSigRecovery_eip155.
    - destruct Hrec as [-> | ->]; reflexivity. }
  split; [exact Hcalc|]. split.
  - rewrite Hcalc. destruct Hrec as [-> | ->]; reflexivity.
  - destruct chainId as [c|]; [lia|]. lia.
Qed.

Lemma ecsign_v_normalizes_to_recovery_witness :
  exists sig,
    ecsign exampleSignSync [x0a] [x0b] (Some 5) = Ok sig
    /\ sig_v sig = 46
    /\ calculateSigRecovery (sig_v sig) = sig_recovery sig.
Proof.
  destruct (ecsign exampleSignSync [x0a] [x0b] (Some 5)) as [sig|e] eqn:Hsig;
    [|vm_compute in Hsig; discriminate Hsig].
  exists sig. split; [reflexivity|].
  pose proof Hsig as Hrun. vm_compute in Hrun. injection Hrun as Hrun.
  split; [now rewrite <- Hrun|].
  apply (ecsign_v_normalizes_to_recovery exampleSignSync [x0a] [x0b] (Some 5) sig Hsig).
  - right. now rewrite <- Hrun.
  - cbn. lia.
Defined.

(** X2: [ecrecover] on what [ecsign] returns hands the curve recovery the
    very signature and recovery bit the signer produced. When the signer
    answers with 64 bytes and a recovery bit of 0 or 1, and the chain id,
    if one is given, is not negative, [ecsign] returns [r] and [s] that
    concatenate to those 64 bytes, and [ecrecover] of the returned [v],
    [r] and [s] against any digest is [recoverPublicKey] of the digest,
    the 64 bytes and the bit, less the first byte of its answer; the
    invalid-[v] error does not occur. *)
Theorem ecrecover_of_ecsign
    (signSync : Buffer -> Buffer -> Result (Buffer * Z))
    (recoverPublicKey : Buffer -> Buffer -> Z -> Result Buffer)
    (msgHash privateKey : Buffer) (chainId : option Z)
    (signature : Buffer) (rec : Z) :
  signSync msgHash privateKey = Ok (signature, rec) ->
  length signature = 64%nat ->
  rec = 0 \/ rec = 1 ->
  match chainId with Some c => 0 <= c | None => True end ->
  exists sig,
    ecsign signSync msgHash privateKey chainId = Ok sig
    /\ sig_r sig ++ sig_s sig = signature
    /\ sig_recovery sig = rec
    /\ forall digest,
         ecrecover recoverPublicKey digest (sig_v sig) (sig_r sig) (sig_s sig)
         = let* senderPubKey := recoverPublicKey digest signature rec in
           Ok (skipn 1 senderPubKey).
Proof.
  intros Hsign Hlen Hrec Hchain.
  unfold ecsign. rewrite Hsign. cbn [bind].
  eexists. split; [reflexivity|]. cbn [sig_r sig_s sig_v sig_recovery].
  split; [now apply slice_halves|]. split; [reflexivity|].
  intro digest. unfold ecrecover.
  rewrite !setLengthLeft_exact by (apply slice_length; lia).
  rewrite concatTo_pair by (apply slice_length; lia).
  rewrite slice_halves by exact Hlen.
  assert (Hcalc : calculateSigRecovery
                    match chainId with
                    | Some c => rec + 35 + c * 2
                    | None => rec + 27
                    end = rec).
  { destruct chainId as [c|].
    - now apply calculateSigRecovery_eip155.
    - destruct Hrec as [-> | ->]; reflexivity. }
  rewrite Hcalc. destruct Hrec as [-> | ->]; reflexivity.
Qed.

Lemma ecrecover_of_ecsign_witness :
  exists sig,
    ecsign exampleSignSync [x0a] [x0b] None = Ok sig
    /\ ecrecover (recoverPublicKey (Externals := exampleExternals noSigned))
         [x0c] (sig_v sig) (sig_r sig) (sig_s sig)
       = Ok (setLengthLeft [x0a] 32 ++ setLengthLeft [x0b] 32).
Proof.
  destruct (ecrecover_of_ecsign exampleSignSync
              (recoverPublicKey (Externals := exampleExternals noSigned))
              [x0a] [x0b] None (setLengthLeft [x0a] 32 ++ setLengthLeft [x0b] 32) 1
              eq_refl eq_refl (or_intror eq_refl) I)
    as (sig & Hsig & _ & _ & Hrecover).
  exists sig. split; [exact Hsig|]. rewrite Hrecover. reflexivity.
Defined.

(** X3: the compact encoding of what [ecsign] returns decodes to the
    signer's recovery bit when no chain id was given, and to the opposite
    bit when one was. With a 64-byte signature whose [s] has its top bit
    clear and a recovery bit [rec] of 0 or 1, [fromRpcSig] of
    [toCompactSig] of the returned [v], [r] and [s] gives back [r] and [s];
    its [recovery] is [rec] without a chain id and [1 - rec] with a chain
    id that is not negative, and its [v] is that bit plus 27. *)
Theorem compact_round_trip_of_ecsign
    (signSync : Buffer -> Buffer -> Result (Buffer * Z))
    (msgHash privateKey : Buffer) (chainId : option Z)
    (signature : Buffer) (rec : Z) :
  signSync msgHash privateKey = Ok (signature, rec) ->
  length signature = 64%nat ->
  byteToZ (hd x00 (slice signature 32 64)) < 128 ->
  rec = 0 \/ rec = 1 ->
  match chainId with Some c => 0 <= c | None => True end ->
  exists sig,
    ecsign signSync msgHash privateKey chainId = Ok sig
    /\ sig_recovery sig = rec
    /\ (let* compact := toCompactSig (sig_v sig) (sig_r sig) (sig_s sig) in
        fromRpcSig compact)
       = Ok {| sig_v := match chainId with None => rec | Some _ => 1 - rec end + 27;
               sig_r := sig_r sig;
               sig_s := sig_s sig;
               sig_recovery := match chainId with None => rec | Some _ => 1 - rec end |}.
Proof.
  intros Hsign Hlen Htop Hrec Hchain.
  unfold ecsign. rewrite Hsign. cbn [bind].
  eexists. split; [reflexivity|]. cbn [sig_r sig_s sig_v sig_recovery].
  split; [reflexivity|].
  set (v := match chainId with Some c => rec + 35 + c * 2 | None => rec + 27 end).
  assert (Hcalc : calculateSigRecovery v = rec).
  { subst v. destruct chainId as [c|].
    - now apply calculateSigRecovery_eip155.
    - destruct Hrec as [-> | ->]; reflexivity. }
  assert (Hparity : compactParity v
                    = match chainId with None => rec | Some _ => 1 - rec end).
  { destruct chainId as [c|].
    - rewrite compactParity_eip155 by (subst v; lia). now rewrite Hcalc.
    - subst v. destruct Hrec as [-> | ->]; reflexivity. }
  destruct (compact_and_legacy_decodings v (slice signature 0 32) (slice signature 32 64))
    as [Hcompact _].
  - subst v. destruct chainId; lia.
  - rewrite Hcalc. destruct Hrec as [-> | ->]; reflexivity.
  - apply slice_length. lia.
  - apply slice_length. lia.
  - exact Htop.
  - rewrite Hcompact, Hparity. reflexivity.
Qed.

Lemma compact_round_trip_of_ecsign_witness :
  exists sig decoded,
    ecsign exampleSignSync [x0a] [x0b] (Some 5) = Ok sig
    /\ sig_recovery sig = 1
    /\ (let* compact := toCompactSig (sig_v sig) (sig_r sig) (sig_s sig) in
        fromRpcSig compact) = Ok decoded
    /\ sig_recovery decoded = 0
    /\ sig_v decoded = 27.
Proof.
  destruct (compact_round_trip_of_ecsign exampleSignSync [x0a] [x0b] (Some 5)
              (setLengthLeft [x0a] 32 ++ setLengthLeft [x0b] 32) 1)
    as (sig & Hsig & Hrec & Hback).
  - reflexivity.
  - reflexivity.
  - vm_compute. reflexivity.
  - right. reflexivity.
  - cbn. lia.
  - exists sig. eexists. split; [exact Hsig|]. split; [exact Hrec|].
    split; [exact Hback|]. split; reflexivity.
Defined.

(** ** Encoding and decoding *)

Lemma andFirst_length (m : Z) (buf : Buffer) : length (andFirst m buf) = length buf.
Proof. destruct buf; reflexivity. Qed.

(** X4: decoding the RPC encoding gives back the signature, whatever the
    lengths of [r] and [s]. For [v >= 0] that normalizes to 0 or 1,
    [fromRpcSig(toRpcSig(v, r, s))] returns [r] and [s] as [setLengthLeft]
    makes them 32 bytes long (so [r] and [s] themselves when they are 32
    bytes long), the recovery identifier of [v], and [v] itself, or
    [v + 27] when [v] is 0 or 1. *)
Theorem fromRpcSig_of_toRpcSig (v : Z) (r s : Buffer) :
  0 <= v ->
  isValidSigRecovery (calculateSigRecovery v) = true ->
  (let* sig := toRpcSig v r s in fromRpcSig sig)
  = Ok {| sig_v := (if v <? 27 then v + 27 else v);
          sig_r := setLengthLeft r 32;
          sig_s := setLengthLeft s 32;
          sig_recovery := calculateSigRecovery v |}.
Proof.
  intros Hv Hvalid.
  destruct (toRpcSig_valid v r s Hv Hvalid) as (vBuf & _ & Hval & Hlen & Hrpc).
  rewrite Hrpc. cbn [bind].
  set (r' := setLengthLeft r 32). set (s' := setLengthLeft s 32).
  assert (Hr : length r' = 32%nat) by apply setLengthLeft_length.
  assert (Hs : length s' = 32%nat) by apply setLengthLeft_length.
  rewrite (fromRpcSig_legacy _ (r' ++ s' ++ vBuf));
    [| apply toBuffer_bufferToHex | rewrite !length_app; lia].
  pose proof (slice_head r' (s' ++ vBuf)) as Hsr. rewrite Hr in Hsr.
  pose proof (slice_second r' s' vBuf) as Hss. rewrite Hr, Hs in Hss.
  pose proof (skipn_two r' s' vBuf) as Hsv. rewrite Hr, Hs in Hsv.
  cbn [Nat.add] in Hss, Hsv. rewrite Hsr, Hss, Hsv, Hval. reflexivity.
Qed.

Lemma fromRpcSig_of_toRpcSig_witness :
  (let* sig := toRpcSig 1 [x0a; x0b] (bigEndian 32 (2 ^ 255 + 9)) in fromRpcSig sig)
  = Ok {| sig_v := 28;
          sig_r := repeat x00 30 ++ [x0a; x0b];
          sig_s := bigEndian 32 (2 ^ 255 + 9);
          sig_recovery := 1 |}.
Proof.
  exact (fromRpcSig_of_toRpcSig 1 [x0a; x0b] (bigEndian 32 (2 ^ 255 + 9))
           ltac:(lia) eq_refl).
Defined.

(** X5: what [fromRpcSig] returns. Every signature it returns has [r] and
    [s] of exactly 32 bytes and a [v] of at least 27; and when the
    [recovery] it returns is 0 or 1, that is the recovery identifier of
    the [v] it returns. *)
Theorem fromRpcSig_result_shape (sig : string) (decoded : ECDSASignature) :
  fromRpcSig sig = Ok decoded ->
  length (sig_r decoded) = 32%nat
  /\ length (sig_s decoded) = 32%nat
  /\ 27 <= sig_v decoded
  /\ (isValidSigRecovery (sig_recovery decoded) = true ->
      calculateSigRecovery (sig_v decoded) = sig_recovery decoded).
Proof.
  intro H.
  destruct (toBuffer_string sig) as [buf|e] eqn:Hbuf;
    [|rewrite (fromRpcSig_not_hex _ _ Hbuf) in H; discriminate].
  destruct (Nat.leb_spec 65 (length buf)) as [Hlong|Hshort].
  - rewrite (fromRpcSig_legacy _ _ Hbuf Hlong) in H. apply Ok_inj in H. subst decoded.
    cbn [sig_r sig_s sig_v sig_recovery]. cbv zeta.
    pose proof (bufferToBigInt_bounds (skipn 64 buf)) as [Hv _].
    set (v := bufferToBigInt (skipn 64 buf)) in *.
    split; [apply slice_length; lia|]. split; [apply slice_length; lia|].
    split; [destruct (Z.ltb_spec v 27); lia|].
    intro Hvalid. apply isValidSigRecovery_calculate in Hvalid.
    clearbody v.
    destruct Hvalid as [Hc | [-> | [-> | [-> | [-> | Hc]]]]];
      try reflexivity; [lia|].
    destruct (Z.ltb_spec v 27); [lia | reflexivity].
  - destruct (Nat.eq_dec (length buf) 64) as [Hlen|Hlen].
    + destruct (fromRpcSig_compact _ _ Hbuf Hlen) as (parity & Hparity & _ & Hdec).
      rewrite Hdec in H. apply Ok_inj in H. subst decoded.
      cbn [sig_r sig_s sig_v sig_recovery].
      split; [apply slice_length; lia|].
      split; [rewrite andFirst_length; apply slice_length; lia|].
      split; [lia|]. intros _. destruct Hparity as [-> | ->]; reflexivity.
    + rewrite (fromRpcSig_short _ _ Hbuf) in H by lia. discriminate.
Qed.

Lemma fromRpcSig_result_shape_witness :
  exists decoded,
    fromRpcSig (bufferToHex (repeat x11 32 ++ repeat x22 32 ++ [x00])) = Ok decoded
    /\ length (sig_r decoded) = 32%nat
    /\ length (sig_s decoded) = 32%nat
    /\ 27 <= sig_v decoded.
Proof.
  destruct (fromRpcSig (bufferToHex (repeat x11 32 ++ repeat x22 32 ++ [x00])))
    as [decoded|e] eqn:Hdec; [|vm_compute in Hdec; discriminate Hdec].
  exists decoded. split; [reflexivity|].
  destruct (fromRpcSig_result_shape _ _ Hdec) as (Hr & Hs & Hv & _).
  split; [exact Hr|]. split; [exact Hs | exact Hv].
Defined.

(** X6: [toCompactSig] keeps the parity only of an [s] that is 32 bytes
    long. It sets the top bit of the first byte of [s] before [s] is
    padded; for an [s] shorter than 32 bytes and any [v] that normalizes
    to 0 or 1, [fromRpcSig] of the compact encoding returns the recovery
    identifier 0 and [v = 27], and as [s] the padded [s] with that bit
    still set when [toCompactSig] had set it. *)
Theorem toCompactSig_short_s_loses_parity (v : Z) (r s : Buffer) :
  isValidSigRecovery (calculateSigRecovery v) = true ->
  (length s < 32)%nat ->
  (let* sig := toCompactSig v r s in fromRpcSig sig)
  = Ok {| sig_v := 27;
          sig_r := setLengthLeft r 32;
          sig_s := setLengthLeft
                     (if ((28 <? v) && (Z.rem v 2 =? 1)) || (v =? 1) || (v =? 28)
                      then orFirst 0x80 s else s) 32;
          sig_recovery := 0 |}.
Proof.
  intros Hvalid Hshort.
  rewrite (toCompactSig_valid v r s Hvalid). cbn [bind].
  set (ss := if ((28 <? v) && (Z.rem v 2 =? 1)) || (v =? 1) || (v =? 28)
             then orFirst 0x80 s else s).
  assert (Hssl : (length ss < 32)%nat)
    by (subst ss; destruct (_ || _); [rewrite orFirst_length|]; exact Hshort).
  set (r' := setLengthLeft r 32).
  assert (Hr : length r' = 32%nat) by apply setLengthLeft_length.
  assert (Hpad : exists t, setLengthLeft ss 32 = x00 :: t).
  { unfold setLengthLeft. destruct (Nat.ltb_spec (length ss) 32); [|lia].
    destruct (32 - length ss)%nat as [|n] eqn:Hn; [lia|].
    cbn [repeat app]. eexists. reflexivity. }
  destruct Hpad as (t & Hpad).
  assert (Hs : length (setLengthLeft ss 32) = 32%nat) by apply setLengthLeft_length.
  destruct (fromRpcSig_compact _ _ (toBuffer_bufferToHex (r' ++ setLengthLeft ss 32)))
    as (parity & _ & Hparity & Hdec).
  { rewrite length_app. lia. }
  pose proof (slice_head r' (setLengthLeft ss 32)) as Hcr. rewrite Hr in Hcr.
  pose proof (slice_second r' (setLengthLeft ss 32) []) as Hcs.
  rewrite Hr, Hs, app_nil_r in Hcs. cbn [Nat.add] in Hcs.
  pose proof (slice_byte_of_second r' _ x00 t Hpad) as Hone.
  rewrite Hr in Hone. cbn [Nat.add] in Hone.
  rewrite Hone in Hparity. rewrite Hcr, Hcs in Hdec.
  rewrite Hdec, <- Hparity, Hpad. reflexivity.
Qed.

Lemma toCompactSig_short_s_loses_parity_witness :
  (let* sig := toCompactSig 28 (bigEndian 32 1) [x02; x03] in fromRpcSig sig)
  = Ok {| sig_v := 27;
          sig_r := bigEndian 32 1;
          sig_s := repeat x00 30 ++ [x82; x03];
          sig_recovery := 0 |}.
Proof.
  exact (toCompactSig_short_s_loses_parity 28 (bigEndian 32 1) [x02; x03]
           eq_refl ltac:(cbn; lia)).
Defined.

(** ** Validity *)

Lemma isValidSignature_true_iff (v : Z) (r s : Buffer) (h : option bool) :
  isValidSignature v r s h = true
  <-> length r = 32%nat /\ length s = 32%nat
      /\ isValidSigRecovery (calculateSigRecovery v) = true
      /\ 0 < bufferToBigInt r < SECP256K1_ORDER
      /\ 0 < bufferToBigInt s < SECP256K1_ORDER
      /\ (h <> Some false -> bufferToBigInt s < SECP256K1_ORDER_DIV_2).
Proof.
  pose proof (bufferToBigInt_bounds r) as [Hr0 _].
  pose proof (bufferToBigInt_bounds s) as [Hs0 _].
  unfold isValidSignature.
  destruct (Nat.eqb_spec (length r) 32), (Nat.eqb_spec (length s) 32),
    (isValidSigRecovery (calculateSigRecovery v)),
    (Z.eqb_spec (bufferToBigInt r) 0),
    (Z.leb_spec SECP256K1_ORDER (bufferToBigInt r)),
    (Z.eqb_spec (bufferToBigInt s) 0),
    (Z.leb_spec SECP256K1_ORDER (bufferToBigInt s)),
    (Z.leb_spec SECP256K1_ORDER_DIV_2 (bufferToBigInt s));
    cbn [negb orb andb];
    (split; [try discriminate | intros (? & ? & ? & ? & ? & Hs)]);
    try lia; try discriminate;
    destruct h as [[|]|]; cbn [andb];
    try discriminate; try reflexivity; intros;
    repeat split; try lia; try congruence;
    try (assert (bufferToBigInt s < SECP256K1_ORDER_DIV_2)
           by (apply Hs; congruence); lia).
Qed.

(** X7: of a signature and its twin at most one passes the low-[s] rule.
    For [s] and [s'] whose integers add up to the curve order, with the
    same [v] and [r]: if [isValidSignature] accepts [s] by default or with
    [homesteadOrLater = true], it refuses [s']; with
    [homesteadOrLater = false] it accepts a 32-byte [s'] whenever it
    accepts [s]. *)
Theorem isValidSignature_rejects_the_twin (v : Z) (r s s' : Buffer) :
  bufferToBigInt s + bufferToBigInt s' = SECP256K1_ORDER ->
  (isValidSignature v r s None = true -> isValidSignature v r s' None = false)
  /\ (isValidSignature v r s (Some true) = true ->
      isValidSignature v r s' (Some true) = false)
  /\ (length s' = 32%nat -> isValidSignature v r s (Some false) = true ->
      isValidSignature v r s' (Some false) = true).
Proof.
  intro Hsum.
  assert (Hhalf : SECP256K1_ORDER = 2 * SECP256K1_ORDER_DIV_2 + 1) by reflexivity.
  assert (Hlow : forall h, h <> Some false ->
            isValidSignature v r s h = true -> isValidSignature v r s' h = false).
  { intros h Hh Hvalid. apply isValidSignature_true_iff in Hvalid.
    destruct Hvalid as (_ & _ & _ & _ & _ & Hs). specialize (Hs Hh).
    destruct (isValidSignature v r s' h) eqn:Htwin; [|reflexivity].
    apply isValidSignature_true_iff in Htwin.
    destruct Htwin as (_ & _ & _ & _ & _ & Hs'). specialize (Hs' Hh). lia. }
  split; [apply Hlow; discriminate|]. split; [apply Hlow; discriminate|].
  intros Hlen Hvalid. apply isValidSignature_true_iff in Hvalid.
  destruct Hvalid as (Hr & _ & Hv & Hrr & Hss & _).
  apply isValidSignature_true_iff. repeat split; try assumption; try lia.
  intro Hc. now elim Hc.
Qed.

Lemma isValidSignature_rejects_the_twin_witness :
  isValidSignature 27 (bigEndian 32 1) (bigEndian 32 (SECP256K1_ORDER - 5)) None = false
  /\ isValidSignature 27 (bigEndian 32 1) (bigEndian 32 (SECP256K1_ORDER - 5)) (Some false)
     = true.
Proof.
  destruct (isValidSignature_rejects_the_twin 27 (bigEndian 32 1) (bigEndian 32 5)
              (bigEndian 32 (SECP256K1_ORDER - 5)))
    as (Hdefault & _ & Hoff).
  - vm_compute. reflexivity.
  - split.
    + apply Hdefault. vm_compute. reflexivity.
    + apply Hoff; vm_compute; reflexivity.
Defined.

(** X8: a signature [isValidSignature] accepts is one [ecrecover] takes to
    the curve recovery unchanged. When [isValidSignature(v, r, s, _)] is
    true, [v] normalizes to 0 or 1 and [ecrecover(msgHash, v, r, s)] is
    [recoverPublicKey] of [msgHash], the concatenation of [r] and [s] and
    that recovery identifier, less the first byte of its answer: nothing
    is padded or cut, and the invalid-[v] error does not occur. *)
Theorem ecrecover_of_valid_signature
    (recoverPublicKey : Buffer -> Buffer -> Z -> Result Buffer)
    (msgHash : Buffer) (v : Z) (r s : Buffer) (homesteadOrLater : option bool) :
  isValidSignature v r s homesteadOrLater = true ->
  (calculateSigRecovery v = 0 \/ calculateSigRecovery v = 1)
  /\ ecrecover recoverPublicKey msgHash v r s
     = let* senderPubKey :=
         recoverPublicKey msgHash (r ++ s) (calculateSigRecovery v) in
       Ok (skipn 1 senderPubKey).
Proof.
  intro Hvalid. apply isValidSignature_true_iff in Hvalid.
  destruct Hvalid as (Hr & Hs & Hv & _).
  split.
  - unfold isValidSigRecovery in Hv.
    destruct (Z.eqb_spec (calculateSigRecovery v) 0); [now left|].
    destruct (Z.eqb_spec (calculateSigRecovery v) 1); [now right | discriminate].
  - unfold ecrecover. rewrite Hv. cbn [negb].
    rewrite !setLengthLeft_exact by assumption.
    now rewrite concatTo_pair by assumption.
Qed.

Lemma ecrecover_of_valid_signature_witness :
  ecrecover (recoverPublicKey (Externals := exampleExternals noSigned))
    [x0c] 38 (bigEndian 32 1) (bigEndian 32 5)
  = Ok (bigEndian 32 1 ++ bigEndian 32 5).
Proof.
  destruct (ecrecover_of_valid_signature
              (recoverPublicKey (Externals := exampleExternals noSigned))
              [x0c] 38 (bigEndian 32 1) (bigEndian 32 5) None)
    as [_ Hrecover].
  - vm_compute. reflexivity.
  - rewrite Hrecover. reflexivity.
Defined.

(** ** The personal-message hash *)

Lemma decimalDigits_fuel (fuel fuel' n : nat) :
  (n < fuel)%nat -> (n < fuel')%nat -> decimalDigits fuel n = decimalDigits fuel' n.
Proof.
  revert fuel' n. induction fuel as [|g IH]; intros fuel' n Hf Hf'; [lia|].
  destruct fuel' as [|g']; [lia|]. cbn [decimalDigits]. f_equal.
  destruct (Nat.ltb_spec n 10) as [|Hbig]; [reflexivity|].
  assert (n / 10 < n)%nat by (apply Nat.div_lt; lia).
  apply IH; lia.
Qed.

Lemma decimalDigits_length_mono (fuel n m : nat) :
  (n <= m)%nat -> (m < fuel)%nat ->
  (length (decimalDigits fuel n) <= length (decimalDigits fuel m))%nat.
Proof.
  revert n m. induction fuel as [|g IH]; intros n m Hnm Hf; [lia|].
  cbn [decimalDigits length].
  destruct (Nat.ltb_spec n 10) as [Hn|Hn]; [cbn [length]; lia|].
  destruct (Nat.ltb_spec m 10) as [Hm|Hm]; [lia|].
  apply le_n_S. apply IH.
  - apply Nat.Div0.div_le_mono. exact Hnm.
  - assert (m / 10 < m)%nat by (apply Nat.div_lt; lia). lia.
Qed.

(** A longer message has no shorter length in decimal. *)
Lemma decimal_length_mono (n m : nat) :
  (n <= m)%nat -> (String.length (decimal n) <= String.length (decimal m))%nat.
Proof.
  intro Hnm.
  assert (Hlen : forall k, String.length (decimal k) = length (decimalDigits (S k) k)).
  { intro k. unfold decimal. rewrite <- length_rev.
    generalize (rev (decimalDigits (S k) k)). intro l.
    induction l as [|c l IHl]; cbn; [reflexivity | now rewrite IHl]. }
  rewrite !Hlen. rewrite (decimalDigits_fuel (S n) (S m) n) by lia.
  apply decimalDigits_length_mono; lia.
Qed.

Lemma personalMessage_parts (message : Buffer) :
  personalMessage message
  = list_byte_of_string
      (String (ascii_of_nat 25) "Ethereum Signed Message:" ++ String (ascii_of_nat 10) "")
    ++ list_byte_of_string (decimal (length message)) ++ message.
Proof.
  unfold personalMessage. cbn [List.concat]. rewrite app_nil_r.
  reflexivity.
Qed.

Lemma list_byte_of_string_length (s : string) :
  length (list_byte_of_string s) = String.length s.
Proof.
  unfold list_byte_of_string. rewrite length_map.
  induction s as [|c s IH]; cbn; [reflexivity | now rewrite IH].
Qed.

(** X9: the data [hashPersonalMessage] hashes tells messages apart.
    [hashPersonalMessage] is the Keccak hash of the prefix followed by the
    message; that byte string begins with the byte 0x19, and two messages
    that give the same byte string are the same message: the decimal
    length in the prefix leaves no two ways to split it. *)
Theorem hashPersonalMessage_data_tells_messages_apart
    (keccak256 : Buffer -> Buffer) (message1 message2 : Buffer) :
  hashPersonalMessage keccak256 message1 = keccak256 (personalMessage message1)
  /\ hd_error (personalMessage message1) = Some x19
  /\ (personalMessage message1 = personalMessage message2 -> message1 = message2).
Proof.
  split; [reflexivity|]. split; [reflexivity|].
  rewrite !personalMessage_parts. intro H. apply app_inv_head in H.
  assert (Hlen : length message1 = length message2).
  { apply (f_equal (@length byte)) in H.
    rewrite !length_app, !list_byte_of_string_length in H.
    destruct (Nat.lt_trichotomy (length message1) (length message2)) as [Hlt | [Heq | Hgt]].
    - pose proof (decimal_length_mono (length message1) (length message2)). lia.
    - exact Heq.
    - pose proof (decimal_length_mono (length message2) (length message1)). lia. }
  rewrite Hlen in H. now apply app_inv_head in H.
Qed.

Lemma hashPersonalMessage_data_tells_messages_apart_witness :
  personalMessage (repeat x61 12)
  = list_byte_of_string
      (String (ascii_of_nat 25) "Ethereum Signed Message:"
       ++ String (ascii_of_nat 10) "12aaaaaaaaaaaa")
  /\ hd_error (personalMessage (repeat x61 12)) = Some x19
  /\ repeat x61 12 = x61 :: repeat x61 11.
Proof.
  destruct (hashPersonalMessage_data_tells_messages_apart
              (fun b => b) (repeat x61 12) (x61 :: repeat x61 11))
    as (_ & Hfirst & Hsame).
  split; [vm_compute; reflexivity|]. split; [exact Hfirst|].
  apply Hsame. reflexivity.
Defined.

(** ** What the constructor establishes *)

Section BlobTransactionInvariants.
Context {E : Externals}.

Lemma verifyAccessList_ok (accessList : AccessListBuffer) :
  verifyAccessList accessList = Ok tt
  <-> Forall (fun item : AccessListBufferItem =>
                length (fst item) = 20%nat
                /\ Forall (fun key => length key = 32%nat) (snd item))
        accessList.
Proof.
  induction accessList as [|[addr slots] rest IH]; cbn [verifyAccessList].
  - split; [constructor | reflexivity].
  - destruct (Nat.eqb_spec (length addr) 20) as [Ha|Ha]; cbn [negb].
    + destruct (forallb (fun k => (length k =? 32)%nat) slots) eqn:Hs; cbn [negb].
      * rewrite IH. rewrite forallb_forall in Hs. split.
        -- intro H. constructor; [|exact H]. cbn [fst snd]. split; [exact Ha|].
           apply Forall_forall. intros k Hk. apply Nat.eqb_eq. now apply Hs.
        -- intro H. now inversion H.
      * split; [discriminate|]. intro H. inversion H as [|? ? [_ Hkeys] _]; subst.
        cbn [snd] in Hkeys. rewrite Forall_forall in Hkeys.
        assert (forallb (fun k => (length k =? 32)%nat) slots = true).
        { apply forallb_forall. intros k Hk. apply Nat.eqb_eq. now apply Hkeys. }
        congruence.
    + split; [discriminate|]. intro H. inversion H as [|? ? [Hlen _] _]; subst.
      cbn [fst] in Hlen. contradiction.
Qed.

Lemma checkSignatureAndInitCode_ok (p : Parsed Common) :
  checkSignatureAndInitCode p = Ok tt
  <-> _validateYParity (b_v (p_base p)) = Ok tt
      /\ _validateHighS (p_common p) (b_s (p_base p)) = Ok tt
      /\ (isActivatedEIP (p_common p) 3860 = true ->
          checkMaxInitCodeSize (p_common p) (length (b_data (p_base p))) = Ok tt).
Proof.
  unfold checkSignatureAndInitCode.
  destruct (_validateYParity (b_v (p_base p))) as [[]|e1]; cbn [bind];
    [|split; [discriminate | intros (H & _); discriminate]].
  destruct (_validateHighS (p_common p) (b_s (p_base p))) as [[]|e2]; cbn [bind];
    [|split; [discriminate | intros (_ & H & _); discriminate]].
  destruct (isActivatedEIP (p_common p) 3860).
  - split; [intro H; repeat split; intros; assumption | intros (_ & _ & H); now apply H].
  - split; [intros _; repeat split; intro; discriminate | reflexivity].
Qed.

(** X10: what holds of every transaction the constructor returns. Its
    chain id is that of its [Common], on which EIP-1559 is active; its
    capabilities are 1559, 2718, 2930 and 4844; nonce, gas limit, value
    and both fees lie between 0 and [MAX_INTEGER], the priority fee is at
    most the fee and [gasLimit * maxFeePerGas] at most [MAX_INTEGER]; [to]
    is absent or 20 bytes long; [v] is absent, 0 or 1; [r] and [s], when
    present, lie between 0 and [MAX_INTEGER], and [s] passes the high-s
    check; every access-list entry has a 20-byte address and 32-byte
    storage keys; every versioned hash is well formed and there are at
    most [LIMIT_BLOBS_PER_TX] of them. *)
Theorem constructor_invariants (txData : BlobEIP4844TxData) (opts : TxOptions Common)
    (tx : BlobEIP4844Transaction Common) :
  constructor txData opts = Ok tx ->
  tx_chainId tx = Common_chainId (tx_common tx)
  /\ isActivatedEIP (tx_common tx) 1559 = true
  /\ tx_activeCapabilities tx = [1559; 2718; 2930; 4844]
  /\ 0 <= tx_nonce tx <= MAX_INTEGER
  /\ 0 <= tx_gasLimit tx <= MAX_INTEGER
  /\ 0 <= tx_value tx <= MAX_INTEGER
  /\ 0 <= tx_maxPriorityFeePerGas tx <= tx_maxFeePerGas tx
  /\ tx_maxFeePerGas tx <= MAX_INTEGER
  /\ tx_gasLimit tx * tx_maxFeePerGas tx <= MAX_INTEGER
  /\ match tx_to tx with Some a => length a = 20%nat | None => True end
  /\ (tx_v tx = None \/ tx_v tx = Some 0 \/ tx_v tx = Some 1)
  /\ match tx_r tx with Some r => 0 <= r <= MAX_INTEGER | None => True end
  /\ match tx_s tx with Some s => 0 <= s <= MAX_INTEGER | None => True end
  /\ _validateHighS (tx_common tx) (tx_s tx) = Ok tt
  /\ Forall (fun item : AccessListBufferItem =>
               length (fst item) = 20%nat
               /\ Forall (fun key => length key = 32%nat) (snd item))
       (tx_accessList tx)
  /\ Forall isVersionedHash (tx_versionedHashes tx)
  /\ Z.of_nat (length (tx_versionedHashes tx)) <= LIMIT_BLOBS_PER_TX.
Proof.
  intro Htx.
  destruct (constructor_inv _ _ _ Htx) as (p & Hp & Hfees & Hsig & Hhashes & ->).
  destruct (parseFields_inv _ _ _ Hp)
    as (Hbase & _ & H1559 & _ & Hverify & _ & Hprio & Hfeemax & _).
  destruct (BaseTransaction_constructor_inv _ _ Hbase)
    as (_ & _ & _ & _ & _ & _ & _ & Hto & Bn & Bg & Bval & _ & Br & Bs).
  apply toBigInt_inv in Hprio. destruct Hprio as [Bprio _].
  apply checkFees_ok in Hfees. destruct Hfees as [Hprod Horder].
  apply checkSignatureAndInitCode_ok in Hsig. destruct Hsig as (Hparity & Hhigh & _).
  apply validateYParity_ok in Hparity.
  apply checkVersionedHashes_ok in Hhashes. destruct Hhashes as [Hgood Hcount].
  apply verifyAccessList_ok in Hverify.
  fields.
  split; [reflexivity|]. split; [exact H1559|]. split; [reflexivity|].
  split; [exact Bn|]. split; [exact Bg|]. split; [exact Bval|].
  split; [lia|]. split; [exact Hfeemax|]. split; [exact Hprod|].
  split; [destruct (b_to (p_base p)); [apply Hto | exact I]|].
  split; [exact Hparity|]. split; [exact Br|]. split; [exact Bs|].
  split; [exact Hhigh|]. split; [exact Hverify|]. split; assumption.
Qed.

Lemma toBigInt_default (x : option Z) :
  match x with Some z => 0 <= z | None => True end ->
  toBigInt x = Ok (match x with Some z => z | None => 0 end).
Proof. destruct x as [z|]; [apply toBigInt_some | reflexivity]. Qed.

(** X11: what the constructor asks beyond its base class, and what it then
    makes of the data. When the constructor of [BaseTransaction] accepts
    the data, [_getCommon] gives a [Common] with EIP-1559 active, the
    access list is well formed, the two fees, where present, lie between
    0 and [MAX_INTEGER], the gas limit times the fee is at most
    [MAX_INTEGER] and the priority fee at most the fee, [v] is absent, 0
    or 1, the high-s and init-code checks pass and the versioned hashes
    are well formed and within the limit, then the constructor returns
    the transaction that holds the fields of the base class, that
    [Common], and the fees, access list and versioned hashes as given,
    with 0 for an absent fee and the empty list for an absent access
    list. *)
Theorem constructor_accepts (txData : BlobEIP4844TxData) (opts : TxOptions Common)
    (base : BaseFields) (common : Common) :
  BaseTransaction_constructor txData = Ok base ->
  _getCommon (opt_common opts) (td_chainId txData) = Ok common ->
  isActivatedEIP common 1559 = true ->
  Forall (fun item : AccessListBufferItem =>
            length (fst item) = 20%nat
            /\ Forall (fun key => length key = 32%nat) (snd item))
    (match td_accessList txData with Some l => l | None => [] end) ->
  match td_maxFeePerGas txData with Some z => 0 <= z <= MAX_INTEGER | None => True end ->
  match td_maxPriorityFeePerGas txData with
  | Some z => 0 <= z <= MAX_INTEGER
  | None => True
  end ->
  b_gasLimit base * match td_maxFeePerGas txData with Some z => z | None => 0 end
  <= MAX_INTEGER ->
  match td_maxPriorityFeePerGas txData with Some z => z | None => 0 end
  <= match td_maxFeePerGas txData with Some z => z | None => 0 end ->
  b_v base = None \/ b_v base = Some 0 \/ b_v base = Some 1 ->
  _validateHighS common (b_s base) = Ok tt ->
  (isActivatedEIP common 3860 = true ->
   checkMaxInitCodeSize common (length (b_data base)) = Ok tt) ->
  Forall isVersionedHash (td_versionedHashes txData) ->
  Z.of_nat (length (td_versionedHashes txData)) <= LIMIT_BLOBS_PER_TX ->
  constructor txData opts
  = Ok {| tx_nonce := b_nonce base;
          tx_gasLimit := b_gasLimit base;
          tx_to := b_to base;
          tx_value := b_value base;
          tx_data := b_data base;
          tx_v := b_v base;
          tx_r := b_r base;
          tx_s := b_s base;
          tx_common := common;
          tx_chainId := Common_chainId common;
          tx_accessList := match td_accessList txData with Some l => l | None => [] end;
          tx_maxPriorityFeePerGas :=
            match td_maxPriorityFeePerGas txData with Some z => z | None => 0 end;
          tx_maxFeePerGas := match td_maxFeePerGas txData with Some z => z | None => 0 end;
          tx_maxFeePerDataGas := td_maxFeePerDataGas txData;
          tx_versionedHashes := td_versionedHashes txData;
          tx_activeCapabilities := [1559; 2718; 2930; 4844];
          tx_frozen := match opt_freeze opts with Some b => b | None => true end |}.
Proof.
  intros Hbase Hcommon H1559 Hal Bfee Bprio Hprod Horder Hv Hhigh Hinit Hgood Hcount.
  assert (Hparse : parseFields txData opts
            = Ok {| p_base := base;
                    p_common := common;
                    p_accessList :=
                      match td_accessList txData with Some l => l | None => [] end;
                    p_maxFeePerGas :=
                      match td_maxFeePerGas txData with Some z => z | None => 0 end;
                    p_maxPriorityFeePerGas :=
                      match td_maxPriorityFeePerGas txData with
                      | Some z => z
                      | None => 0
                      end |}).
  { unfold parseFields. rewrite Hbase. cbn [bind]. rewrite Hcommon. cbn [bind].
    rewrite H1559. cbn [negb]. cbv zeta.
    match goal with
    | |- context [verifyAccessList ?l] => rewrite (proj2 (verifyAccessList_ok l) Hal)
    end.
    cbn [bind].
    rewrite (toBigInt_default (td_maxFeePerGas txData))
      by (destruct (td_maxFeePerGas txData); [lia | exact I]).
    rewrite (toBigInt_default (td_maxPriorityFeePerGas txData))
      by (destruct (td_maxPriorityFeePerGas txData); [lia | exact I]).
    cbn [bind].
    rewrite (proj2 (validateCannotExceedMaxInteger_ok _)); [reflexivity|].
    repeat constructor.
    - destruct (td_maxFeePerGas txData); [lia | unfold MAX_INTEGER; lia].
    - destruct (td_maxPriorityFeePerGas txData); [lia | unfold MAX_INTEGER; lia]. }
  rewrite (constructor_run _ _ _ Hparse).
  rewrite (proj2 (checkFees_ok _)) by (fields; split; assumption).
  cbn [bind].
  rewrite (proj2 (checkSignatureAndInitCode_ok _)).
  2:{ fields. split; [now apply validateYParity_ok|]. split; assumption. }
  cbn [bind].
  rewrite (proj2 (checkVersionedHashes_ok _)) by (split; assumption).
  reflexivity.
Qed.

End BlobTransactionInvariants.

Lemma constructor_invariants_witness :
  exists tx,
    constructor (E := exampleExternals noSigned)
      (exampleTxData 21000 100 10 [exampleHash x0a] (Some (1, 5, 6))) noOptions = Ok tx
    /\ 0 <= tx_maxPriorityFeePerGas tx <= tx_maxFeePerGas tx
    /\ tx_gasLimit tx * tx_maxFeePerGas tx <= MAX_INTEGER
    /\ (tx_v tx = None \/ tx_v tx = Some 0 \/ tx_v tx = Some 1)
    /\ Forall (isVersionedHash (E := exampleExternals noSigned)) (tx_versionedHashes tx).
Proof.
  destruct (constructor (E := exampleExternals noSigned)
              (exampleTxData 21000 100 10 [exampleHash x0a] (Some (1, 5, 6))) noOptions)
    as [tx|e] eqn:Htx; [|vm_compute in Htx; discriminate Htx].
  exists tx. split; [reflexivity|].
  destruct (constructor_invariants (E := exampleExternals noSigned) _ _ _ Htx)
    as (_ & _ & _ & _ & _ & _ & Hprio & _ & Hprod & _ & Hv & _ & _ & _ & _ & Hgood & _).
  split; [exact Hprio|]. split; [exact Hprod|]. split; [exact Hv | exact Hgood].
Defined.

Lemma constructor_accepts_witness :
  exists tx,
    constructor (E := exampleExternals noSigned)
      (exampleTxData 21000 100 10 [exampleHash x0a] None) noOptions = Ok tx
    /\ tx_gasLimit tx = 21000
    /\ tx_to tx = Some exampleAddress
    /\ tx_maxPriorityFeePerGas tx = 10
    /\ tx_versionedHashes tx = [exampleHash x0a]
    /\ tx_frozen tx = true.
Proof.
  eexists. split.
  - apply (constructor_accepts (E := exampleExternals noSigned)
             (exampleTxData 21000 100 10 [exampleHash x0a] None) noOptions
             {| b_nonce := 7; b_gasLimit := 21000; b_to := Some exampleAddress;
                b_value := 1000; b_data := [x0a; x0b];
                b_v := None; b_r := None; b_s := None |}
             {| ec_chainId := 1; ec_eips := [1559; 2718; 2930; 4844] |}).
    + vm_compute. reflexivity.
    + reflexivity.
    + reflexivity.
    + repeat constructor.
    + cbn. unfold MAX_INTEGER. lia.
    + cbn. unfold MAX_INTEGER. lia.
    + cbn. unfold MAX_INTEGER. lia.
    + cbn. lia.
    + left. reflexivity.
    + reflexivity.
    + intro H3860. vm_compute in H3860. discriminate H3860.
    + repeat constructor.
    + cbn. lia.
  - repeat split.
Defined.

(** ** Decoding a serialized transaction *)

Section Decoding.
Context {E : Externals}.

Lemma decodedTxData_inv (decoded : SignedBlobTransaction) (txData : BlobEIP4844TxData) :
  decodedTxData decoded = Ok txData ->
  td_gasLimit txData = None
  /\ td_maxPriorityFeePerGas txData = None
  /\ td_to txData = to_value (m_to (message decoded))
  /\ match td_to txData with Some a => length a = 20%nat | None => True end
  /\ td_chainId txData = Some (m_chainId (message decoded))
  /\ td_nonce txData = Some (m_nonce (message decoded))
  /\ td_value txData = Some (m_value (message decoded))
  /\ td_data txData = Some (m_data (message decoded))
  /\ td_accessList txData
     = Some (map (fun listItem => (address listItem, storageKeys listItem))
               (m_accessList (message decoded)))
  /\ td_maxFeePerGas txData = Some (m_maxFeePerGas (message decoded))
  /\ td_maxFeePerDataGas txData = m_maxFeePerDataGas (message decoded)
  /\ td_versionedHashes txData = m_blobVersionedHashes (message decoded)
  /\ td_v txData = Some (if yParity (signature decoded) then 1 else 0)
  /\ td_r txData = Some (ssz_r (signature decoded))
  /\ td_s txData = Some (ssz_s (signature decoded)).
Proof.
  unfold decodedTxData. intro H. apply bind_ok_inv in H.
  destruct H as (to & Hto & H). apply Ok_inj in H. subst txData. fields.
  assert (Hto' : to = to_value (m_to (message decoded))
                 /\ match to with Some a => length a = 20%nat | None => True end).
  { destruct (to_value (m_to (message decoded))) as [value|].
    - destruct (Nat.eqb_spec (length value) 20) as [Hlen|]; [|discriminate].
      apply Ok_inj in Hto. subst to. now split.
    - apply Ok_inj in Hto. subst to. now split. }
  destruct Hto' as [Hto1 Hto2]. rewrite map_id.
  repeat split; try reflexivity; assumption.
Qed.

(** X12: what [fromSerializedTx] returns, whatever bytes it is given.
    Every transaction it returns is signed, with [r] and [s] as decoded
    and [v] 0 or 1 by the decoded parity; its gas limit and its priority
    fee are 0, whatever the decoded message holds under [gas] and
    [priorityFeePerGas]; nonce, fee, value, data, [to], access list,
    versioned hashes and data-gas fee are those of the decoded message. *)
Theorem fromSerializedTx_result_shape (serialized : Buffer)
    (opts : option (TxOptions Common)) (tx : BlobEIP4844Transaction Common) :
  fromSerializedTx serialized opts = Ok tx ->
  exists decoded,
    SignedBlobTransactionType_deserialize (skipn 1 serialized) = Ok decoded
    /\ isSigned tx = true
    /\ tx_v tx = Some (if yParity (signature decoded) then 1 else 0)
    /\ tx_r tx = Some (ssz_r (signature decoded))
    /\ tx_s tx = Some (ssz_s (signature decoded))
    /\ tx_gasLimit tx = 0
    /\ tx_maxPriorityFeePerGas tx = 0
    /\ tx_nonce tx = m_nonce (message decoded)
    /\ tx_maxFeePerGas tx = m_maxFeePerGas (message decoded)
    /\ tx_value tx = m_value (message decoded)
    /\ tx_data tx = m_data (message decoded)
    /\ tx_to tx = to_value (m_to (message decoded))
    /\ tx_accessList tx
       = map (fun listItem => (address listItem, storageKeys listItem))
           (m_accessList (message decoded))
    /\ tx_versionedHashes tx = m_blobVersionedHashes (message decoded)
    /\ tx_maxFeePerDataGas tx = m_maxFeePerDataGas (message decoded).
Proof.
  unfold fromSerializedTx. intro H.
  apply bind_ok_inv in H. destruct H as (decoded & Hdec & H).
  apply bind_ok_inv in H. destruct H as (txData & Hdata & Htx).
  destruct (decodedTxData_inv _ _ Hdata)
    as (Dg & Dp & Dto & Dlen & _ & Dn & Dval & Dd & Dal & Dfee & Ddf & Dh & Dv & Dr & Ds).
  destruct (constructor_inv _ _ _ Htx) as (p & Hp & _ & _ & _ & ->).
  destruct (parseFields_inv _ _ _ Hp) as (Hbase & _ & _ & Hal & _ & Hfee & Hprio & _).
  destruct (BaseTransaction_constructor_inv _ _ Hbase)
    as (Hn & Hg & Hval & Hd & Hv & Hr & Hs & Hto & _).
  rewrite Dn in Hn. rewrite Dg in Hg. rewrite Dval in Hval. rewrite Dd in Hd.
  rewrite Dv in Hv. rewrite Dr in Hr. rewrite Ds in Hs. rewrite Dal in Hal.
  rewrite Dfee in Hfee. rewrite Dp in Hprio.
  apply toBigInt_inv in Hn, Hg, Hval, Hfee, Hprio.
  destruct Hn as [_ [Hn | [Hn _]]]; [|discriminate Hn].
  destruct Hg as [_ [Hg | [_ Hg]]]; [discriminate Hg|].
  destruct Hval as [_ [Hval | [Hval _]]]; [|discriminate Hval].
  destruct Hfee as [_ [Hfee | [Hfee _]]]; [|discriminate Hfee].
  destruct Hprio as [_ [Hprio | [_ Hprio]]]; [discriminate Hprio|].
  exists decoded. fields.
  split; [exact Hdec|].
  assert (Hsigned : isSigned
            {| tx_nonce := b_nonce (p_base p); tx_gasLimit := b_gasLimit (p_base p);
               tx_to := b_to (p_base p); tx_value := b_value (p_base p);
               tx_data := b_data (p_base p); tx_v := b_v (p_base p);
               tx_r := b_r (p_base p); tx_s := b_s (p_base p);
               tx_common := p_common p; tx_chainId := Common_chainId (p_common p);
               tx_accessList := p_accessList p;
               tx_maxPriorityFeePerGas := p_maxPriorityFeePerGas p;
               tx_maxFeePerGas := p_maxFeePerGas p;
               tx_maxFeePerDataGas := td_maxFeePerDataGas txData;
               tx_versionedHashes := td_versionedHashes txData;
               tx_activeCapabilities := [1559; 2718; 2930; 4844];
               tx_frozen := match opt_freeze (optionsOrDefault opts) with
                            | Some b => b
                            | None => true
                            end |} = true).
  { unfold isSigned. fields. now rewrite Hv, Hr, Hs. }
  split; [exact Hsigned|].
  split; [exact Hv|]. split; [exact Hr|]. split; [exact Hs|].
  split; [exact Hg|]. split; [exact Hprio|].
  split; [congruence|]. split; [congruence|]. split; [congruence|].
  split; [congruence|].
  split.
  { rewrite Dto in Hto, Dlen.
    destruct (b_to (p_base p)) as [a|]; [symmetry; apply Hto|].
    destruct Hto as [Hto | Hto]; [now rewrite Hto|].
    rewrite Hto in Dlen. discriminate Dlen. }
  split; [exact Hal|]. split; [exact Dh | exact Ddf].
Qed.

(** X13: the type byte is written and never read. [serialize] puts the
    byte 0x05 in front of the SSZ bytes; [fromSerializedTx] drops the
    first byte of its input without looking at it, so an input with any
    other first byte decodes as the same transaction, and an input of one
    byte as the empty input. *)
Theorem type_byte_written_never_read :
  (forall tx : BlobEIP4844Transaction Common,
      serialize tx
      = let* sszEncodedTx := SignedBlobTransactionType_serialize (sszValue tx) in
        Ok (byteOfZ TRANSACTION_TYPE :: sszEncodedTx))
  /\ (forall (first other : byte) (rest : Buffer) (opts : option (TxOptions Common)),
         fromSerializedTx (first :: rest) opts = fromSerializedTx (other :: rest) opts)
  /\ (forall (first : byte) (opts : option (TxOptions Common)),
         fromSerializedTx [first] opts = fromSerializedTx [] opts).
Proof.
  split; [|split; reflexivity].
  intro tx. unfold serialize.
  destruct (SignedBlobTransactionType_serialize (sszValue tx)); cbn [bind List.concat];
    [|reflexivity].
  now rewrite app_nil_r.
Qed.

End Decoding.

Lemma fromSerializedTx_result_shape_witness :
  exists tx,
    fromSerializedTx (E := exampleExternals (exampleSszValue (Some (1, 5, 6))))
      (xff :: exampleLayout (exampleSszValue (Some (1, 5, 6)))) None = Ok tx
    /\ isSigned tx = true
    /\ tx_gasLimit tx = 0
    /\ tx_maxPriorityFeePerGas tx = 0
    /\ tx_nonce tx = 7.
Proof.
  destruct (fromSerializedTx (E := exampleExternals (exampleSszValue (Some (1, 5, 6))))
              (xff :: exampleLayout (exampleSszValue (Some (1, 5, 6)))) None)
    as [tx|e] eqn:Htx; [|vm_compute in Htx; discriminate Htx].
  exists tx. split; [reflexivity|].
  destruct (fromSerializedTx_result_shape
              (E := exampleExternals (exampleSszValue (Some (1, 5, 6)))) _ _ _ Htx)
    as (decoded & Hdec & Hsigned & _ & _ & _ & Hgas & Hprio & Hnonce & _).
  split; [exact Hsigned|]. split; [exact Hgas|]. split; [exact Hprio|].
  rewrite Hnonce. vm_compute in Hdec. injection Hdec as <-. reflexivity.
Defined.

(** ** The network wrapper *)

Section NetworkWrapper.
Context {E : Externals}.
Variable deserialize : Buffer -> Result BlobNetworkTransactionWrapperValue.

(** X14: when the network form is refused for its shape.
    [fromSerializedBlobTxNetworkWrapper] raises the not-all-equal error
    exactly when the wrapper decodes and the numbers of its versioned
    hashes, blobs and commitments are not all equal; the test comes
    before the transaction is looked at, and no other failure is reported
    as this one. *)
Theorem fromSerializedBlobTxNetworkWrapper_not_all_equal (serialized : Buffer)
    (opts : option (TxOptions Common)) :
  fromSerializedBlobTxNetworkWrapper deserialize serialized opts = Raised NotAllEqual
  <-> exists wrapper,
        deserialize (skipn 1 serialized) = Ok wrapper
        /\ ~ (length (m_blobVersionedHashes (message (w_tx wrapper)))
              = length (w_blobs wrapper)
              /\ length (w_blobs wrapper) = length (w_blobKzgs wrapper)).
Proof.
  unfold fromSerializedBlobTxNetworkWrapper, validateBlobTransactionNetworkWrapper.
  destruct (deserialize (skipn 1 serialized)) as [wrapper|e]; cbn [inherit andThen].
  - destruct (Nat.eqb_spec (length (m_blobVersionedHashes (message (w_tx wrapper))))
                (length (w_blobs wrapper))) as [H1|H1];
      destruct (Nat.eqb_spec (length (w_blobs wrapper)) (length (w_blobKzgs wrapper)))
        as [H2|H2]; cbn [andb negb andThen].
    + split.
      * destruct (let* txData := decodedTxData (w_tx wrapper) in
                  constructor txData (optionsOrDefault opts)); discriminate.
      * intros (w & Hw & Hne). apply Ok_inj in Hw. subst w. elim Hne. now split.
    + split; [|reflexivity]. intros _. exists wrapper. split; [reflexivity|].
      intros [_ H]. contradiction.
    + split; [|reflexivity]. intros _. exists wrapper. split; [reflexivity|].
      intros [H _]. contradiction.
    + split; [|reflexivity]. intros _. exists wrapper. split; [reflexivity|].
      intros [H _]. contradiction.
  - split; [discriminate|]. intros (w & Hw & _). discriminate.
Qed.

(** X15: the network form builds the transaction of the minimal form.
    When the wrapper decodes with as many blobs and commitments as
    versioned hashes, [fromSerializedBlobTxNetworkWrapper] ends as
    [fromSerializedTx] does on bytes that decode to the wrapper's signed
    transaction: the blobs, the commitments and the proof take no part in
    what is built. *)
Theorem fromSerializedBlobTxNetworkWrapper_as_minimal (serialized minimal : Buffer)
    (opts : option (TxOptions Common)) (wrapper : BlobNetworkTransactionWrapperValue) :
  deserialize (skipn 1 serialized) = Ok wrapper ->
  length (m_blobVersionedHashes (message (w_tx wrapper))) = length (w_blobs wrapper) ->
  length (w_blobs wrapper) = length (w_blobKzgs wrapper) ->
  SignedBlobTransactionType_deserialize (skipn 1 minimal) = Ok (w_tx wrapper) ->
  fromSerializedBlobTxNetworkWrapper deserialize serialized opts
  = inherit (fromSerializedTx minimal opts).
Proof.
  intros Hw H1 H2 Hmin.
  unfold fromSerializedBlobTxNetworkWrapper, validateBlobTransactionNetworkWrapper,
    fromSerializedTx.
  rewrite Hw, Hmin. cbn [inherit andThen bind]. cbv zeta.
  rewrite H1, H2, !Nat.eqb_refl. reflexivity.
Qed.

End NetworkWrapper.
Lemma fromSerializedBlobTxNetworkWrapper_as_minimal_witness :
  exists tx,
    fromSerializedTx (E := exampleExternals (exampleSszValue (Some (1, 5, 6))))
      (x05 :: exampleLayout (exampleSszValue (Some (1, 5, 6)))) None = Ok tx
    /\ fromSerializedBlobTxNetworkWrapper
         (E := exampleExternals (exampleSszValue (Some (1, 5, 6))))
         (exampleWrapperDeserialize
            (exampleWrapper (exampleSszValue (Some (1, 5, 6))) [[7; 8]]))
         (x05 :: exampleWrapperLayout
                   (exampleWrapper (exampleSszValue (Some (1, 5, 6))) [[7; 8]]))
         None
       = Returned tx.
Proof.
  destruct (fromSerializedTx (E := exampleExternals (exampleSszValue (Some (1, 5, 6))))
              (x05 :: exampleLayout (exampleSszValue (Some (1, 5, 6)))) None)
    as [tx|e] eqn:Htx; [|vm_compute in Htx; discriminate Htx].
  exists tx. split; [reflexivity|].
  rewrite (fromSerializedBlobTxNetworkWrapper_as_minimal
             (E := exampleExternals (exampleSszValue (Some (1, 5, 6))))
             (exampleWrapperDeserialize
                (exampleWrapper (exampleSszValue (Some (1, 5, 6))) [[7; 8]]))
             (x05 :: exampleWrapperLayout
                       (exampleWrapper (exampleSszValue (Some (1, 5, 6))) [[7; 8]]))
             (x05 :: exampleLayout (exampleSszValue (Some (1, 5, 6)))) None
             (exampleWrapper (exampleSszValue (Some (1, 5, 6))) [[7; 8]])).
  - rewrite Htx. reflexivity.
  - vm_compute. reflexivity.
  - reflexivity.
  - reflexivity.
  - vm_compute. reflexivity.
Defined.

(** ** The verkle state manager: checkpoints *)

Section VerkleCheckpoints.
Import Verkle.
Variable VerkleState : Type.
Variable Base : Type.
Variables super_checkpoint super_commit super_revert : Base -> Base * option VerkleError.

Lemma pop_push {A : Type} (l : list A) (x : A) : pop (l ++ [x]) = (Some x, l).
Proof. unfold pop. rewrite rev_app_distr. cbn. now rewrite rev_involutive. Qed.

Lemma pop_empty {A : Type} (l : list A) (rest : list A) :
  pop l = (None, rest) -> l = [] /\ rest = [].
Proof.
  unfold pop. destruct (rev l) as [|x r] eqn:Hrev; [|discriminate].
  intro H. injection H as <-. split; [|reflexivity].
  apply (f_equal (@rev A)) in Hrev. now rewrite rev_involutive in Hrev.
Qed.

Lemma pop_some {A : Type} (l : list A) (x : A) (rest : list A) :
  pop l = (Some x, rest) -> l = rest ++ [x].
Proof.
  unfold pop. destruct (rev l) as [|y r] eqn:Hrev; [discriminate|].
  intro H. injection H as <- <-.
  apply (f_equal (@rev A)) in Hrev. rewrite rev_involutive in Hrev. exact Hrev.
Qed.

(** X16: [revert] undoes [checkpoint]. After [checkpoint] and then
    [revert], the state and the list of checkpoints are what they were
    before, and so are the pre-state and the proof; this [revert] does not
    raise the no-checkpoints error of its own, it ends as the base class's
    [revert] does. This holds whether or not the base class's
    [checkpoint] threw: the checkpoint is pushed before it is called. *)
Theorem revert_undoes_checkpoint (m : Manager VerkleState Base) :
  let checked := fst (checkpoint super_checkpoint m) in
  let reverted := fst (revert super_revert checked) in
  _state reverted = _state m
  /\ _checkpoints reverted = _checkpoints m
  /\ _preState reverted = _preState m
  /\ _proof reverted = _proof m
  /\ snd (revert super_revert checked) = snd (super_revert (base checked)).
Proof.
  unfold checkpoint, revert.
  destruct (super_checkpoint (base m)) as [b e]. cbn [fst _checkpoints _state base].
  rewrite pop_push. cbn [_proof _preState _state _checkpoints base].
  destruct (super_revert b) as [b' e']. cbn. repeat split.
Qed.

(** X17: [commit] drops the checkpoint that [checkpoint] pushed and keeps
    the state: after [checkpoint] and then [commit], the list of
    checkpoints, the state, the pre-state and the proof are what they were
    before. *)
Theorem commit_drops_checkpoint (m : Manager VerkleState Base) :
  let checked := fst (checkpoint super_checkpoint m) in
  let committed := fst (commit super_commit checked) in
  _state committed = _state m
  /\ _checkpoints committed = _checkpoints m
  /\ _preState committed = _preState m
  /\ _proof committed = _proof m.
Proof.
  unfold checkpoint, commit.
  destruct (super_checkpoint (base m)) as [b e]. cbn [fst _checkpoints _state base].
  rewrite pop_push. cbn [_proof _preState _state _checkpoints base].
  destruct (super_commit b) as [b' e']. cbn. repeat split.
Qed.

(** X18: without a checkpoint, [revert] raises the no-checkpoints error
    and leaves the instance as it was, the base class not being called;
    [commit] raises no error of its own there: it leaves the list of
    checkpoints empty and the state as it was, and ends as the base
    class's [commit] does. *)
Theorem revert_needs_a_checkpoint (m : Manager VerkleState Base) :
  _checkpoints m = [] ->
  revert super_revert m = (m, Some NoCheckpointsSet)
  /\ _checkpoints (fst (commit super_commit m)) = []
  /\ _state (fst (commit super_commit m)) = _state m
  /\ snd (commit super_commit m) = snd (super_commit (base m)).
Proof.
  intro Hempty. unfold revert, commit. rewrite Hempty. cbn [pop rev].
  destruct (super_commit (base m)) as [b e]. cbn. repeat split.
Qed.

(** X19: the class never makes a state of its own. Whatever calls of
    [initPreState], [checkpoint], [commit] and [revert] are made, in any
    order and whether or not they are rejected, the state and every
    checkpoint of the instance is the state or a checkpoint it started
    with or a pre-state given to [initPreState]; without a call of
    [initPreState] the pre-state and the proof stay as they were. *)
Theorem callAll_keeps_to_given_states (calls : list (Call VerkleState))
    (m : Manager VerkleState Base) :
  let given :=
    _state m :: _checkpoints m
      ++ flat_map (fun c => match c with
                            | CallInitPreState _ preState => [preState]
                            | _ => []
                            end) calls in
  let m' := callAll super_checkpoint super_commit super_revert calls m in
  In (_state m') given
  /\ Forall (fun s => In s given) (_checkpoints m')
  /\ (Forall (fun c => match c with CallInitPreState _ _ => False | _ => True end) calls ->
      _preState m' = _preState m /\ _proof m' = _proof m).
Proof.
  cbv zeta. revert m. induction calls as [|c calls IH]; intro m.
  - cbn [callAll fold_left flat_map]. rewrite app_nil_r. split; [now left|]. split.
    + apply Forall_forall. intros s Hs. now right.
    + intros _. now split.
  - change (callAll super_checkpoint super_commit super_revert (c :: calls) m)
      with (callAll super_checkpoint super_commit super_revert calls
              (fst (call super_checkpoint super_commit super_revert c m))).
    set (m1 := fst (call super_checkpoint super_commit super_revert c m)).
    destruct (IH m1) as (Hstate & Hchecks & Hframe).
    assert (Hm1 : (forall s, In s (_state m1 :: _checkpoints m1) ->
                     In s (_state m :: _checkpoints m
                           ++ match c with
                              | CallInitPreState _ preState => [preState]
                              | _ => []
                              end))
                  /\ (match c with CallInitPreState _ _ => False | _ => True end ->
                      _preState m1 = _preState m /\ _proof m1 = _proof m)).
    { subst m1. destruct c as [proof preState| | |]; cbn [call].
      - unfold initPreState. cbn [fst _state _checkpoints]. split; [|intros []].
        intros s [<- | Hs]; right; apply in_or_app; [right; now left | now left].
      - unfold checkpoint. destruct (super_checkpoint (base m)) as [b e].
        cbn [fst _state _checkpoints _preState _proof]. split; [|now split].
        rewrite app_nil_r. intros s [<- | Hs]; [now left|].
        apply in_app_or in Hs. destruct Hs as [Hs | [<- | []]]; [now right | now left].
      - unfold commit. destruct (pop (_checkpoints m)) as [[top|] rest] eqn:Hpop;
          destruct (super_commit (base m)) as [b e];
          cbn [fst _state _checkpoints _preState _proof]; (split; [|now split]);
          rewrite app_nil_r; intros s [<- | Hs]; try (now left).
        + apply pop_some in Hpop. right. rewrite Hpop. apply in_or_app. now left.
        + apply pop_empty in Hpop. destruct Hpop as [_ ->]. destruct Hs.
      - unfold revert. destruct (pop (_checkpoints m)) as [[top|] rest] eqn:Hpop.
        + destruct (super_revert (base m)) as [b e].
          cbn [fst _state _checkpoints _preState _proof]. split; [|now split].
          apply pop_some in Hpop. rewrite app_nil_r, Hpop.
          intros s [<- | Hs]; right; apply in_or_app; [right; now left | now left].
        + cbn [fst]. split; [|now split]. now rewrite app_nil_r. }
    destruct Hm1 as [Hsub Hsame].
    assert (Hgiven : forall s,
              In s (_state m1 :: _checkpoints m1
                    ++ flat_map (fun c => match c with
                                          | CallInitPreState _ preState => [preState]
                                          | _ => []
                                          end) calls) ->
              In s (_state m :: _checkpoints m
                    ++ flat_map (fun c => match c with
                                          | CallInitPreState _ preState => [preState]
                                          | _ => []
                                          end) (c :: calls))).
    { intros s Hs. cbn [flat_map].
      change (_state m1 :: _checkpoints m1 ++ ?l) with ((_state m1 :: _checkpoints m1) ++ l) in Hs.
      apply in_app_or in Hs. destruct Hs as [Hs | Hs].
      - apply Hsub in Hs.
        change (_state m :: _checkpoints m ++ ?l) with ((_state m :: _checkpoints m) ++ l) in Hs.
        change (_state m :: _checkpoints m ++ ?l) with ((_state m :: _checkpoints m) ++ l).
        apply in_app_or in Hs. apply in_or_app.
        destruct Hs as [Hs | Hs]; [now left | right; apply in_or_app; now left].
      - right. apply in_or_app. right. apply in_or_app. now right. }
    split; [now apply Hgiven|]. split.
    + rewrite Forall_forall in Hchecks |- *. intros s Hs. apply Hgiven. now apply Hchecks.
    + intro Hno. inversion Hno as [|? ? Hc Hrest]; subst.
      destruct (Hframe Hrest) as [-> ->]. now apply Hsame.
Qed.

End VerkleCheckpoints.

Lemma revert_needs_a_checkpoint_witness :
  Verkle.revert exampleSuper
    {| Verkle._proof := "0x"; Verkle._preState := 1%nat; Verkle._state := 2%nat;
       Verkle._checkpoints := []; Verkle.base := tt |}
  = ({| Verkle._proof := "0x"; Verkle._preState := 1%nat; Verkle._state := 2%nat;
        Verkle._checkpoints := []; Verkle.base := tt |},
     Some Verkle.NoCheckpointsSet).
Proof.
  apply (proj1 (revert_needs_a_checkpoint nat unit exampleSuper exampleSuper
                  {| Verkle._proof := "0x"; Verkle._preState := 1%nat;
                     Verkle._state := 2%nat; Verkle._checkpoints := [];
                     Verkle.base := tt |} eq_refl)).
Defined.

(** ** The verkle state manager: tree keys *)

Section VerkleTreeKeys.
Import Verkle.
Variable setLengthRight : Buffer -> nat -> Buffer.
Variable pedersen_hash : list NumberOrBuffer -> Outcome VerkleError Buffer.
Variable toBuffer_number : Z -> Outcome VerkleError Buffer.

Lemma firstn_add {A : Type} (a b : nat) (l : list A) :
  firstn (a + b) l = firstn a l ++ firstn b (skipn a l).
Proof.
  revert l. induction a as [|a IH]; intro l; [reflexivity|].
  destruct l as [|x l]; cbn [Nat.add firstn skipn app].
  - now rewrite firstn_nil.
  - now rewrite IH.
Qed.

Lemma chunks_concat (buf : Buffer) (n : nat) :
  List.concat (map (fun i => slice buf (16 * i) (16 * (i + 1))) (seq 0 n))
  = firstn (16 * n) buf.
Proof.
  induction n as [|n IH]; [reflexivity|].
  rewrite seq_S, map_app, concat_app, IH. cbn [Nat.add map List.concat].
  rewrite app_nil_r. unfold slice.
  replace (16 * (n + 1) - 16 * n)%nat with 16%nat by lia.
  replace (16 * S n)%nat with (16 * n + 16)%nat by lia.
  now rewrite firstn_add.
Qed.

Lemma pedersenInts_bytes (input : Buffer) :
  List.concat (map (fun x => match x with Bytes b => b | Number _ => [] end)
                 (pedersenInts setLengthRight input))
  = firstn 4080 (setLengthRight input 4080).
Proof.
  unfold pedersenInts. cbn [map List.concat app]. rewrite map_map.
  exact (chunks_concat (setLengthRight input 4080) 255).
Qed.

(** X20: the array [pedersenHash] hands to the wasm module. It has 256
    entries: the number [2 + 256 * input.length], then 255 buffers of at
    most 16 bytes each, which concatenate to the first 4080 bytes of the
    padded input. An input of more than 4080 bytes raises the too-long
    error and the wasm module is not called. *)
Theorem pedersenHash_entries (input : Buffer) :
  length (pedersenInts setLengthRight input) = 256%nat
  /\ hd_error (pedersenInts setLengthRight input)
     = Some (Number (2 + 256 * Z.of_nat (length input)))
  /\ Forall (fun x => match x with Bytes b => (length b <= 16)%nat | Number _ => False end)
       (tl (pedersenInts setLengthRight input))
  /\ List.concat (map (fun x => match x with Bytes b => b | Number _ => [] end)
                    (pedersenInts setLengthRight input))
     = firstn 4080 (setLengthRight input 4080)
  /\ pedersenHash setLengthRight pedersen_hash input
     = if (4080 <? length input)%nat then Raised PedersenInputTooLong
       else pedersen_hash (pedersenInts setLengthRight input).
Proof.
  split; [unfold pedersenInts; cbn [length]; now rewrite length_map, length_seq|].
  split; [reflexivity|]. split; [|split; [apply pedersenInts_bytes | reflexivity]].
  unfold pedersenInts. cbn [tl]. apply Forall_forall. intros x Hx.
  apply in_map_iff in Hx. destruct Hx as (i & <- & _).
  unfold slice. rewrite length_firstn. lia.
Qed.

(** X21: [pedersenHash] hands different inputs to the wasm module as
    different arrays. For two inputs of at most 4080 bytes that
    [setLengthRight] keeps at the front of what it returns, equal arrays
    mean equal inputs: the first entry tells the lengths apart and the
    buffers the bytes. *)
Theorem pedersenHash_tells_inputs_apart (input1 input2 : Buffer) :
  firstn (length input1) (setLengthRight input1 4080) = input1 ->
  firstn (length input2) (setLengthRight input2 4080) = input2 ->
  (length input1 <= 4080)%nat -> (length input2 <= 4080)%nat ->
  pedersenInts setLengthRight input1 = pedersenInts setLengthRight input2 ->
  input1 = input2.
Proof.
  intros Hkeep1 Hkeep2 H1 H2 Heq.
  assert (Hlen : length input1 = length input2).
  { apply (f_equal (@hd_error NumberOrBuffer)) in Heq.
    unfold pedersenInts in Heq. cbn [hd_error] in Heq.
    assert (Hn : 2 + 256 * Z.of_nat (length input1) = 2 + 256 * Z.of_nat (length input2))
      by congruence.
    lia. }
  pose proof (pedersenInts_bytes input1) as B1.
  pose proof (pedersenInts_bytes input2) as B2.
  rewrite Heq, B2 in B1.
  assert (F1 : firstn (length input1) (firstn 4080 (setLengthRight input1 4080)) = input1)
    by (rewrite firstn_firstn, (Nat.min_l _ _ H1); exact Hkeep1).
  assert (F2 : firstn (length input2) (firstn 4080 (setLengthRight input2 4080)) = input2)
    by (rewrite firstn_firstn, (Nat.min_l _ _ H2); exact Hkeep2).
  rewrite <- F1, <- F2. now rewrite B1, Hlen.
Qed.

(** X22: [getTreeKey] hashes 52 bytes. For a 20-byte address and a tree
    index in the signed 32-bit range, the input of [pedersenHash] is the
    address, the index in four little-endian bytes and 28 zero bytes; the
    too-long error cannot occur and the first entry of the array is
    13314; the key is the first 31 bytes of the hash followed by the
    bytes of the sub-index. *)
Theorem getTreeKey_hashes_52_bytes (address : Buffer) (treeIndex subIndex : Z) :
  length address = 20%nat ->
  - 2 ^ 31 <= treeIndex <= 2 ^ 31 - 1 ->
  let input := address ++ littleEndian 4 treeIndex ++ repeat x00 28 in
  length input = 52%nat
  /\ hd_error (pedersenInts setLengthRight input) = Some (Number 13314)
  /\ getTreeKey setLengthRight pedersen_hash toBuffer_number address treeIndex subIndex
     = andThen (pedersen_hash (pedersenInts setLengthRight input)) (fun hashed =>
         andThen (toBuffer_number subIndex) (fun sub =>
           Returned (firstn 31 hashed ++ sub))).
Proof.
  intros Haddr Hrange. cbv zeta.
  assert (Hlen : length (address ++ littleEndian 4 treeIndex ++ repeat x00 28) = 52%nat).
  { rewrite !length_app, Haddr. unfold littleEndian.
    rewrite length_rev, bigEndian_length, repeat_length. reflexivity. }
  split; [exact Hlen|]. split.
  { unfold pedersenInts. cbn [hd_error]. rewrite Hlen. reflexivity. }
  unfold getTreeKey, writeInt32LE.
  destruct (Z.ltb_spec treeIndex (- 2 ^ 31)) as [|_]; [lia|].
  destruct (Z.ltb_spec (2 ^ 31 - 1) treeIndex) as [|_]; [lia|].
  cbn [orb andThen List.concat]. rewrite app_nil_r.
  change (skipn 4 (repeat x00 32)) with (repeat x00 28).
  unfold pedersenHash. rewrite Hlen. change (4080 <? 52)%nat with false.
  destruct (pedersen_hash _) as [hashed|x]; cbn [andThen]; [|reflexivity].
  destruct (toBuffer_number subIndex) as [sub|x]; cbn [andThen]; [|reflexivity].
  cbn [List.concat]. rewrite app_nil_r. unfold slice. reflexivity.
Qed.

End VerkleTreeKeys.

Lemma pedersenHash_tells_inputs_apart_witness :
  Verkle.pedersenInts examplePad [x01; x02] = Verkle.pedersenInts examplePad [x01; x02]
  /\ [x01; x02] = [x01; x02].
Proof.
  split; [reflexivity|].
  apply (pedersenHash_tells_inputs_apart examplePad [x01; x02] [x01; x02]).
  - reflexivity.
  - reflexivity.
  - apply Nat.leb_le. reflexivity.
  - apply Nat.leb_le. reflexivity.
  - reflexivity.
Defined.

Lemma getTreeKey_hashes_52_bytes_witness :
  Verkle.getTreeKey examplePad examplePedersen exampleToBuffer exampleAddress 0
    Verkle.BALANCE_LEAF_KEY
  = Returned (repeat x07 31 ++ [x01])
  /\ Verkle.getTreeKeyForBalance examplePad examplePedersen exampleToBuffer exampleAddress
     = Returned (repeat x07 31 ++ [x01]).
Proof.
  destruct (getTreeKey_hashes_52_bytes examplePad examplePedersen exampleToBuffer
              exampleAddress 0 Verkle.BALANCE_LEAF_KEY)
    as (_ & _ & Hkey).
  - reflexivity.
  - cbn. lia.
  - unfold Verkle.getTreeKeyForBalance. rewrite Hkey. split; reflexivity.
Defined.

(** ** Valid signatures through the encodings *)

Lemma top_bit_of_low_s (s : Buffer) :
  length s = 32%nat -> bufferToBigInt s < 2 ^ 255 -> byteToZ (hd x00 s) < 128.
Proof.
  intros Hlen Hlow. destruct s as [|b t]; [discriminate Hlen|].
  cbn [hd]. rewrite bufferToBigInt_cons in Hlow.
  injection Hlen as Hlen. rewrite Hlen in Hlow.
  pose proof (bufferToBigInt_bounds t) as [Ht _].
  change (256 ^ Z.of_nat 31) with (2 ^ 248) in Hlow.
  change (2 ^ 255) with (128 * 2 ^ 248) in Hlow.
  assert (0 < 2 ^ 248) by reflexivity. nia.
Qed.

(** X23: a signature that passes [isValidSignature] by default survives
    both encodings. For [v >= 0], decoding its compact encoding and
    decoding its RPC encoding both succeed and give back [r] and [s], and
    what each returns passes [isValidSignature] again; the RPC decoding
    also returns the recovery identifier of [v]. The low-[s] rule is what
    keeps the top bit of [s] free for the compact form. *)
Theorem valid_signature_survives_round_trips (v : Z) (r s : Buffer) :
  0 <= v ->
  isValidSignature v r s None = true ->
  exists compact legacy,
    (let* sig := toCompactSig v r s in fromRpcSig sig) = Ok compact
    /\ (let* sig := toRpcSig v r s in fromRpcSig sig) = Ok legacy
    /\ sig_r compact = r /\ sig_s compact = s
    /\ sig_r legacy = r /\ sig_s legacy = s
    /\ sig_recovery legacy = calculateSigRecovery v
    /\ isValidSignature (sig_v compact) (sig_r compact) (sig_s compact) None = true
    /\ isValidSignature (sig_v legacy) (sig_r legacy) (sig_s legacy) None = true.
Proof.
  intros Hv Hvalid. pose proof Hvalid as Hparts.
  apply isValidSignature_true_iff in Hparts.
  destruct Hparts as (Hr & Hs & Hrec & Hrr & Hss & Hlow).
  assert (Hs_low : bufferToBigInt s < SECP256K1_ORDER_DIV_2) by (apply Hlow; discriminate).
  assert (Htop : byteToZ (hd x00 s) < 128).
  { apply top_bit_of_low_s; [exact Hs|].
    assert (SECP256K1_ORDER_DIV_2 < 2 ^ 255) by reflexivity. lia. }
  destruct (compact_and_legacy_decodings v r s Hv Hrec Hr Hs Htop) as [Hcompact Hlegacy].
  eexists. eexists. split; [exact Hcompact|]. split; [exact Hlegacy|].
  cbn [sig_r sig_s sig_v sig_recovery].
  do 5 (split; [reflexivity|]).
  split.
  - apply isValidSignature_true_iff. repeat split; try assumption; try lia.
    unfold compactParity.
    destruct (((28 <? v) && (Z.rem v 2 =? 1)) || (v =? 1) || (v =? 28)); reflexivity.
  - apply isValidSignature_true_iff. repeat split; try assumption; try lia.
    apply isValidSigRecovery_calculate in Hrec.
    destruct (Z.ltb_spec v 27) as [Hsmall|Hbig].
    + destruct Hrec as [Hc | [-> | [-> | Hc]]]; try reflexivity; lia.
    + exact (proj2 (isValidSigRecovery_calculate v) Hrec).
Qed.

Lemma valid_signature_survives_round_trips_witness :
  exists compact legacy,
    (let* sig := toCompactSig 28 (bigEndian 32 1) (bigEndian 32 5) in fromRpcSig sig)
    = Ok compact
    /\ (let* sig := toRpcSig 28 (bigEndian 32 1) (bigEndian 32 5) in fromRpcSig sig)
       = Ok legacy
    /\ isValidSignature (sig_v compact) (sig_r compact) (sig_s compact) None = true
    /\ isValidSignature (sig_v legacy) (sig_r legacy) (sig_s legacy) None = true.
Proof.
  destruct (valid_signature_survives_round_trips 28 (bigEndian 32 1) (bigEndian 32 5))
    as (compact & legacy & Hc & Hl & _ & _ & _ & _ & _ & Hvc & Hvl).
  - lia.
  - vm_compute. reflexivity.
  - exists compact, legacy. split; [exact Hc|]. split; [exact Hl|].
    split; [exact Hvc | exact Hvl].
Defined.

(** X24: normalizing twice is normalizing once. For every integer [v],
    [calculateSigRecovery] of its own result is that result; the result
    lies between 0 and 34 and is never 27 or 28. *)
Theorem calculateSigRecovery_idempotent (v : Z) :
  calculateSigRecovery (calculateSigRecovery v) = calculateSigRecovery v
  /\ 0 <= calculateSigRecovery v <= 34
  /\ calculateSigRecovery v <> 27
  /\ calculateSigRecovery v <> 28.
Proof.
  assert (Hrange : (calculateSigRecovery v = 0 \/ calculateSigRecovery v = 1)
                   \/ (calculateSigRecovery v = v /\ (1 < v < 27 \/ 28 < v < 35))).
  { unfold calculateSigRecovery.
    destruct (Z.ltb_spec 28 v), (Z.ltb_spec v 35), (Z.ltb_spec v 27),
      (Z.ltb_spec 1 v), (Z.eqb_spec v 27), (Z.eqb_spec v 28),
      (Z.eqb_spec v 0), (Z.eqb_spec v 1);
      cbn [andb orb]; try lia;
      try (destruct (Z.rem (0 - 35 - v) 2 =? 0); lia). }
  destruct Hrange as [[H | H] | [H Hv]]; rewrite H.
  - repeat split; try lia; reflexivity.
  - repeat split; try lia; reflexivity.
  - split; [exact H|]. lia.
Qed.
